(** * ossAI_transcribe: timestamp formatting and output writing

    A shallow embedding of the two front-ends of the repository,
    [transcribe.py] (command line) and [gui_transcribe.py] (desktop GUI):
    the timestamp formatters, the three writers, the directory resolution
    and the write/fallback sequence; the device and precision the
    command-line tool resolves, its base name and what it prints; the
    set-up of the GUI worker, the model it loads and the state of the
    window; together with the small part of the Python runtime they rest
    on (binary64 floats, [round], integer formatting, [str.strip],
    [datetime.timedelta], [os.path] and [pathlib.Path] on POSIX, and a
    file system with scripted failures). *)

From Stdlib Require Import ZArith Lia List String Ascii Bool DecimalString.
From Stdlib Require Import DecimalPos.
From Stdlib Require Import Floats.SpecFloat.
From stdpp Require Import base gmap strings.

Open Scope Z_scope.
Open Scope string_scope.

#[local] Arguments String.append : simpl nomatch.

(* ===================================================================== *)
(** * The Python runtime the two scripts use *)
(* ===================================================================== *)

Module Py.

(** ** Exceptions and results *)

(** [OSError] from the file system, [OverflowError] and [ValueError] from
    the conversions of floats, [RuntimeError] for what the model library
    raises. *)
Inductive exn : Type :=
| OSError
| OverflowError
| ValueError
| RuntimeError.

Inductive result (A : Type) : Type :=
| Ok (a : A)
| Raise (e : exn).

Arguments Ok {A} a.
Arguments Raise {A} e.

Definition bind {A B : Type} (r : result A) (k : A -> result B) : result B :=
  match r with
  | Ok a => k a
  | Raise e => Raise e
  end.

Definition is_ok {A : Type} (r : result A) : bool :=
  match r with
  | Ok _ => true
  | Raise _ => false
  end.

(** ** Floats: IEEE 754 binary64, as [spec_float] with 53 bits of mantissa *)

Definition float : Type := spec_float.

Definition prec : Z := 53.
Definition emax : Z := 1024.

(** [float(n)] for an integer of magnitude below [2^53] (exact). *)
Definition float_of_Z (n : Z) : float := binary_normalize prec emax n 0 false.

(** A decimal literal [n / 10^k] written as the quotient [num / den]: one
    correctly rounded division of two exact operands, which is the double a
    literal such as [3661.2005] denotes. *)
Definition float_of_ratio (num den : Z) : float :=
  SFdiv prec emax (float_of_Z num) (float_of_Z den).

Definition fmul (x y : float) : float := SFmul prec emax x y.
Definition fadd (x y : float) : float := SFadd prec emax x y.

Definition is_finite (x : float) : bool :=
  match x with
  | S754_zero _ | S754_finite _ _ _ => true
  | _ => false
  end.

(** [x < 0.0] on floats (false on NaN). *)
Definition flt0 (x : float) : bool := SFltb x (S754_zero false).

(** The integer nearest to [m * 2^e], ties to the even one. *)
Definition round_half_even (m : positive) (e : Z) : Z :=
  match e with
  | Zneg p =>
      let d := Z.pow_pos 2 p in
      let q := Z.pos m / d in
      let r := Z.pos m mod d in
      match 2 * r ?= d with
      | Lt => q
      | Gt => q + 1
      | Eq => if Z.even q then q else q + 1
      end
  | _ => Z.pos m * 2 ^ e
  end.

(** [round(x)] with one argument: an [int], ties to even; [OverflowError]
    on an infinity and [ValueError] on a NaN. *)
Definition round (x : float) : result Z :=
  match x with
  | S754_zero _ => Ok 0
  | S754_finite s m e => Ok (cond_Zopp s (round_half_even m e))
  | S754_infinity _ => Raise OverflowError
  | S754_nan => Raise ValueError
  end.

(** [math.modf(x)] on a finite float: the fractional and the integral part,
    both with the sign of [x]; the integral part is returned as the [int]
    the callers convert it to at once. *)
Definition modf (x : float) : result (float * Z) :=
  match x with
  | S754_zero s => Ok (S754_zero s, 0)
  | S754_finite s m e =>
      match e with
      | Zneg p =>
          let d := Z.pow_pos 2 p in
          Ok (binary_normalize prec emax (cond_Zopp s (Z.pos m mod d)) e s,
              cond_Zopp s (Z.pos m / d))
      | _ => Ok (S754_zero s, cond_Zopp s (Z.pos m * 2 ^ e))
      end
  | S754_infinity _ => Raise OverflowError
  | S754_nan => Raise ValueError
  end.

(** ** Integers to text *)

(** [str(n)], also [%d] and [{n}] in an f-string. *)
Definition str_int (n : Z) : string := NilZero.string_of_int (Z.to_int n).

Fixpoint zeros (k : nat) : string :=
  match k with
  | O => ""
  | S k' => String "0" (zeros k')
  end.

(** [s.zfill(w)] on a string of digits. *)
Definition zfill (w : nat) (s : string) : string :=
  zeros (w - String.length s) ++ s.

(** [{n:0wd}] and [%0wd]: decimal, padded with zeros after the sign up to
    the width [w]. *)
Definition fmt_0d (w : nat) (n : Z) : string :=
  if (n <? 0)%Z then "-" ++ zfill (w - 1) (str_int (- n))
  else zfill w (str_int n).

(** ** Strings *)

(** [c.isspace()] on the code points below 256: tab to carriage return,
    the four separators 28..31, the space, NEL and the no-break space. *)
Definition isspace (c : ascii) : bool :=
  let n := nat_of_ascii c in
  ((9 <=? n) && (n <=? 13))%nat || ((28 <=? n) && (n <=? 32))%nat
  || (n =? 133)%nat || (n =? 160)%nat.

Fixpoint lstrip (s : string) : string :=
  match s with
  | String c r => if isspace c then lstrip r else s
  | EmptyString => EmptyString
  end.

Fixpoint rstrip (s : string) : string :=
  match s with
  | String c r =>
      match rstrip r with
      | EmptyString => if isspace c then EmptyString else String c EmptyString
      | r' => String c r'
      end
  | EmptyString => EmptyString
  end.

(** [s.strip()] *)
Definition strip (s : string) : string := rstrip (lstrip s).

(** [s.replace(a, b)] for one-character [a] and [b]. *)
Fixpoint replace (a b : ascii) (s : string) : string :=
  match s with
  | String c r => String (if Ascii.eqb c a then b else c) (replace a b r)
  | EmptyString => EmptyString
  end.

(** [s[:-3]] *)
Definition drop_last3 (s : string) : string :=
  substring 0 (String.length s - 3) s.

(** [sep.join(l)] *)
Fixpoint join (sep : string) (l : list string) : string :=
  match l with
  | [] => ""
  | [x] => x
  | x :: r => x ++ sep ++ join sep r
  end.

Definition nl : string := String (ascii_of_nat 10) EmptyString.

(** ** State and exceptions

    Code that writes ([f.write] on an open file, the file system under
    [open] and [mkdir]) is a function from the state to the new state and
    either a value or the exception raised. *)

Definition M (S A : Type) : Type := S -> S * result A.

Definition ret {S A : Type} (a : A) : M S A := fun s => (s, Ok a).

Definition mbind {S A B : Type} (c : M S A) (k : A -> M S B) : M S B :=
  fun s =>
    match c s with
    | (s', Ok a) => k a s'
    | (s', Raise e) => (s', Raise e)
    end.

(** A pure computation that may raise, run inside [M]. *)
Definition lift {S A : Type} (r : result A) : M S A := fun s => (s, r).

(** [try: c  except OSError: h] *)
Definition try_except_OSError {S A : Type} (c h : M S A) : M S A :=
  fun s =>
    match c s with
    | (s', Raise OSError) => h s'
    | r => r
    end.

(** [for x in l: body(x)] *)
Fixpoint for_each {S A : Type} (l : list A) (body : A -> M S unit) : M S unit :=
  match l with
  | [] => ret tt
  | x :: r => mbind (body x) (fun _ => for_each r body)
  end.

(** [enumerate(l, i)] *)
Fixpoint enumerate {A : Type} (l : list A) (i : Z) : list (Z * A) :=
  match l with
  | [] => []
  | x :: r => (i, x) :: enumerate r (i + 1)
  end.

(** ** An open text file: the characters written so far *)

Definition f_write (s : string) : M string unit := fun buf => (buf ++ s, Ok tt).

(** ** The file system

    [files] maps the text of a path to the content of the file there and
    [dirs] holds the directories. Whether an [open] or a [mkdir] succeeds
    is the environment's choice: [script] lists the outcomes of the coming
    calls, in order, and a call past its end succeeds. [opens] records the
    paths [open] was called with, oldest first. *)

Inductive io_outcome : Type :=
| IoOk
| IoFail
| IoWriteFail (n : nat).

Record world : Type := mkWorld {
  files : gmap string string;
  dirs : gset string;
  script : list io_outcome;
  opens : list string
}.

Definition next_outcome (w : world) : io_outcome * list io_outcome :=
  match script w with
  | [] => (IoOk, [])
  | o :: r => (o, r)
  end.

(** [with open(path, "w", encoding="utf-8") as f: body]. The call can fail
    before the file is touched; once it is open the file is truncated and
    holds, when the block is left, what [body] wrote, or only the first
    [n] characters of that when the device fails under the writes. *)
Definition with_open_w (path : string) (body : M string unit) : M world unit :=
  fun w =>
    let '(o, rest) := next_outcome w in
    let log := (opens w ++ [path])%list in
    match o with
    | IoFail => (mkWorld (files w) (dirs w) rest log, Raise OSError)
    | IoWriteFail n =>
        (mkWorld (<[path := substring 0 n (fst (body ""))]> (files w))
                 (dirs w) rest log, Raise OSError)
    | IoOk =>
        let '(buf, r) := body "" in
        (mkWorld (<[path := buf]> (files w)) (dirs w) rest log, r)
    end.

(** ** [pathlib.Path] on POSIX: a root and the list of components *)

Record path : Type := mkPath {
  root : string;
  parts : list string
}.

Fixpoint split_slash_aux (s cur : string) : list string :=
  match s with
  | EmptyString => [cur]
  | String c r =>
      if Ascii.eqb c "/" then cur :: split_slash_aux r ""
      else split_slash_aux r (cur ++ String c EmptyString)
  end.

(** [s.split("/")] *)
Definition split_slash (s : string) : list string := split_slash_aux s "".

Definition keep_part (p : string) : bool :=
  negb (String.eqb p "" || String.eqb p ".").

Fixpoint leading_slashes (s : string) : nat :=
  match s with
  | String c r => if Ascii.eqb c "/" then S (leading_slashes r) else O
  | EmptyString => O
  end.

(** [Path(s)]: exactly two leading slashes are kept as the root, any other
    number is one; empty and [.] components are dropped. *)
Definition Path (s : string) : path :=
  let n := leading_slashes s in
  mkPath (match n with O => "" | 2%nat => "//" | _ => "/" end)
         (List.filter keep_part (split_slash s)).

(** [str(p)] *)
Definition str_path (p : path) : string :=
  match root p, parts p with
  | EmptyString, [] => "."
  | r, ps => r ++ join "/" ps
  end.

(** [p / name] *)
Definition joinpath (p : path) (name : string) : path :=
  let q := Path name in
  match root q with
  | EmptyString => mkPath (root p) (parts p ++ parts q)%list
  | _ => q
  end.

Fixpoint rfind_dot (s : string) : option nat :=
  match s with
  | EmptyString => None
  | String c r =>
      match rfind_dot r with
      | Some i => Some (S i)
      | None => if Ascii.eqb c "." then Some O else None
      end
  end.

(** [p.stem]: the last component without its last suffix. *)
Definition stem (p : path) : string :=
  let name := default "" (last (parts p)) in
  match rfind_dot name with
  | Some i =>
      if ((0 <? i) && (i <? String.length name - 1))%nat
      then substring 0 i name else name
  | None => name
  end.

(** The directory and its parents, as [mkdir(parents=True)] walks them. *)
Fixpoint ancestors_from (r : string) (done todo : list string) : list string :=
  match todo with
  | [] => []
  | x :: rest =>
      str_path (mkPath r (done ++ [x])%list)
        :: ancestors_from r (done ++ [x])%list rest
  end.

Definition with_parents (p : path) : list string :=
  ancestors_from (root p) [] (parts p).

(** [p.mkdir(parents=True, exist_ok=True)]: nothing to do, and no error,
    when the directory is there; [FileExistsError] when a file has the
    name; otherwise the environment decides. *)
Definition mkdir (p : path) : M world unit :=
  fun w =>
    let d := str_path p in
    if decide (d ∈ dirs w) then (w, Ok tt)
    else if decide (is_Some (files w !! d)) then (w, Raise OSError)
    else
      let '(o, rest) := next_outcome w in
      match o with
      | IoOk =>
          (mkWorld (files w) (dirs w ∪ list_to_set (d :: with_parents p))
                   rest (opens w), Ok tt)
      | _ => (mkWorld (files w) (dirs w) rest (opens w), Raise OSError)
      end.

End Py.

Import Py.

Notation "x <- c ;; k" := (mbind c (fun x => k))
  (at level 100, c at next level, right associativity).
Notation "c ;; k" := (mbind c (fun _ => k))
  (at level 100, right associativity).

(** A transcript segment, as the model library yields it: two binary64
    times in seconds and the text, a string of code points below 256. *)
Record Segment : Type := mkSegment {
  start : float;
  end_ : float;
  text : string
}.

(* ===================================================================== *)
(** * The writers

    [write_txt], [write_srt] and [write_vtt] have the same text in both
    files; they differ in the formatter they call, which is the parameter
    here. *)
(* ===================================================================== *)

Module Writers.

Definition write_txt (path : string) (segments : list Segment) : M world unit :=
  with_open_w path
    (for_each segments (fun seg => f_write (strip (text seg) ++ nl))).

Definition write_srt (srt_ts : float -> result string)
    (path : string) (segments : list Segment) : M world unit :=
  with_open_w path
    (for_each (enumerate segments 1) (fun '(i, seg) =>
       a <- lift (srt_ts (start seg)) ;;
       b <- lift (srt_ts (end_ seg)) ;;
       f_write (str_int i ++ nl ++ a ++ " --> " ++ b ++ nl
                ++ strip (text seg) ++ nl ++ nl))).

Definition write_vtt (vtt_ts : float -> result string)
    (path : string) (segments : list Segment) : M world unit :=
  with_open_w path
    (f_write ("WEBVTT" ++ nl ++ nl) ;;
     for_each segments (fun seg =>
       a <- lift (vtt_ts (start seg)) ;;
       b <- lift (vtt_ts (end_ seg)) ;;
       f_write (a ++ " --> " ++ b ++ nl ++ strip (text seg) ++ nl ++ nl))).

End Writers.

(* ===================================================================== *)
(** * transcribe.py *)
(* ===================================================================== *)

Module Cli.

(** ** Time formatting *)

(** [total_ms = int(round(seconds * 1000)); if total_ms < 0: total_ms = 0] *)
Definition total_ms (seconds : float) : result Z :=
  bind (round (fmul seconds (float_of_Z 1000)))
       (fun t => Ok (if (t <? 0)%Z then 0 else t)).

(** The three [divmod]s and the f-string of [_format_hhmmss_ms]. *)
Definition hhmmss_ms (t : Z) (sep : string) : string :=
  let hh := t / 3600000 in
  let rem := t mod 3600000 in
  let mm := rem / 60000 in
  let rem := rem mod 60000 in
  let ss := rem / 1000 in
  let ms := rem mod 1000 in
  fmt_0d 2 hh ++ ":" ++ fmt_0d 2 mm ++ ":" ++ fmt_0d 2 ss ++ sep ++ fmt_0d 3 ms.

Definition _format_hhmmss_ms (seconds : float) (sep : string) : result string :=
  bind (total_ms seconds) (fun t => Ok (hhmmss_ms t sep)).

Definition srt_ts (s : float) : result string := _format_hhmmss_ms s ",".

Definition vtt_ts (s : float) : result string := _format_hhmmss_ms s ".".

(** ** The writers and the end of [main] *)

Definition write_txt := Writers.write_txt.
Definition write_srt := Writers.write_srt srt_ts.
Definition write_vtt := Writers.write_vtt vtt_ts.

(** Lines 100 to 117 of [main], from the three writes to the list that is
    printed. [base] is the base name of line 72, [srt] and [vtt] are
    [args.srt] and [args.vtt]; the paths are relative to the working
    directory. An exception leaves [main] (and the process). *)
Definition main (base : string) (srt vtt : bool) (segments : list Segment)
    : M world (list string) :=
  let txt_path := base ++ ".txt" in
  let srt_path := base ++ ".srt" in
  let vtt_path := base ++ ".vtt" in
  write_txt txt_path segments ;;
  (if srt then write_srt srt_path segments else ret tt) ;;
  (if vtt then write_vtt vtt_path segments else ret tt) ;;
  let wrote := [txt_path] in
  let wrote := if srt then (wrote ++ [srt_path])%list else wrote in
  let wrote := if vtt then (wrote ++ [vtt_path])%list else wrote in
  ret wrote.

(** The last line printed. *)
Definition summary (wrote : list string) : string :=
  "Wrote: " ++ join ", " wrote.

End Cli.

(* ===================================================================== *)
(** * gui_transcribe.py *)
(* ===================================================================== *)

Module Gui.

(** ** Time formatting through [datetime.timedelta] *)

(** A normalized [timedelta]: [0 <= seconds < 86400],
    [0 <= microseconds < 10^6]. *)
Record timedelta_t : Type := mkTd {
  td_days : Z;
  td_seconds : Z;
  td_microseconds : Z
}.

(** [timedelta(seconds=x)] for a float [x], after the reference
    implementation of the standard library: split with [modf], carry the
    whole seconds into days, round the fraction scaled by [1e6] to an
    integer, carry again, and refuse more than 999999999 days. *)
Definition timedelta (x : float) : result timedelta_t :=
  bind (modf x) (fun '(secondsfrac, seconds) =>
  let d := seconds / 86400 in
  let s := seconds mod 86400 in
  let usdouble := fmul secondsfrac (float_of_Z 1000000) in
  bind (round (fadd (float_of_Z 0) usdouble)) (fun microseconds =>
  let s := s + microseconds / 1000000 in
  let us := microseconds mod 1000000 in
  let d := d + s / 86400 in
  let s := s mod 86400 in
  if (999999999 <? Z.abs d)%Z then Raise OverflowError
  else Ok (mkTd d s us))).

(** [str(td)] *)
Definition str_td (td : timedelta_t) : string :=
  let mm := td_seconds td / 60 in
  let ss := td_seconds td mod 60 in
  let hh := mm / 60 in
  let mm := mm mod 60 in
  let s := str_int hh ++ ":" ++ fmt_0d 2 mm ++ ":" ++ fmt_0d 2 ss in
  let s :=
    if (td_days td =? 0)%Z then s
    else str_int (td_days td) ++ " day"
         ++ (if (Z.abs (td_days td) =? 1)%Z then "" else "s") ++ ", " ++ s in
  if (td_microseconds td =? 0)%Z then s
  else s ++ "." ++ fmt_0d 6 (td_microseconds td).

(** [str(td)[:-3]], the local [vtt_ts] of [write_vtt]. *)
Definition vtt_ts (s : float) : result string :=
  bind (timedelta s) (fun td => Ok (drop_last3 (str_td td))).

(** [str(td)[:-3].replace('.', ',')] *)
Definition srt_ts (s : float) : result string :=
  bind (timedelta s) (fun td => Ok (replace "." "," (drop_last3 (str_td td)))).

(** ** The writers and [TranscribeWorker.run] *)

Definition write_txt := Writers.write_txt.
Definition write_srt := Writers.write_srt srt_ts.
Definition write_vtt := Writers.write_vtt vtt_ts.

(** The terminal signals of the worker. *)
Inductive signal : Type :=
| done (msg : string)
| failed (e : exn).

Section Run.

(** [Path.home()] *)
Variable home : path.

Definition DEFAULT_OUT : path := joinpath home "WhisperLite".

(** Lines 90 to 92: [self.out_dir] is [Path(out_dir)]. *)
Definition resolve_out (out_dir : string) : path :=
  let out := Path out_dir in
  if String.eqb (str_path out) "/" || String.eqb (str_path out) ""
  then DEFAULT_OUT else out.

(** Lines 117 to 126, the body of the inner [try]. *)
Definition write_primary (out : path) (base : string) (srt vtt : bool)
    (segs : list Segment) : M world string :=
  let txt_path := joinpath out (base ++ ".txt") in
  let srt_path := joinpath out (base ++ ".srt") in
  let vtt_path := joinpath out (base ++ ".vtt") in
  write_txt (str_path txt_path) segs ;;
  (if srt then write_srt (str_path srt_path) segs else ret tt) ;;
  (if vtt then write_vtt (str_path vtt_path) segs else ret tt) ;;
  let wrote := [str_path txt_path] in
  let wrote := if srt then (wrote ++ [str_path srt_path])%list else wrote in
  let wrote := if vtt then (wrote ++ [str_path vtt_path])%list else wrote in
  ret ("Wrote: " ++ join ", " wrote).

(** Lines 128 to 137, the handler of [OSError]. *)
Definition write_fallback (base : string) (srt vtt : bool)
    (segs : list Segment) : M world string :=
  let fb := DEFAULT_OUT in
  mkdir fb ;;
  let txt_fb := joinpath fb (base ++ ".txt") in
  write_txt (str_path txt_fb) segs ;;
  let msg := "Wrote (fallback): " ++ str_path txt_fb in
  msg <- (if srt then
            let srt_fb := joinpath fb (base ++ ".srt") in
            write_srt (str_path srt_fb) segs ;;
            ret (msg ++ ", " ++ str_path srt_fb)
          else ret msg) ;;
  msg <- (if vtt then
            let vtt_fb := joinpath fb (base ++ ".vtt") in
            write_vtt (str_path vtt_fb) segs ;;
            ret (msg ++ ", " ++ str_path vtt_fb)
          else ret msg) ;;
  ret msg.

(** The body of the outer [try]. [transcribed] is what loading the model
    and [model.transcribe] give: the materialized segments, or the
    exception of the library. *)
Definition run_body (audio_path out_dir : string) (srt vtt : bool)
    (transcribed : result (list Segment)) : M world string :=
  let out := resolve_out out_dir in
  mkdir out ;;
  let base := stem (Path audio_path) in
  segs <- lift transcribed ;;
  try_except_OSError (write_primary out base srt vtt segs)
                     (write_fallback base srt vtt segs).

(** [run]: every exception becomes the [failed] signal. *)
Definition run (audio_path out_dir : string) (srt vtt : bool)
    (transcribed : result (list Segment)) (w : world) : world * signal :=
  match run_body audio_path out_dir srt vtt transcribed w with
  | (w', Ok msg) => (w', done msg)
  | (w', Raise e) => (w', failed e)
  end.

End Run.

End Gui.

(* ===================================================================== *)
(** * More of the Python runtime: case, prefixes, [os.path], [Path.parent] *)
(* ===================================================================== *)

Module PyExt.

(** [c.lower()] on the code points below 256: the letters [A] to [Z], and
    the capital letters 192 to 222 but for the multiplication sign. *)
Definition lower_char (c : ascii) : ascii :=
  let n := nat_of_ascii c in
  if (((65 <=? n) && (n <=? 90))
      || ((192 <=? n) && (n <=? 222) && negb (n =? 215)))%nat
  then ascii_of_nat (n + 32) else c.

(** [s.lower()] *)
Fixpoint lower (s : string) : string :=
  match s with
  | EmptyString => EmptyString
  | String c r => String (lower_char c) (lower r)
  end.

(** [s.startswith(p)] *)
Definition startswith (s p : string) : bool := String.prefix p s.

(** [s.rfind(c)] for a one-character [c]: the last index, or -1. *)
Fixpoint rfind (c : ascii) (s : string) : Z :=
  match s with
  | EmptyString => -1
  | String x r =>
      let i := rfind c r in
      if (i <? 0)%Z then (if Ascii.eqb x c then 0 else -1) else i + 1
  end.

(** [s[i:]] and [s[:i]] for [0 <= i]. *)
Definition slice_from (s : string) (i : Z) : string :=
  substring (Z.to_nat i) (String.length s - Z.to_nat i) s.

Definition slice_to (s : string) (i : Z) : string :=
  substring 0 (Z.to_nat i) s.

(** [os.path.basename(p)] on POSIX: what follows the last slash. *)
Definition basename (p : string) : string :=
  let i := rfind "/" p + 1 in
  slice_from p i.

(** The loop of [genericpath._splitext]: is there, among the [n]
    characters from index [i] on, one that is not a period? *)
Fixpoint before_dot (p : string) (i : nat) (n : nat) : bool :=
  match n with
  | O => false
  | S n' =>
      match get i p with
      | Some c => if Ascii.eqb c "." then before_dot p (S i) n' else true
      | None => true
      end
  end.

(** [os.path.splitext(p)] on POSIX: the extension starts at the last
    period of the last component, leading periods not counted. *)
Definition splitext (p : string) : string * string :=
  let sepIndex := rfind "/" p in
  let dotIndex := rfind "." p in
  if (sepIndex <? dotIndex)%Z
     && before_dot p (Z.to_nat (sepIndex + 1))
                     (Z.to_nat (dotIndex - (sepIndex + 1)))
  then (slice_to p dotIndex, slice_from p dotIndex)
  else (p, "").

(** [p.parent]: the path without its last component; a path without
    components is its own parent. *)
Definition parent (p : path) : path :=
  match parts p with
  | [] => p
  | _ => mkPath (root p) (removelast (parts p))
  end.

(** [p.name]: the last component, or the empty string. *)
Definition name (p : path) : string := default "" (last (parts p)).

End PyExt.

Import PyExt.

(* ===================================================================== *)
(** * transcribe.py: the rest of [main] *)
(* ===================================================================== *)

Module CliShell.

(** Lines 63 to 70: the device [auto] is resolved from the platform, and
    [float16] on the CPU is replaced. [sys_platform] is [sys.platform] and
    [machine] is [platform.machine()]; the result is [args.device] and
    [args.compute_type] after the two tests. *)
Definition resolve_device (sys_platform machine device compute_type : string)
    : string * string :=
  let device :=
    if String.eqb device "auto" then
      let is_arm_mac :=
        String.eqb sys_platform "darwin"
        && (String.eqb (lower machine) "arm64"
            || String.eqb (lower machine) "aarch64") in
      if is_arm_mac then "metal" else "cpu"
    else device in
  let compute_type :=
    if String.eqb device "cpu" && startswith (lower compute_type) "float16"
    then "int8" else compute_type in
  (device, compute_type).

(** Line 72: [args.output or os.path.splitext(os.path.basename(args.audio))[0]];
    [output] is [None] when the option is not given. *)
Definition base_name (output : option string) (audio : string) : string :=
  match output with
  | Some o =>
      if String.eqb o "" then fst (splitext (basename audio)) else o
  | None => fst (splitext (basename audio))
  end.

(** The standard output beside the file system. *)
Definition shell : Type := list string * world.

(** [print(line)] *)
Definition print (line : string) : M shell unit :=
  fun '(out, w) => ((out ++ [line])%list, w, Ok tt).

(** A command on the file system, run in the shell. *)
Definition in_world {A : Type} (c : M world A) : M shell A :=
  fun '(out, w) => let '(w', r) := c w in (out, w', r).

(** Lines 96 to 117: the optional listing of the segments, the writes, and
    the lines printed at the end. [info_lines] are the lines that lines 107
    to 113 print from what the library reports. *)
Definition main_tail (timestamps : bool) (base : string) (srt vtt : bool)
    (info_lines : list string) (segments : list Segment) : M shell unit :=
  (if timestamps then
     for_each segments (fun seg =>
       a <- lift (Cli.srt_ts (start seg)) ;;
       b <- lift (Cli.srt_ts (end_ seg)) ;;
       print ("[" ++ a ++ " -> " ++ b ++ "] " ++ strip (text seg)))
   else ret tt) ;;
  wrote <- in_world (Cli.main base srt vtt segments) ;;
  for_each info_lines print ;;
  print (Cli.summary wrote).

End CliShell.

(* ===================================================================== *)
(** * gui_transcribe.py: the worker's set-up and the window *)
(* ===================================================================== *)

Module GuiShell.

(** The fields of a [TranscribeWorker]. *)
Record worker : Type := mkWorker {
  audio_path : string;
  out_dir : path;
  model_size : string;
  language : option string;
  write_srt_flag : bool;
  write_vtt_flag : bool;
  vad_flag : bool;
  device : string
}.

(** [TranscribeWorker.__init__] *)
Definition init (audio_path out_dir model_size language : string)
    (write_srt_flag write_vtt_flag vad_flag : bool) (device : string)
    : worker :=
  mkWorker audio_path (Path out_dir) model_size
    (if String.eqb language "" then None else Some language)
    write_srt_flag write_vtt_flag vad_flag
    (if String.eqb device "cpu" || String.eqb device "cuda"
        || String.eqb device "auto"
     then device else "auto").

(** The arguments of a call of [WhisperModel]. *)
Record model_call : Type := mkCall {
  model_id : string;
  call_device : string;
  call_compute_type : string
}.

(** What the test of line 68 finds at [LOCAL_MODEL_DIR]: nothing, so that
    [exists()] is false; something that cannot be listed, a regular file
    or a directory that may not be read, so that [exists()] or [iterdir()]
    raises an [OSError]; or a directory, with its entries. *)
Inductive dir_state : Type :=
| Missing
| Unlistable
| Listing (entries : list string).

Section LoadModel.

(** [app_root()] *)
Variable app_root : path.

Definition LOCAL_MODEL_DIR : path :=
  joinpath (joinpath app_root "models") "whisper-tiny".

(** Lines 64 and 65: the device and the precision, fixed before the
    directory is looked at. *)
Definition load_args (self : worker) : string * string :=
  let chosen_device :=
    if String.eqb (device self) "" then "auto" else device self in
  let compute :=
    if String.eqb chosen_device "cuda" then "float16" else "int8" in
  (chosen_device, compute).

(** [_load_model]: [local_dir] is what is at [LOCAL_MODEL_DIR] and
    [environ] is [os.environ]. The result is the progress messages
    emitted, the environment afterwards, and the call of [WhisperModel]
    made, or the exception of the directory test. *)
Definition _load_model (self : worker) (local_dir : dir_state)
    (environ : gmap string string)
    : list string * gmap string string * result model_call :=
  let '(chosen_device, compute) := load_args self in
  match local_dir with
  | Unlistable => ([], environ, Raise OSError)
  | Listing (_ :: _) =>
      (["Loading local model: " ++ str_path LOCAL_MODEL_DIR],
       <["HF_HUB_OFFLINE" := "1"]> environ,
       Ok (mkCall (str_path LOCAL_MODEL_DIR) chosen_device compute))
  | _ =>
      (["No local model found. Loading by name: " ++ model_size self],
       environ,
       Ok (mkCall (model_size self) chosen_device compute))
  end.

End LoadModel.

(** The state of the window: the three attributes, the two labels, the
    log, the run button, the input widgets and the worker last started. *)
Record app : Type := mkApp {
  app_audio_path : option string;
  user_chose_out_dir : bool;
  app_out_dir : string;
  file_label : string;
  out_label : string;
  log : list string;
  btn_run_enabled : bool;
  model_box : string;
  lang_edit : string;
  chk_srt : bool;
  chk_vtt : bool;
  chk_vad : bool;
  started : option worker
}.

Section App.

(** [Path.home()] *)
Variable home : path.

(** [App.__init__]: the widgets with their initial values, the state, and
    the default directory created. *)
Definition app_init : M world app :=
  mkdir (Gui.DEFAULT_OUT home) ;;
  ret (mkApp None false (str_path (Gui.DEFAULT_OUT home))
         "No file selected"
         ("Output: " ++ str_path (Gui.DEFAULT_OUT home))
         [] true "tiny" "" true false true None).

(** [choose_file]: [fn] is what the file dialog returns, empty when it is
    cancelled. *)
Definition choose_file (fn : string) (self : app) : app :=
  if String.eqb fn "" then self
  else
    let out_dir :=
      if user_chose_out_dir self then app_out_dir self
      else str_path (parent (Path fn)) in
    mkApp (Some fn) (user_chose_out_dir self) out_dir
      (name (Path fn))
      (if user_chose_out_dir self then out_label self
       else "Output: " ++ out_dir)
      (log self) (btn_run_enabled self) (model_box self) (lang_edit self)
      (chk_srt self) (chk_vtt self) (chk_vad self) (started self).

(** [choose_out]: [d] is what the folder dialog returns. *)
Definition choose_out (d : string) (self : app) : app :=
  if String.eqb d "" then self
  else
    mkApp (app_audio_path self) true d (file_label self) ("Output: " ++ d)
      (log self) (btn_run_enabled self) (model_box self) (lang_edit self)
      (chk_srt self) (chk_vtt self) (chk_vad self) (started self).

(** [start_run] *)
Definition start_run (self : app) : app :=
  match app_audio_path self with
  | None =>
      mkApp None (user_chose_out_dir self) (app_out_dir self)
        (file_label self) (out_label self)
        (log self ++ ["Select a file first."])%list
        (btn_run_enabled self) (model_box self) (lang_edit self)
        (chk_srt self) (chk_vtt self) (chk_vad self) (started self)
  | Some audio =>
      if String.eqb audio "" then
        mkApp (Some audio) (user_chose_out_dir self) (app_out_dir self)
          (file_label self) (out_label self)
          (log self ++ ["Select a file first."])%list
          (btn_run_enabled self) (model_box self) (lang_edit self)
          (chk_srt self) (chk_vtt self) (chk_vad self) (started self)
      else
        mkApp (Some audio) (user_chose_out_dir self) (app_out_dir self)
          (file_label self) (out_label self)
          (log self ++ ["Starting..."])%list
          false (model_box self) (lang_edit self)
          (chk_srt self) (chk_vtt self) (chk_vad self)
          (Some (init audio (app_out_dir self) (model_box self)
                   (strip (lang_edit self)) (chk_srt self) (chk_vtt self)
                   (chk_vad self) "auto"))
  end.

(** A click on the run button: a disabled button does nothing. *)
Definition click_run (self : app) : app :=
  if btn_run_enabled self then start_run self else self.

(** [finish_ok] *)
Definition finish_ok (msg : string) (self : app) : app :=
  mkApp (app_audio_path self) (user_chose_out_dir self) (app_out_dir self)
    (file_label self) (out_label self) (log self ++ [msg])%list true
    (model_box self) (lang_edit self) (chk_srt self) (chk_vtt self)
    (chk_vad self) (started self).

(** [finish_fail] *)
Definition finish_fail (msg : string) (self : app) : app :=
  mkApp (app_audio_path self) (user_chose_out_dir self) (app_out_dir self)
    (file_label self) (out_label self)
    (log self ++ [("ERROR:" ++ nl ++ msg)%string])%list true
    (model_box self) (lang_edit self) (chk_srt self) (chk_vtt self)
    (chk_vad self) (started self).

(** The input widgets, as the user sets them. *)
Definition set_inputs (model lang : string) (srt vtt vad : bool) (self : app)
    : app :=
  mkApp (app_audio_path self) (user_chose_out_dir self) (app_out_dir self)
    (file_label self) (out_label self) (log self) (btn_run_enabled self)
    model lang srt vtt vad (started self).

(** What the user and the worker can do to the window: the two dialogs
    with what they return, the input widgets with their new values, a
    click on the run button, and the two signals of the worker. *)
Inductive event : Type :=
| ChooseFile (fn : string)
| ChooseOut (d : string)
| SetInputs (model lang : string) (srt vtt vad : bool)
| ClickRun
| FinishOk (msg : string)
| FinishFail (msg : string).

Definition step (self : app) (e : event) : app :=
  match e with
  | ChooseFile fn => choose_file fn self
  | ChooseOut d => choose_out d self
  | SetInputs model lang srt vtt vad => set_inputs model lang srt vtt vad self
  | ClickRun => click_run self
  | FinishOk msg => finish_ok msg self
  | FinishFail msg => finish_fail msg self
  end.

Definition steps (self : app) (es : list event) : app :=
  fold_left step es self.

End App.

End GuiShell.

(* ===================================================================== *)
(** * What the specification says, as predicates and reference texts *)
(* ===================================================================== *)

Definition is_digit (c : ascii) : bool :=
  let n := nat_of_ascii c in ((48 <=? n) && (n <=? 57))%nat.

Fixpoint all_digits (s : string) : bool :=
  match s with
  | EmptyString => true
  | String c r => is_digit c && all_digits r
  end.

(** [HH:MM:SS<sep>mmm]: digits only in the four fields, at least two for
    the hours, two for minutes and seconds, three for milliseconds. *)
Definition hhmmss_shape (sep out : string) : Prop :=
  exists hh mm ss ms : string,
    out = hh ++ ":" ++ mm ++ ":" ++ ss ++ sep ++ ms
    /\ all_digits hh = true /\ (2 <= String.length hh)%nat
    /\ all_digits mm = true /\ String.length mm = 2%nat
    /\ all_digits ss = true /\ String.length ss = 2%nat
    /\ all_digits ms = true /\ String.length ms = 3%nat.

(** The value a formatter returned, [""] when it raised. *)
Definition value (r : result string) : string :=
  match r with
  | Ok a => a
  | Raise _ => ""
  end.

(** Both timestamps of the segment can be formatted. *)
Definition formats (ts : float -> result string) (seg : Segment) : bool :=
  is_ok (ts (start seg)) && is_ok (ts (end_ seg)).

(** The timing line of a cue: [start --> end]. *)
Definition timing_line (ts : float -> result string) (seg : Segment) : string :=
  value (ts (start seg)) ++ " --> " ++ value (ts (end_ seg)).

(** One SRT block: index line, timing line, trimmed text, blank line. *)
Definition srt_block (ts : float -> result string) (i : Z) (seg : Segment)
    : string :=
  str_int i ++ nl ++ timing_line ts seg ++ nl ++ strip (text seg) ++ nl ++ nl.

(** The SRT document: the blocks of the segments, numbered from [i]. *)
Fixpoint srt_document (ts : float -> result string) (i : Z)
    (segs : list Segment) : string :=
  match segs with
  | [] => ""
  | seg :: r => srt_block ts i seg ++ srt_document ts (i + 1) r
  end.

(** One VTT block: timing line, trimmed text, blank line. *)
Definition vtt_block (ts : float -> result string) (seg : Segment) : string :=
  timing_line ts seg ++ nl ++ strip (text seg) ++ nl ++ nl.

Fixpoint vtt_blocks (ts : float -> result string) (segs : list Segment)
    : string :=
  match segs with
  | [] => ""
  | seg :: r => vtt_block ts seg ++ vtt_blocks ts r
  end.

(** The VTT document: the header, a blank line, the blocks. *)
Definition vtt_document (ts : float -> result string) (segs : list Segment)
    : string :=
  "WEBVTT" ++ nl ++ nl ++ vtt_blocks ts segs.

(** The plain text: one trimmed line per segment. *)
Fixpoint txt_document (segs : list Segment) : string :=
  match segs with
  | [] => ""
  | seg :: r => strip (text seg) ++ nl ++ txt_document r
  end.

(** The lines of a text that ends every line with a newline. *)
Fixpoint lines_aux (s cur : string) : list string :=
  match s with
  | EmptyString => []
  | String c r =>
      if Ascii.eqb c (ascii_of_nat 10) then cur :: lines_aux r ""
      else lines_aux r (cur ++ String c EmptyString)
  end.

Definition lines (s : string) : list string := lines_aux s "".

(** No newline in the text. *)
Fixpoint one_line (s : string) : bool :=
  match s with
  | EmptyString => true
  | String c r => negb (Ascii.eqb c (ascii_of_nat 10)) && one_line r
  end.

(** What a cue contributes to the lines of a VTT file. *)
Definition vtt_cue_lines (ts : float -> result string) (seg : Segment)
    : list string :=
  [timing_line ts seg; strip (text seg); ""].

(** What a cue contributes to the lines of an SRT file. *)
Definition srt_cue_lines (ts : float -> result string) (i : Z) (seg : Segment)
    : list string :=
  [str_int i; timing_line ts seg; strip (text seg); ""].

Definition cue_one_line (ts : float -> result string) (seg : Segment) : bool :=
  one_line (timing_line ts seg) && one_line (strip (text seg)).

(** The segments of the examples of the specification. *)
Definition seg_hello : Segment :=
  mkSegment (float_of_Z 0) (float_of_Z 1) "Hello".
Definition seg_world : Segment :=
  mkSegment (float_of_Z 1) (float_of_ratio 5 2) "world".

(** An empty file system in which every call succeeds. *)
Definition empty_world : world := mkWorld ∅ ∅ [] [].

(** Equal length, and every position at which the two strings differ holds
    the comma in the first and the period in the second; there is at most
    one such position. *)
Definition same_but_separator (a b : string) : Prop :=
  String.length a = String.length b
  /\ forall i, get i a <> get i b ->
       get i a = Some ","%char /\ get i b = Some "."%char
       /\ forall j, get j a <> get j b -> j = i.

(** No period in the text. *)
Fixpoint no_dot (s : string) : bool :=
  match s with
  | EmptyString => true
  | String c r => negb (Ascii.eqb c ".") && no_dot r
  end.

(** The text the specification gives for the SRT file of its two segments. *)
Definition srt_expected : string :=
  "1" ++ nl ++ "00:00:00,000 --> 00:00:01,000" ++ nl ++ "Hello" ++ nl ++ nl
  ++ "2" ++ nl ++ "00:00:01,000 --> 00:00:02,500" ++ nl ++ "world" ++ nl ++ nl.

(** The files a run is asked for: the text, then the subtitles whose flag
    is set, SRT before VTT. *)
Definition targets (txt_path srt_path vtt_path : string) (srt vtt : bool)
    : list string :=
  txt_path :: ((if srt then [srt_path] else [])
               ++ (if vtt then [vtt_path] else []))%list.

Definition cli_targets (base : string) (srt vtt : bool) : list string :=
  targets (base ++ ".txt") (base ++ ".srt") (base ++ ".vtt") srt vtt.

Definition gui_targets (dir : path) (base : string) (srt vtt : bool)
    : list string :=
  targets (str_path (joinpath dir (base ++ ".txt")))
          (str_path (joinpath dir (base ++ ".srt")))
          (str_path (joinpath dir (base ++ ".vtt"))) srt vtt.

(** No path of the first list is in the second. *)
Definition disjoint_paths (l1 l2 : list string) : bool :=
  forallb (fun p => negb (existsb (String.eqb p) l2)) l1.

(** A command that calls [open] once, on [path], and changes nothing
    else. *)
Definition writes_to (path : string) (c : M world unit) : Prop :=
  forall (w w' : world) (r : result unit),
    c w = (w', r) ->
    opens w' = (opens w ++ [path])%list
    /\ dirs w' = dirs w
    /\ forall p : string, p <> path -> files w' !! p = files w !! p.

(** The text, then each requested subtitle file. *)
Definition three_writes (c1 c2 c3 : M world unit) (srt vtt : bool)
    : M world unit :=
  c1 ;; (if srt then c2 else ret tt) ;; (if vtt then c3 else ret tt).

(** No slash in the text. *)
Fixpoint slash_free (s : string) : bool :=
  match s with
  | EmptyString => true
  | String c r => negb (Ascii.eqb c "/") && slash_free r
  end.

(** A command that, when it returns, has left [doc] in the file [path]. *)
Definition writes_doc (path doc : string) (c : M world unit) : Prop :=
  forall w w' : world, c w = (w', Ok tt) -> files w' !! path = Some doc.

(** What the files hold after a run that returned: the text document, and
    each subtitle document that was asked for. *)
Definition holds_documents (fs : gmap string string) (srt vtt : bool)
    (p1 p2 p3 d1 d2 d3 : string) : Prop :=
  fs !! p1 = Some d1
  /\ (srt = true -> fs !! p2 = Some d2)
  /\ (vtt = true -> fs !! p3 = Some d3).


(** The documents of the GUI under a directory. *)
Definition gui_holds (fs : gmap string string) (dir : path) (base : string)
    (srt vtt : bool) (segs : list Segment) : Prop :=
  holds_documents fs srt vtt
    (str_path (joinpath dir (base ++ ".txt")))
    (str_path (joinpath dir (base ++ ".srt")))
    (str_path (joinpath dir (base ++ ".vtt")))
    (txt_document segs) (srt_document Gui.srt_ts 1 segs)
    (vtt_document Gui.vtt_ts segs).

(** The targets of a run with the document each is to hold. *)
Definition target_docs (p1 p2 p3 d1 d2 d3 : string) (srt vtt : bool)
    : list (string * string) :=
  (p1, d1) :: ((if srt then [(p2, d2)] else [])
               ++ (if vtt then [(p3, d3)] else []))%list.

Definition gui_target_docs (dir : path) (base : string) (srt vtt : bool)
    (segs : list Segment) : list (string * string) :=
  target_docs
    (str_path (joinpath dir (base ++ ".txt")))
    (str_path (joinpath dir (base ++ ".srt")))
    (str_path (joinpath dir (base ++ ".vtt")))
    (txt_document segs) (srt_document Gui.srt_ts 1 segs)
    (vtt_document Gui.vtt_ts segs) srt vtt.

(** Whitespace only. *)
Fixpoint all_space (s : string) : bool :=
  match s with
  | EmptyString => true
  | String c r => isspace c && all_space r
  end.

Definition starts_with_space (s : string) : bool :=
  match s with
  | String c _ => isspace c
  | EmptyString => false
  end.

Fixpoint ends_with_space (s : string) : bool :=
  match s with
  | EmptyString => false
  | String c EmptyString => isspace c
  | String _ r => ends_with_space r
  end.

(** [t] is [s] without the whitespace at its two ends. *)
Definition trimmed (s t : string) : Prop :=
  (exists l r : string,
     s = l ++ t ++ r /\ all_space l = true /\ all_space r = true)
  /\ starts_with_space t = false
  /\ ends_with_space t = false.

(** A home directory for the examples. *)
Definition home_u : path := Path "/home/u".

Definition two_segments : list Segment := [seg_hello; seg_world].

(** Equal length, and exactly one position at which the two strings
    differ, holding the comma in the first and the period in the second. *)
Definition differ_at_separator (a b : string) : Prop :=
  String.length a = String.length b
  /\ exists i : nat,
       get i a = Some ","%char /\ get i b = Some "."%char
       /\ forall j : nat, j <> i -> get j a = get j b.

(** The VTT file of the two segments of the specification, with its
    period-style timestamps. *)
Definition vtt_expected : string :=
  "WEBVTT" ++ nl ++ nl
  ++ "00:00:00.000 --> 00:00:01.000" ++ nl ++ "Hello" ++ nl ++ nl
  ++ "00:00:01.000 --> 00:00:02.500" ++ nl ++ "world" ++ nl ++ nl.

(** A segment whose end time is not a number. *)
Definition seg_nan : Segment := mkSegment (float_of_Z 1) S754_nan "lost".

(** The exception the timing line of a cue raises, if any: that of the
    start time, which is formatted first, else that of the end time. *)
Definition cue_error (ts : float -> result string) (seg : Segment) : option exn :=
  match ts (start seg) with
  | Raise e => Some e
  | Ok _ => match ts (end_ seg) with Raise e => Some e | Ok _ => None end
  end.

(** Both times of the segment, scaled to milliseconds, are finite. *)
Definition scales_to_ms (seg : Segment) : bool :=
  is_finite (fmul (start seg) (float_of_Z 1000))
  && is_finite (fmul (end_ seg) (float_of_Z 1000)).

(** A command that returns on every file system without scripted
    failures, and leaves it without any. *)
Definition returns_unscripted (c : M world unit) : Prop :=
  forall w : world, script w = [] ->
    exists w' : world, c w = (w', Ok tt) /\ script w' = [].

(** The line [--timestamps] prints for a segment. *)
Definition listing_line (seg : Segment) : string :=
  "[" ++ value (Cli.srt_ts (start seg)) ++ " -> "
  ++ value (Cli.srt_ts (end_ seg)) ++ "] " ++ strip (text seg).

(** The targets of the command-line tool with their documents. *)
Definition cli_target_docs (base : string) (srt vtt : bool)
    (segs : list Segment) : list (string * string) :=
  target_docs (base ++ ".txt") (base ++ ".srt") (base ++ ".vtt")
    (txt_document segs) (srt_document Cli.srt_ts 1 segs)
    (vtt_document Cli.vtt_ts segs) srt vtt.

(** A component as [Path] keeps them: not empty, not a single period, no
    slash. *)
Definition part_ok (x : string) : bool := keep_part x && slash_free x.

(** A path as [Path], [/] and [parent] build them. *)
Definition wf_path (p : path) : Prop :=
  (root p = "" \/ root p = "/" \/ root p = "//")
  /\ forallb part_ok (parts p) = true.

(** The folder of the last folder dialog that was not cancelled. *)
Definition chosen_dir (es : list GuiShell.event) : option string :=
  fold_left (fun acc e =>
    match e with
    | GuiShell.ChooseOut d => if String.eqb d "" then acc else Some d
    | _ => acc
    end) es None.

(** The file of the last file dialog that was not cancelled. *)
Definition chosen_file (es : list GuiShell.event) : option string :=
  fold_left (fun acc e =>
    match e with
    | GuiShell.ChooseFile fn => if String.eqb fn "" then acc else Some fn
    | _ => acc
    end) es None.

(** The output folder after the events: the folder chosen, else the
    parent of the file chosen, else the default directory. *)
Definition expected_out_dir (home : path) (es : list GuiShell.event) : string :=
  match chosen_dir es with
  | Some d => d
  | None =>
      match chosen_file es with
      | Some fn => str_path (parent (Path fn))
      | None => str_path (Gui.DEFAULT_OUT home)
      end
  end.

(** What the state of the window keeps in step with the events. *)
Definition app_inv (home : path) (es : list GuiShell.event)
    (st : GuiShell.app) : Prop :=
  GuiShell.user_chose_out_dir st
  = match chosen_dir es with Some _ => true | None => false end
  /\ GuiShell.app_audio_path st = chosen_file es
  /\ GuiShell.app_out_dir st = expected_out_dir home es
  /\ GuiShell.out_label st = "Output: " ++ GuiShell.app_out_dir st.

(** What holds of a worker the window starts. *)
Definition worker_ok (wk : GuiShell.worker) : Prop :=
  GuiShell.audio_path wk <> ""
  /\ GuiShell.device wk = "auto"
  /\ GuiShell.language wk <> Some ""
  /\ (forall l : string, GuiShell.language wk = Some l ->
        starts_with_space l = false /\ ends_with_space l = false).

(** The number a string of decimal digits denotes. *)
Definition digits_value (s : string) : option Z :=
  match NilEmpty.uint_of_string s with
  | Some d => Some (Z.of_N (Pos.of_uint d))
  | None => None
  end.

(** [k] zeros before the digits. *)
Fixpoint lead_zeros (k : nat) (d : Decimal.uint) : Decimal.uint :=
  match k with
  | O => d
  | S k' => Decimal.D0 (lead_zeros k' d)
  end.

(* ===================================================================== *)
(** * Integers to text: digits and widths *)
(* ===================================================================== *)

Lemma length_append (a b : string) :
  String.length (a ++ b) = (String.length a + String.length b)%nat.
Proof. induction a as [|c a IH]; simpl; [reflexivity | now rewrite IH]. Qed.

Lemma append_assoc (a b c : string) : (a ++ b) ++ c = a ++ b ++ c.
Proof. induction a as [|x a IH]; simpl; [reflexivity | now rewrite IH]. Qed.

Lemma append_nil_r (a : string) : a ++ "" = a.
Proof. induction a as [|x a IH]; simpl; [reflexivity | now rewrite IH]. Qed.

Lemma all_digits_append (a b : string) :
  all_digits (a ++ b) = all_digits a && all_digits b.
Proof.
  induction a as [|c a IH]; simpl; [reflexivity|].
  rewrite IH. now rewrite andb_assoc.
Qed.

Lemma all_digits_uint (d : Decimal.uint) :
  all_digits (NilEmpty.string_of_uint d) = true.
Proof. induction d; simpl; auto. Qed.

Lemma all_digits_str_int (n : Z) : 0 <= n -> all_digits (str_int n) = true.
Proof.
  intros Hn. unfold str_int. destruct n as [|p|p]; [reflexivity| |lia].
  simpl. destruct (Pos.to_uint p); simpl; try reflexivity;
    apply all_digits_uint.
Qed.

Lemma all_digits_zeros (k : nat) : all_digits (zeros k) = true.
Proof. induction k; simpl; auto. Qed.

Lemma length_zeros (k : nat) : String.length (zeros k) = k.
Proof. induction k; simpl; auto. Qed.

Lemma fmt_0d_nonneg (w : nat) (n : Z) :
  0 <= n -> fmt_0d w n = zfill w (str_int n).
Proof.
  intros Hn. unfold fmt_0d. destruct (n <? 0)%Z eqn:E; [lia | reflexivity].
Qed.

Lemma all_digits_fmt_0d (w : nat) (n : Z) :
  0 <= n -> all_digits (fmt_0d w n) = true.
Proof.
  intros Hn. rewrite fmt_0d_nonneg by exact Hn. unfold zfill.
  rewrite all_digits_append, all_digits_zeros, all_digits_str_int; auto.
Qed.

Lemma length_fmt_0d_min (w : nat) (n : Z) :
  0 <= n -> (w <= String.length (fmt_0d w n))%nat.
Proof.
  intros Hn. rewrite fmt_0d_nonneg by exact Hn. unfold zfill.
  rewrite length_append, length_zeros. lia.
Qed.

(** A property checked on every integer of [0 .. k-1] holds on each. *)
Lemma below_forallb (P : Z -> bool) (k : nat) :
  forallb (fun i => P (Z.of_nat i)) (seq 0 k) = true ->
  forall n, 0 <= n < Z.of_nat k -> P n = true.
Proof.
  intros H n Hn. rewrite forallb_forall in H.
  specialize (H (Z.to_nat n)). rewrite Z2Nat.id in H by lia.
  apply H. apply in_seq. lia.
Qed.

Lemma length_fmt_0d_2 (n : Z) :
  0 <= n < 100 -> String.length (fmt_0d 2 n) = 2%nat.
Proof.
  intros Hn.
  apply Nat.eqb_eq.
  apply (below_forallb (fun n => (String.length (fmt_0d 2 n) =? 2)%nat) 100);
    [vm_compute; reflexivity | lia].
Qed.

Lemma length_fmt_0d_3 (n : Z) :
  0 <= n < 1000 -> String.length (fmt_0d 3 n) = 3%nat.
Proof.
  intros Hn.
  apply Nat.eqb_eq.
  apply (below_forallb (fun n => (String.length (fmt_0d 3 n) =? 3)%nat) 1000);
    [vm_compute; reflexivity | lia].
Qed.

(* ===================================================================== *)
(** * transcribe.py: the formatter *)
(* ===================================================================== *)

(** The fields of [hhmmss_ms] have the shape [HH:MM:SS<sep>mmm]; the hours
    are the full quotient by 3600000, whatever its size. *)
Lemma hhmmss_ms_shape (t : Z) (sep : string) :
  0 <= t -> hhmmss_shape sep (Cli.hhmmss_ms t sep).
Proof.
  intros Ht. unfold Cli.hhmmss_ms.
  assert (H1 : 0 <= t / 3600000) by (apply Z.div_pos; lia).
  assert (H2 : 0 <= t mod 3600000 < 3600000) by (apply Z.mod_pos_bound; lia).
  assert (H3 : 0 <= t mod 3600000 / 60000 < 60).
  { split; [apply Z.div_pos; lia | apply Z.div_lt_upper_bound; lia]. }
  assert (H4 : 0 <= (t mod 3600000) mod 60000 < 60000)
    by (apply Z.mod_pos_bound; lia).
  assert (H5 : 0 <= (t mod 3600000) mod 60000 / 1000 < 60).
  { split; [apply Z.div_pos; lia | apply Z.div_lt_upper_bound; lia]. }
  assert (H6 : 0 <= ((t mod 3600000) mod 60000) mod 1000 < 1000)
    by (apply Z.mod_pos_bound; lia).
  exists (fmt_0d 2 (t / 3600000)), (fmt_0d 2 (t mod 3600000 / 60000)),
    (fmt_0d 2 ((t mod 3600000) mod 60000 / 1000)),
    (fmt_0d 3 (((t mod 3600000) mod 60000) mod 1000)).
  repeat split.
  - apply all_digits_fmt_0d; lia.
  - apply length_fmt_0d_min; lia.
  - apply all_digits_fmt_0d; lia.
  - apply length_fmt_0d_2; lia.
  - apply all_digits_fmt_0d; lia.
  - apply length_fmt_0d_2; lia.
  - apply all_digits_fmt_0d; lia.
  - apply length_fmt_0d_3; lia.
Qed.

(** ** Floats: what a product and [round] can be *)

(** A rounded result carries the sign it was given, or is a NaN. *)
Lemma binary_round_aux_sign (sx : bool) (mx ex : Z) (lx : location) :
  let r := binary_round_aux prec emax sx mx ex lx in
  r = S754_zero sx \/ (exists m e, r = S754_finite sx m e)
  \/ r = S754_infinity sx \/ r = S754_nan.
Proof.
  unfold binary_round_aux.
  destruct (shr_fexp prec emax mx ex lx) as [mrs' e'].
  destruct (shr_fexp prec emax _ e' loc_Exact) as [mrs'' e''].
  destruct (shr_m mrs'') as [|m|m]; [now left | | now right; right; right].
  destruct (e'' <=? emax - prec)%Z; [right; left; eauto | now right; right; left].
Qed.

Lemma float_of_Z_1000 : float_of_Z 1000 = S754_finite false 8796093022208000 (-43).
Proof. vm_compute. reflexivity. Qed.

Lemma float_of_Z_0 : float_of_Z 0 = S754_zero false.
Proof. reflexivity. Qed.

(** A finite product with [1000.0] is a zero or a finite float of the sign
    of the first factor. *)
Lemma fmul_1000_finite (x : float) :
  is_finite (fmul x (float_of_Z 1000)) = true ->
  exists s, (x = S754_zero s \/ exists m e, x = S754_finite s m e)
    /\ (fmul x (float_of_Z 1000) = S754_zero s
        \/ exists m e, fmul x (float_of_Z 1000) = S754_finite s m e).
Proof.
  rewrite float_of_Z_1000. unfold fmul.
  destruct x as [s|s| |s m e]; try discriminate.
  - intros _. exists s. cbn [SFmul]. rewrite xorb_false_r. auto.
  - cbn [SFmul]. rewrite xorb_false_r. intros H. exists s.
    split; [right; eauto|].
    pose proof (binary_round_aux_sign s
                  (Z.pos (m * 8796093022208000)) (e + -43) loc_Exact) as C.
    cbv zeta in C.
    destruct C as [C|[(m' & e' & C)|[C|C]]]; rewrite C in H |- *;
      try discriminate; eauto.
Qed.

Lemma pow_pos_2_gt0 (p : positive) : 0 < Z.pow_pos 2 p.
Proof. rewrite Z.pow_pos_fold. apply Z.pow_pos_nonneg; lia. Qed.

Lemma round_half_even_nonneg (m : positive) (e : Z) : 0 <= round_half_even m e.
Proof.
  unfold round_half_even. destruct e as [|p|p].
  - lia.
  - apply Z.mul_nonneg_nonneg; [lia | apply Z.pow_nonneg; lia].
  - assert (Hd : 0 < Z.pow_pos 2 p) by apply pow_pos_2_gt0.
    assert (Hq : 0 <= Z.pos m / Z.pow_pos 2 p) by (apply Z.div_pos; lia).
    destruct (2 * (Z.pos m mod Z.pow_pos 2 p) ?= Z.pow_pos 2 p)%Z; try lia.
    destruct (Z.even _); lia.
Qed.

(** [round_half_even] returns an integer nearest to [m / 2^p], and the even
    one when [m / 2^p] lies halfway between two integers. *)
Lemma round_half_even_nearest (m p : positive) :
  let n := round_half_even m (Z.neg p) in
  let d := Z.pow_pos 2 p in
  Z.abs (2 * (Z.pos m - n * d)) <= d
  /\ (Z.abs (2 * (Z.pos m - n * d)) = d -> Z.even n = true).
Proof.
  unfold round_half_even.
  set (d := Z.pow_pos 2 p).
  assert (Hd : 0 < d) by apply pow_pos_2_gt0.
  pose proof (Z.div_mod (Z.pos m) d ltac:(lia)) as Hdm.
  pose proof (Z.mod_pos_bound (Z.pos m) d Hd) as Hr.
  set (q := Z.pos m / d) in *. set (r := Z.pos m mod d) in *.
  destruct (2 * r ?= d)%Z eqn:C; cbv zeta.
  - apply Z.compare_eq in C.
    destruct (Z.even q) eqn:Ev.
    + split; [nia | intros _; exact Ev].
    + split; [nia|]. intros _.
      replace (q + 1) with (Z.succ q) by lia.
      rewrite Z.even_succ, <- Z.negb_even, Ev. reflexivity.
  - rewrite Z.compare_lt_iff in C. split; nia.
  - rewrite Z.compare_gt_iff in C. split; nia.
Qed.

(** ** No overflow on the timestamps of a recording *)

Lemma digits2_pos_size (p : positive) : digits2_pos p = Pos.size p.
Proof. induction p; simpl; congruence. Qed.

Lemma Zdigits2_log2 (n : Z) : 0 < n -> Zdigits2 n = Z.log2 n + 1.
Proof.
  destruct n as [|p|p]; try lia. intros _. simpl.
  rewrite digits2_pos_size. destruct p; simpl; lia.
Qed.

Lemma Zdigits2_nonneg (n : Z) : 0 <= Zdigits2 n.
Proof. destruct n; simpl; lia. Qed.

Lemma Zdigits2_le (a b : Z) : 0 <= a <= b -> Zdigits2 a <= Zdigits2 b.
Proof.
  intros [Ha Hab]. destruct (Z.eq_dec a 0) as [->|].
  - apply Zdigits2_nonneg.
  - rewrite !Zdigits2_log2 by lia. pose proof (Z.log2_le_mono a b Hab). lia.
Qed.

Lemma Zdigits2_succ (a : Z) : 0 <= a -> Zdigits2 (a + 1) <= Zdigits2 a + 1.
Proof.
  intros Ha. destruct (Z.eq_dec a 0) as [->|]; [simpl; lia|].
  rewrite !Zdigits2_log2 by lia.
  pose proof (Z.log2_succ_le a). unfold Z.succ in *. lia.
Qed.

Lemma Zdigits2_mul (a b : positive) :
  Zdigits2 (Z.pos (a * b)) <= Zdigits2 (Z.pos a) + Zdigits2 (Z.pos b).
Proof.
  rewrite !Zdigits2_log2 by lia. rewrite Pos2Z.inj_mul.
  pose proof (Z.log2_mul_above (Z.pos a) (Z.pos b) ltac:(lia) ltac:(lia)). lia.
Qed.

Lemma shr_1_bounds (mrs : shr_record) :
  0 <= shr_m mrs -> 0 <= shr_m (shr_1 mrs) <= shr_m mrs.
Proof.
  destruct mrs as [m r s]. simpl. destruct m as [|p|p]; simpl; try lia.
  destruct p; simpl; lia.
Qed.

Lemma iter_shr_1_bounds (n : positive) (mrs : shr_record) :
  0 <= shr_m mrs -> 0 <= shr_m (SpecFloat.iter_pos shr_1 n mrs) <= shr_m mrs.
Proof.
  revert mrs. induction n as [n IH|n IH|]; intros mrs H; simpl.
  - pose proof (shr_1_bounds mrs H).
    pose proof (IH (shr_1 mrs) ltac:(lia)).
    pose proof (IH (SpecFloat.iter_pos shr_1 n (shr_1 mrs)) ltac:(lia)). lia.
  - pose proof (IH mrs H).
    pose proof (IH (SpecFloat.iter_pos shr_1 n mrs) ltac:(lia)). lia.
  - apply shr_1_bounds, H.
Qed.

Lemma shr_m_of_loc (m : Z) (l : location) : shr_m (shr_record_of_loc m l) = m.
Proof. destruct l as [|[]]; reflexivity. Qed.

Lemma shr_fexp_bounds (m e : Z) (l : location) :
  0 <= m ->
  0 <= shr_m (fst (shr_fexp prec emax m e l)) <= m
  /\ snd (shr_fexp prec emax m e l)
     <= Z.max e (Z.max (Zdigits2 m + e - prec) (3 - emax - prec)).
Proof.
  intros Hm. unfold shr_fexp, shr, fexp, SpecFloat.emin.
  set (n := Z.max (Zdigits2 m + e - prec) (3 - emax - prec) - e).
  destruct n as [|p|p] eqn:E; simpl; rewrite ?shr_m_of_loc.
  - split; lia.
  - split.
    + pose proof (iter_shr_1_bounds p (shr_record_of_loc m l)) as H.
      rewrite shr_m_of_loc in H. apply H, Hm.
    + lia.
  - split; lia.
Qed.

Lemma round_nearest_even_bounds (m : Z) (l : location) :
  0 <= m -> 0 <= round_nearest_even m l <= m + 1.
Proof.
  intros H. unfold round_nearest_even. destruct l as [|[]]; try lia.
  destruct (Z.even m); lia.
Qed.

(** Rounding a mantissa of at most 106 bits at an exponent of at most 857
    does not overflow. *)
Lemma binary_round_aux_finite (sx : bool) (mx ex : Z) (lx : location) :
  0 <= mx -> Zdigits2 mx <= 106 -> ex <= 857 ->
  is_finite (binary_round_aux prec emax sx mx ex lx) = true.
Proof.
  intros Hm HD Hb. unfold binary_round_aux.
  pose proof (shr_fexp_bounds mx ex lx Hm) as [B1 E1].
  destruct (shr_fexp prec emax mx ex lx) as [mrs' e']. simpl in B1, E1.
  pose proof (round_nearest_even_bounds (shr_m mrs') (loc_of_shr_record mrs')
                ltac:(lia)) as R.
  set (m1 := round_nearest_even (shr_m mrs') (loc_of_shr_record mrs')) in *.
  pose proof (shr_fexp_bounds m1 e' loc_Exact ltac:(lia)) as [B2 E2].
  destruct (shr_fexp prec emax m1 e' loc_Exact) as [mrs'' e'']. simpl in B2, E2.
  destruct (shr_m mrs'') as [|p|p] eqn:Em; try reflexivity; try lia.
  assert (Hd1 : Zdigits2 m1 <= 107).
  { pose proof (Zdigits2_le m1 (mx + 1) ltac:(lia)).
    pose proof (Zdigits2_succ mx Hm). lia. }
  unfold prec, emax in *.
  assert (e'' <= 1024 - 53) by lia.
  destruct (e'' <=? 1024 - 53)%Z eqn:L; [reflexivity | lia].
Qed.

(** Every binary64 float of magnitude below [2^953] has a finite product
    with [1000.0]: a mantissa of at most 53 bits and an exponent of at most
    900. *)
Lemma fmul_1000_no_overflow (s : bool) (m : positive) (e : Z) :
  Z.pos (digits2_pos m) <= 53 -> e <= 900 ->
  is_finite (fmul (S754_finite s m e) (float_of_Z 1000)) = true.
Proof.
  intros Hm He. rewrite float_of_Z_1000. unfold fmul. cbn [SFmul].
  apply binary_round_aux_finite; try lia.
  pose proof (Zdigits2_mul m 8796093022208000) as H.
  change (Zdigits2 (Z.pos 8796093022208000)) with 53 in H.
  change (Zdigits2 (Z.pos m)) with (Z.pos (digits2_pos m)) in H. lia.
Qed.

(** [total_ms] returns exactly when the product is finite, and then a
    count that is not negative. *)
Lemma cli_total_ms_ok (s : float) :
  is_finite (fmul s (float_of_Z 1000)) = true ->
  exists t, 0 <= t /\ Cli.total_ms s = Ok t.
Proof.
  intros H. unfold Cli.total_ms.
  destruct (fmul s (float_of_Z 1000)) as [b|b| |b m e]; try discriminate; simpl.
  - exists 0. split; [lia | reflexivity].
  - destruct (cond_Zopp b (round_half_even m e) <? 0)%Z eqn:E.
    + exists 0. split; [lia | reflexivity].
    + eexists. split; [|reflexivity]. lia.
Qed.

Lemma cli_format_returns_iff (s : float) (sep : string) :
  is_ok (Cli._format_hhmmss_ms s sep) = is_finite (fmul s (float_of_Z 1000)).
Proof.
  unfold Cli._format_hhmmss_ms, Cli.total_ms.
  destruct (fmul s (float_of_Z 1000)); reflexivity.
Qed.

(** The count is the product rounded to the nearest integer, ties to even;
    the separator plays no part in it. *)
Lemma cli_total_ms_rounds (s : float) (m : positive) (e : Z) :
  fmul s (float_of_Z 1000) = S754_finite false m e ->
  Cli.total_ms s = Ok (round_half_even m e).
Proof.
  intros H. unfold Cli.total_ms. rewrite H. simpl.
  pose proof (round_half_even_nonneg m e).
  destruct (round_half_even m e <? 0)%Z eqn:E; [lia | reflexivity].
Qed.

(** Shape of the output of the command-line formatter, for every input on
    which it returns. *)
Lemma cli_format_shape (s : float) (sep : string) :
  is_finite (fmul s (float_of_Z 1000)) = true ->
  exists t, 0 <= t
    /\ Cli._format_hhmmss_ms s sep = Ok (Cli.hhmmss_ms t sep)
    /\ hhmmss_shape sep (Cli.hhmmss_ms t sep).
Proof.
  intros H. destruct (cli_total_ms_ok s H) as (t & Ht & E).
  exists t. split; [exact Ht|]. split.
  - unfold Cli._format_hhmmss_ms. rewrite E. reflexivity.
  - apply hhmmss_ms_shape. exact Ht.
Qed.

(** The command-line formatter returns, with that shape, on every finite
    float of magnitude below [2^953], and on the zeros. *)
Lemma cli_format_total (x : float) (sep : string) :
  match x with
  | S754_zero _ => True
  | S754_finite _ m e => Z.pos (digits2_pos m) <= 53 /\ e <= 900
  | _ => False
  end ->
  exists out : string,
    Cli._format_hhmmss_ms x sep = Ok out /\ hhmmss_shape sep out.
Proof.
  intros H.
  assert (F : is_finite (fmul x (float_of_Z 1000)) = true).
  { destruct x as [b|b| |b m e]; try contradiction.
    - rewrite float_of_Z_1000. reflexivity.
    - now apply fmul_1000_no_overflow. }
  destruct (cli_format_shape x sep F) as (t & _ & E & S). eauto.
Qed.

Lemma cli_format_zero (sep : string) :
  Cli._format_hhmmss_ms (float_of_Z 0) sep = Ok ("00:00:00" ++ sep ++ "000").
Proof. reflexivity. Qed.

(** Hours are not reduced modulo 24 and grow past two digits. *)
Lemma cli_format_hours_unbounded :
  Cli.srt_ts (float_of_Z 90000) = Ok "25:00:00,000"
  /\ Cli.vtt_ts (float_of_Z 360000) = Ok "100:00:00.000".
Proof. split; vm_compute; reflexivity. Qed.

(** A negative input with a finite product is clamped to zero. *)
Lemma cli_format_negative (s : float) (sep : string) :
  flt0 s = true ->
  is_finite (fmul s (float_of_Z 1000)) = true ->
  Cli._format_hhmmss_ms s sep = Cli._format_hhmmss_ms (float_of_Z 0) sep.
Proof.
  intros Hneg Hfin.
  destruct (fmul_1000_finite s Hfin) as (b & Hs & Hp).
  assert (b = true) as ->.
  { destruct Hs as [->|(m & e & ->)]; destruct b; try reflexivity;
      vm_compute in Hneg; discriminate. }
  rewrite cli_format_zero.
  unfold Cli._format_hhmmss_ms, Cli.total_ms.
  destruct Hp as [->|(m & e & ->)]; simpl; [reflexivity|].
  pose proof (round_half_even_nonneg m e).
  destruct (- round_half_even m e <? 0)%Z eqn:E; [reflexivity|].
  replace (- round_half_even m e) with 0 by lia. reflexivity.
Qed.

(** The overflow of the product is an error of the command-line formatter. *)
Lemma cli_format_infinite :
  Cli.srt_ts (S754_infinity false) = Raise OverflowError
  /\ Cli.srt_ts (S754_infinity true) = Raise OverflowError
  /\ Cli.srt_ts S754_nan = Raise ValueError.
Proof. repeat split. Qed.

(* ===================================================================== *)
(** * Strings: positions, prefixes and the one separator *)
(* ===================================================================== *)

Lemma no_dot_append (a b : string) : no_dot (a ++ b) = no_dot a && no_dot b.
Proof.
  induction a as [|c a IH]; simpl; [reflexivity|].
  rewrite IH. now rewrite andb_assoc.
Qed.

Lemma is_digit_not_dot (c : ascii) :
  is_digit c = true -> Ascii.eqb c "." = false.
Proof.
  intros H. destruct (Ascii.eqb c ".") eqn:E; [|reflexivity].
  apply Ascii.eqb_eq in E. subst c. discriminate H.
Qed.

Lemma all_digits_no_dot (s : string) : all_digits s = true -> no_dot s = true.
Proof.
  induction s as [|c s IH]; simpl; [reflexivity|].
  intros H. apply andb_prop in H as [H1 H2].
  rewrite (is_digit_not_dot c H1), IH; auto.
Qed.

Lemma no_dot_str_int (n : Z) : no_dot (str_int n) = true.
Proof.
  destruct n as [|p|p].
  - reflexivity.
  - apply all_digits_no_dot, all_digits_str_int. lia.
  - unfold str_int. cbn [Z.to_int NilZero.string_of_int no_dot].
    change (NilZero.string_of_uint (Pos.to_uint p)) with (str_int (Z.pos p)).
    rewrite (all_digits_no_dot _ (all_digits_str_int (Z.pos p) ltac:(lia))).
    reflexivity.
Qed.

Lemma no_dot_zfill (w : nat) (s : string) :
  no_dot s = true -> no_dot (zfill w s) = true.
Proof.
  intros H. unfold zfill. rewrite no_dot_append, H.
  rewrite (all_digits_no_dot _ (all_digits_zeros _)). reflexivity.
Qed.

Lemma no_dot_fmt_0d (w : nat) (n : Z) : no_dot (fmt_0d w n) = true.
Proof.
  unfold fmt_0d. destruct (n <? 0)%Z.
  - change ("-" ++ zfill (w - 1) (str_int (- n)))
      with (String "-" (zfill (w - 1) (str_int (- n)))).
    cbn [no_dot]. rewrite no_dot_zfill by apply no_dot_str_int. reflexivity.
  - apply no_dot_zfill, no_dot_str_int.
Qed.

Lemma no_dot_get (s : string) (i : nat) :
  no_dot s = true -> get i s <> Some "."%char.
Proof.
  revert i. induction s as [|c s IH]; intros i H; simpl in *.
  - destruct i; discriminate.
  - apply andb_prop in H as [H1 H2]. destruct i.
    + intros [= ->]. discriminate H1.
    + apply IH. exact H2.
Qed.

(** In [pre ++ "." ++ rest] without another period, the period sits at
    position [length pre]. *)
Lemma dot_position (pre rest : string) (i : nat) :
  no_dot pre = true -> no_dot rest = true ->
  get i (pre ++ String "." rest) = Some "."%char -> i = String.length pre.
Proof.
  revert i. induction pre as [|c pre IH]; intros i Hp Hr; simpl in *.
  - destruct i; [reflexivity|]. intros H. now apply no_dot_get in H.
  - apply andb_prop in Hp as [H1 H2]. destruct i.
    + intros [= ->]. discriminate H1.
    + intros H. f_equal. apply IH; assumption.
Qed.

Lemma substring_0_get (n : nat) (s : string) (i : nat) (c : ascii) :
  get i (substring 0 n s) = Some c -> get i s = Some c.
Proof.
  revert n i. induction s as [|x s IH]; intros n i; simpl.
  - destruct n; simpl; destruct i; discriminate.
  - destruct n; simpl; [destruct i; discriminate|].
    destruct i; [trivial | apply IH].
Qed.

Lemma length_replace (a b : ascii) (s : string) :
  String.length (replace a b s) = String.length s.
Proof. induction s as [|c s IH]; simpl; [reflexivity | now rewrite IH]. Qed.

Lemma get_replace (a b : ascii) (s : string) (i : nat) :
  get i (replace a b s)
  = match get i s with
    | Some c => Some (if Ascii.eqb c a then b else c)
    | None => None
    end.
Proof.
  revert i. induction s as [|c s IH]; intros i; simpl.
  - destruct i; reflexivity.
  - destruct i; [reflexivity | apply IH].
Qed.

(** Replacing the periods of a string that has at most one. *)
Lemma replace_same_but_separator (x : string) :
  (forall i j, get i x = Some "."%char -> get j x = Some "."%char -> i = j) ->
  same_but_separator (replace "." "," x) x.
Proof.
  intros Huniq. split; [apply length_replace|].
  assert (D : forall i, get i (replace "." "," x) <> get i x ->
                get i x = Some "."%char /\ get i (replace "." "," x) = Some ","%char).
  { intros i. rewrite get_replace. destruct (get i x) as [c|]; [|congruence].
    destruct (Ascii.eqb c ".") eqn:E; [|congruence].
    apply Ascii.eqb_eq in E. subst c. auto. }
  intros i Hi. destruct (D i Hi) as [Hx Hr]. repeat split; auto.
  intros j Hj. destruct (D j Hj) as [Hxj _]. eapply Huniq; eauto.
Qed.

(** Two strings built around different one-character separators. *)
Lemma sep_position (pre ms : string) (c1 c2 : ascii) (i : nat) :
  get i (pre ++ String c1 ms) <> get i (pre ++ String c2 ms) ->
  i = String.length pre.
Proof.
  revert i. induction pre as [|c pre IH]; intros i; simpl.
  - destruct i; [reflexivity | congruence].
  - destruct i; [congruence|]. intros H. f_equal. now apply IH.
Qed.

Lemma get_at_sep (pre ms : string) (c : ascii) :
  get (String.length pre) (pre ++ String c ms) = Some c.
Proof. induction pre as [|x pre IH]; simpl; [reflexivity | exact IH]. Qed.

Lemma around_separator (pre ms : string) :
  same_but_separator (pre ++ "," ++ ms) (pre ++ "." ++ ms).
Proof.
  split; [now rewrite !length_append|].
  intros i Hi. change ("," ++ ms) with (String "," ms) in *.
  change ("." ++ ms) with (String "." ms) in *.
  pose proof (sep_position _ _ _ _ _ Hi) as ->.
  rewrite !get_at_sep. repeat split.
  intros j Hj. now apply sep_position in Hj.
Qed.

(* ===================================================================== *)
(** * gui_transcribe.py: the formatter *)
(* ===================================================================== *)

(** The comma style is the period style with its periods replaced; both
    raise on the same inputs. *)
Lemma gui_srt_ts_replace (s : float) :
  Gui.srt_ts s = bind (Gui.vtt_ts s) (fun b => Ok (replace "." "," b)).
Proof. unfold Gui.srt_ts, Gui.vtt_ts. destruct (Gui.timedelta s); reflexivity. Qed.

(** [str(td)] is a text without period, followed by the period and the
    microseconds when these are not zero. *)
Lemma str_td_dot (td : Gui.timedelta_t) :
  exists pre : string, no_dot pre = true
    /\ (Gui.str_td td = pre
        \/ Gui.str_td td = pre ++ String "." (fmt_0d 6 (Gui.td_microseconds td))).
Proof.
  unfold Gui.str_td.
  set (hms := str_int (Gui.td_seconds td / 60 / 60) ++ ":"
              ++ fmt_0d 2 ((Gui.td_seconds td / 60) mod 60) ++ ":"
              ++ fmt_0d 2 (Gui.td_seconds td mod 60)).
  assert (Hh : no_dot hms = true).
  { unfold hms. rewrite !no_dot_append, no_dot_str_int, !no_dot_fmt_0d.
    reflexivity. }
  set (pre := if (Gui.td_days td =? 0)%Z then hms else _).
  assert (Hp : no_dot pre = true).
  { unfold pre. destruct (Gui.td_days td =? 0)%Z; [exact Hh|].
    rewrite !no_dot_append, no_dot_str_int, Hh.
    destruct (Z.abs (Gui.td_days td) =? 1)%Z; reflexivity. }
  exists pre. split; [exact Hp|].
  destruct (Gui.td_microseconds td =? 0)%Z; [left | right]; reflexivity.
Qed.

Lemma str_td_one_dot (td : Gui.timedelta_t) (i j : nat) :
  get i (drop_last3 (Gui.str_td td)) = Some "."%char ->
  get j (drop_last3 (Gui.str_td td)) = Some "."%char -> i = j.
Proof.
  unfold drop_last3. intros Hi Hj.
  apply substring_0_get in Hi. apply substring_0_get in Hj.
  destruct (str_td_dot td) as (pre & Hp & [E|E]); rewrite E in Hi, Hj.
  - now apply no_dot_get in Hi.
  - pose proof (no_dot_fmt_0d 6 (Gui.td_microseconds td)) as Hd.
    rewrite (dot_position _ _ _ Hp Hd Hi), (dot_position _ _ _ Hp Hd Hj).
    reflexivity.
Qed.

Lemma hhmmss_shape_length (sep out : string) :
  hhmmss_shape sep out -> (11 + String.length sep <= String.length out)%nat.
Proof.
  intros (hh & mm & ss & ms & -> & _ & Hh & _ & Hm & _ & Hs & _ & Hms).
  rewrite !length_append. simpl. lia.
Qed.

(** The two styles of the command-line formatter: where the time scaled
    to milliseconds is finite, the two outputs are the same hours, minutes
    and seconds and the same three digits of milliseconds around the comma
    in one and the period in the other, the fourth character from the end;
    elsewhere both raise the same exception. *)
Lemma cli_formats_differ_only_in_separator (s : float) :
  (is_finite (fmul s (float_of_Z 1000)) = true ->
     exists pre ms : string,
       Cli.srt_ts s = Ok (pre ++ "," ++ ms)
       /\ Cli.vtt_ts s = Ok (pre ++ "." ++ ms)
       /\ String.length ms = 3%nat /\ all_digits ms = true
       /\ hhmmss_shape "," (pre ++ "," ++ ms)
       /\ hhmmss_shape "." (pre ++ "." ++ ms)
       /\ differ_at_separator (pre ++ "," ++ ms) (pre ++ "." ++ ms)
       /\ get (String.length (pre ++ "," ++ ms) - 4) (pre ++ "," ++ ms)
          = Some ","%char
       /\ get (String.length (pre ++ "." ++ ms) - 4) (pre ++ "." ++ ms)
          = Some "."%char)
  /\ (is_finite (fmul s (float_of_Z 1000)) = false ->
        exists e : exn, Cli.srt_ts s = Raise e /\ Cli.vtt_ts s = Raise e).
Proof.
  split.
  - intros H. destruct (cli_total_ms_ok s H) as (t & Ht & E).
    pose proof (hhmmss_ms_shape t "," Ht) as Sc.
    pose proof (hhmmss_ms_shape t "." Ht) as Sp.
    unfold Cli.srt_ts, Cli.vtt_ts, Cli._format_hhmmss_ms. rewrite E. simpl.
    unfold Cli.hhmmss_ms in *. cbv zeta in Sc, Sp.
    set (ms := fmt_0d 3 (((t mod 3600000) mod 60000) mod 1000)) in *.
    set (pre := fmt_0d 2 (t / 3600000) ++ ":"
                ++ fmt_0d 2 (t mod 3600000 / 60000) ++ ":"
                ++ fmt_0d 2 ((t mod 3600000) mod 60000 / 1000)).
    assert (Hms : String.length ms = 3%nat).
    { apply length_fmt_0d_3. apply Z.mod_pos_bound. lia. }
    assert (Hdg : all_digits ms = true).
    { apply all_digits_fmt_0d. apply Z.mod_pos_bound. lia. }
    assert (Ec : forall sep : string,
              fmt_0d 2 (t / 3600000) ++ ":"
              ++ fmt_0d 2 (t mod 3600000 / 60000) ++ ":"
              ++ fmt_0d 2 ((t mod 3600000) mod 60000 / 1000) ++ sep ++ ms
              = pre ++ sep ++ ms).
    { intros sep. unfold pre. now rewrite !append_assoc. }
    rewrite (Ec ",") in *. rewrite (Ec ".") in *.
    exists pre, ms.
    split; [reflexivity|]. split; [reflexivity|].
    split; [exact Hms|]. split; [exact Hdg|].
    split; [exact Sc|]. split; [exact Sp|].
    assert (Hpos : (String.length (pre ++ "," ++ ms) - 4
                    = String.length pre)%nat
                   /\ (String.length (pre ++ "." ++ ms) - 4
                       = String.length pre)%nat).
    { rewrite !length_append, Hms. simpl String.length. lia. }
    change (pre ++ "," ++ ms) with (pre ++ String "," ms) in Hpos.
    change (pre ++ "." ++ ms) with (pre ++ String "." ms) in Hpos.
    destruct Hpos as [-> ->].
    split; [|split; apply get_at_sep].
    split; [rewrite !length_append; reflexivity|].
    exists (String.length pre).
    split; [apply get_at_sep|]. split; [apply get_at_sep|].
    intros j Hj.
    destruct (decide (get j (pre ++ "," ++ ms) = get j (pre ++ "." ++ ms)))
      as [Heq|Hneq]; [exact Heq|].
    exfalso. apply Hj. exact (sep_position pre ms _ _ j Hneq).
  - intros H. rewrite <- (cli_format_returns_iff s ",") in H.
    unfold Cli.srt_ts, Cli.vtt_ts, Cli._format_hhmmss_ms in *.
    destruct (Cli.total_ms s) as [t|e]; [discriminate|].
    exists e. now split.
Qed.

Lemma no_dot_substring (n : nat) (s : string) :
  no_dot s = true -> no_dot (substring 0 n s) = true.
Proof.
  revert n. induction s as [|c r IH]; intros [|n] H; try reflexivity.
  cbn [substring no_dot] in *. apply andb_prop in H as [H1 H2].
  now rewrite H1, IH.
Qed.

Lemma replace_no_dot (s : string) :
  no_dot s = true -> replace "." "," s = s.
Proof.
  induction s as [|c r IH]; [reflexivity|]. cbn [no_dot replace].
  intros H. apply andb_prop in H as [H1 H2]. apply negb_true_iff in H1.
  now rewrite H1, IH.
Qed.

(** The text of a [timedelta] of whole seconds holds no period. *)
Lemma str_td_whole (td : Gui.timedelta_t) :
  Gui.td_microseconds td = 0 -> no_dot (Gui.str_td td) = true.
Proof.
  intros H. unfold Gui.str_td. cbv zeta. rewrite H. cbn [Z.eqb].
  destruct (Gui.td_days td =? 0)%Z;
    rewrite ?no_dot_append, ?no_dot_str_int, ?no_dot_fmt_0d;
    [reflexivity|].
  destruct (Z.abs (Gui.td_days td) =? 1)%Z; reflexivity.
Qed.

(** At every whole number of seconds the two styles of the GUI formatter
    return the same text. *)
Lemma gui_formats_coincide (s : float) (td : Gui.timedelta_t) :
  Gui.timedelta s = Ok td -> Gui.td_microseconds td = 0 ->
  Gui.srt_ts s = Gui.vtt_ts s.
Proof.
  intros E H. unfold Gui.srt_ts, Gui.vtt_ts. rewrite E. cbn [bind].
  rewrite replace_no_dot; [reflexivity|].
  unfold drop_last3. apply no_dot_substring, str_td_whole, H.
Qed.

(** C7. At zero, and at every whole number of seconds, the two styles of
    the GUI formatter return the same text, [0:00] at zero and at one
    second: it holds neither a comma nor a period, so the two outputs do
    not differ in a separator between the seconds and the milliseconds,
    which are not there. With a fraction the GUI outputs do differ in the
    separator, and the command-line formatter returns [00:00:00,000] and
    [00:00:00.000] at zero. *)
Theorem gui_formats_coincide_at_whole_seconds :
  Gui.srt_ts (float_of_Z 0) = Ok "0:00"
  /\ Gui.vtt_ts (float_of_Z 0) = Ok "0:00"
  /\ Gui.srt_ts (float_of_Z 1) = Ok "0:00"
  /\ Gui.vtt_ts (float_of_Z 1) = Ok "0:00"
  /\ ~ differ_at_separator "0:00" "0:00"
  /\ (forall (s : float) (td : Gui.timedelta_t),
        Gui.timedelta s = Ok td -> Gui.td_microseconds td = 0 ->
        Gui.srt_ts s = Gui.vtt_ts s
        /\ forall a b : string,
             Gui.srt_ts s = Ok a -> Gui.vtt_ts s = Ok b ->
             ~ differ_at_separator a b)
  /\ Gui.srt_ts (float_of_ratio 5 2) = Ok "0:00:02,500"
  /\ Gui.vtt_ts (float_of_ratio 5 2) = Ok "0:00:02.500"
  /\ Cli.srt_ts (float_of_Z 0) = Ok "00:00:00,000"
  /\ Cli.vtt_ts (float_of_Z 0) = Ok "00:00:00.000"
  /\ differ_at_separator "00:00:00,000" "00:00:00.000".
Proof.
  assert (Hsame : forall a : string, ~ differ_at_separator a a).
  { intros a (_ & i & Ha & Hb & _). rewrite Ha in Hb. discriminate. }
  split; [vm_compute; reflexivity|]. split; [vm_compute; reflexivity|].
  split; [vm_compute; reflexivity|]. split; [vm_compute; reflexivity|].
  split; [apply Hsame|].
  split.
  { intros s td E H. pose proof (gui_formats_coincide s td E H) as Heq.
    split; [exact Heq|]. intros a b Ha Hb. rewrite Heq, Hb in Ha.
    injection Ha as <-. apply Hsame. }
  split; [vm_compute; reflexivity|]. split; [vm_compute; reflexivity|].
  split; [vm_compute; reflexivity|]. split; [vm_compute; reflexivity|].
  destruct (proj1 (cli_formats_differ_only_in_separator (float_of_Z 0)))
    as (pre & ms & Ea & Eb & _ & _ & _ & _ & D & _);
    [vm_compute; reflexivity|].
  assert (Ea' : Cli.srt_ts (float_of_Z 0) = Ok "00:00:00,000")
    by (vm_compute; reflexivity).
  assert (Eb' : Cli.vtt_ts (float_of_Z 0) = Ok "00:00:00.000")
    by (vm_compute; reflexivity).
  rewrite Ea' in Ea. rewrite Eb' in Eb.
  injection Ea as Ea. injection Eb as Eb. rewrite Ea, Eb. exact D.
Qed.

(** C2. At zero the GUI formatter returns [0:00] in both styles, and
    [0:00:02,500] at two and a half seconds: neither has the shape
    [HH:MM:SS<sep>mmm], and the first is not [00:00:00<sep>000]. Past 24
    hours it counts days: [1 day, 1:00:00,500] at 90000.5 seconds, where
    the command-line formatter returns [25:00:00,500]. *)
Theorem gui_format_not_hhmmss :
  Gui.srt_ts (float_of_Z 0) = Ok "0:00"
  /\ Gui.vtt_ts (float_of_Z 0) = Ok "0:00"
  /\ "0:00" <> "00:00:00" ++ "," ++ "000"
  /\ "0:00" <> "00:00:00" ++ "." ++ "000"
  /\ ~ hhmmss_shape "," "0:00"
  /\ ~ hhmmss_shape "." "0:00"
  /\ Gui.srt_ts (float_of_ratio 5 2) = Ok "0:00:02,500"
  /\ ~ hhmmss_shape "," "0:00:02,500"
  /\ Gui.srt_ts (float_of_ratio 180001 2) = Ok "1 day, 1:00:00,500"
  /\ Cli.srt_ts (float_of_ratio 180001 2) = Ok "25:00:00,500".
Proof.
  repeat split; try (vm_compute; reflexivity); try discriminate;
    intros H; apply hhmmss_shape_length in H; simpl in H; lia.
Qed.

(** C4. The GUI formatter does not clamp: at minus one second it returns
    [-1 day, 23:59], at minus half a second [-1 day, 23:59:59,500], and
    neither is its output at zero. *)
Theorem gui_format_negative_not_clamped :
  flt0 (float_of_Z (-1)) = true
  /\ Gui.srt_ts (float_of_Z (-1)) = Ok "-1 day, 23:59"
  /\ Gui.vtt_ts (float_of_Z (-1)) = Ok "-1 day, 23:59"
  /\ Gui.srt_ts (float_of_ratio (-1) 2) = Ok "-1 day, 23:59:59,500"
  /\ Gui.srt_ts (float_of_Z (-1)) <> Gui.srt_ts (float_of_Z 0)
  /\ Gui.vtt_ts (float_of_Z (-1)) <> Gui.vtt_ts (float_of_Z 0)
  /\ Gui.srt_ts (float_of_ratio (-1) 2) <> Gui.srt_ts (float_of_Z 0).
Proof.
  repeat split; try (vm_compute; reflexivity); vm_compute; discriminate.
Qed.

(** C8. On 1/128 s (7.8125 ms) the command-line formatter rounds to 8 ms
    and the GUI formatter cuts to 7 ms; on 1.9999 s the first returns
    [00:00:02,000] and the second [0:00:01,999]; on 3661.2005 the GUI
    formatter returns [1:01:01,200], which is neither of the two texts the
    rule allows, while the command-line formatter returns
    [01:01:01,200]. *)
Theorem gui_format_truncates :
  Cli.srt_ts (float_of_ratio 1 128) = Ok "00:00:00,008"
  /\ Cli.vtt_ts (float_of_ratio 1 128) = Ok "00:00:00.008"
  /\ Gui.srt_ts (float_of_ratio 1 128) = Ok "0:00:00,007"
  /\ Gui.vtt_ts (float_of_ratio 1 128) = Ok "0:00:00.007"
  /\ Cli.srt_ts (float_of_ratio 19999 10000) = Ok "00:00:02,000"
  /\ Gui.srt_ts (float_of_ratio 19999 10000) = Ok "0:00:01,999"
  /\ Cli.srt_ts (float_of_ratio 36612005 10000) = Ok "01:01:01,200"
  /\ Gui.srt_ts (float_of_ratio 36612005 10000) = Ok "1:01:01,200".
Proof. repeat split; vm_compute; reflexivity. Qed.

(** The product the command-line formatter rounds on 3661.2005 is exactly
    3661200.5, and the tie goes to the even count. *)
Lemma cli_rounds_tie_to_even :
  fmul (float_of_ratio 36612005 10000) (float_of_Z 1000)
  = S754_finite false (7322401 * 2 ^ 30) (-31)
  /\ Cli.total_ms (float_of_ratio 36612005 10000) = Ok 3661200
  /\ Cli.total_ms (float_of_ratio 3 2000) = Ok 2
  /\ Cli.total_ms (float_of_ratio 5 2000) = Ok 2.
Proof. repeat split; vm_compute; reflexivity. Qed.

(* ===================================================================== *)
(** * The writers *)
(* ===================================================================== *)

(** ** Trimming *)

Lemma lstrip_spec (s : string) :
  (exists l : string, s = l ++ lstrip s /\ all_space l = true)
  /\ starts_with_space (lstrip s) = false.
Proof.
  induction s as [|c s [[l [E A]] N]]; simpl.
  - split; [exists ""; auto | reflexivity].
  - destruct (isspace c) eqn:Hc.
    + split; [|exact N]. exists (String c l). simpl. rewrite Hc, A.
      split; [now rewrite <- E | reflexivity].
    + split; [exists ""; auto | simpl; exact Hc].
Qed.

Lemma rstrip_spec (s : string) :
  (exists r : string, s = rstrip s ++ r /\ all_space r = true)
  /\ ends_with_space (rstrip s) = false.
Proof.
  induction s as [|c s [[r [E A]] N]]; simpl.
  - split; [exists ""; auto | reflexivity].
  - destruct (rstrip s) as [|d t] eqn:R.
    + simpl in E. subst s. destruct (isspace c) eqn:Hc.
      * split; [|reflexivity]. exists (String c r). simpl. now rewrite Hc, A.
      * split; [|simpl; exact Hc]. exists r. auto.
    + split.
      * exists r. split; [|exact A]. simpl. now rewrite E at 1.
      * exact N.
Qed.

Lemma rstrip_start (s : string) :
  starts_with_space s = false -> starts_with_space (rstrip s) = false.
Proof.
  destruct s as [|c s]; simpl; [reflexivity|]. intros Hc.
  destruct (rstrip s); [rewrite Hc|]; simpl; auto.
Qed.

(** [strip] removes the whitespace at both ends, and nothing else. *)
Lemma strip_trimmed (s : string) : trimmed s (strip s).
Proof.
  unfold strip, trimmed.
  destruct (lstrip_spec s) as [[l [El Al]] Nl].
  destruct (rstrip_spec (lstrip s)) as [[r [Er Ar]] Nr].
  split; [|split].
  - exists l, r. split; [|auto]. rewrite <- Er. exact El.
  - apply rstrip_start, Nl.
  - exact Nr.
Qed.

(** ** The loops of the writers *)

Lemma for_each_txt (segs : list Segment) (buf : string) :
  for_each segs (fun seg => f_write (strip (text seg) ++ nl)) buf
  = (buf ++ txt_document segs, Ok tt).
Proof.
  revert buf. induction segs as [|seg r IH]; intros buf; simpl.
  - unfold ret. now rewrite append_nil_r.
  - unfold mbind, f_write at 1. rewrite IH. now rewrite !append_assoc.
Qed.

Section WriterLoops.

Variable ts : float -> result string.

Lemma formats_values (seg : Segment) :
  formats ts seg = true ->
  ts (start seg) = Ok (value (ts (start seg)))
  /\ ts (end_ seg) = Ok (value (ts (end_ seg))).
Proof.
  unfold formats. intros H. apply andb_prop in H as [H1 H2].
  destruct (ts (start seg)), (ts (end_ seg)); try discriminate. auto.
Qed.

Lemma for_each_srt (segs : list Segment) (i : Z) (buf : string) :
  forallb (formats ts) segs = true ->
  for_each (enumerate segs i) (fun '(i, seg) =>
    a <- lift (ts (start seg)) ;;
    b <- lift (ts (end_ seg)) ;;
    f_write (str_int i ++ nl ++ a ++ " --> " ++ b ++ nl
             ++ strip (text seg) ++ nl ++ nl)) buf
  = (buf ++ srt_document ts i segs, Ok tt).
Proof.
  revert i buf. induction segs as [|seg r IH]; intros i buf H;
    cbn [for_each enumerate srt_document].
  - unfold ret. now rewrite append_nil_r.
  - simpl in H. apply andb_prop in H as [H1 H2].
    destruct (formats_values seg H1) as [Ea Eb].
    unfold mbind at 1. unfold mbind at 1. unfold lift at 1. rewrite Ea.
    unfold mbind at 1. unfold lift at 1. rewrite Eb.
    unfold f_write at 1. rewrite IH by exact H2.
    unfold srt_block, timing_line. now rewrite !append_assoc.
Qed.

Lemma for_each_vtt (segs : list Segment) (buf : string) :
  forallb (formats ts) segs = true ->
  for_each segs (fun seg =>
    a <- lift (ts (start seg)) ;;
    b <- lift (ts (end_ seg)) ;;
    f_write (a ++ " --> " ++ b ++ nl ++ strip (text seg) ++ nl ++ nl)) buf
  = (buf ++ vtt_blocks ts segs, Ok tt).
Proof.
  revert buf. induction segs as [|seg r IH]; intros buf H;
    cbn [for_each vtt_blocks].
  - unfold ret. now rewrite append_nil_r.
  - simpl in H. apply andb_prop in H as [H1 H2].
    destruct (formats_values seg H1) as [Ea Eb].
    unfold mbind at 1. unfold mbind at 1. unfold lift at 1. rewrite Ea.
    unfold mbind at 1. unfold lift at 1. rewrite Eb.
    unfold f_write at 1. rewrite IH by exact H2.
    unfold vtt_block, timing_line. now rewrite !append_assoc.
Qed.

(** An SRT block is the index line followed by the VTT block. *)
Lemma srt_block_vtt_block (i : Z) (seg : Segment) :
  srt_block ts i seg = str_int i ++ nl ++ vtt_block ts seg.
Proof. reflexivity. Qed.

End WriterLoops.

(** ** [open] and the state of the file system *)

Lemma with_open_w_ok (path : string) (body : M string unit) (w : world)
    (rest : list io_outcome) (buf : string) (r : result unit) :
  next_outcome w = (IoOk, rest) ->
  body "" = (buf, r) ->
  with_open_w path body w
  = (mkWorld (<[path := buf]> (files w)) (dirs w) rest (opens w ++ [path])%list, r).
Proof. intros Ho Hb. unfold with_open_w. rewrite Ho, Hb. reflexivity. Qed.

(** Whatever happens, [open] is logged once, directories stay, and no other
    file changes. *)
Lemma with_open_w_frame (path : string) (body : M string unit) (w w' : world)
    (r : result unit) :
  with_open_w path body w = (w', r) ->
  opens w' = (opens w ++ [path])%list
  /\ dirs w' = dirs w
  /\ forall p : string, p <> path -> files w' !! p = files w !! p.
Proof.
  unfold with_open_w. destruct (next_outcome w) as [o rest].
  destruct o; [destruct (body "") as [buf rb]| |]; intros [= <- <-]; simpl;
    repeat split; auto; intros p Hp; now rewrite ?lookup_insert_ne.
Qed.

(** A write that returns left in the file all that the body wrote. *)
Lemma with_open_w_returns (path : string) (body : M string unit) (w w' : world) :
  with_open_w path body w = (w', Ok tt) ->
  body "" = (fst (body ""), Ok tt)
  /\ files w' !! path = Some (fst (body "")).
Proof.
  unfold with_open_w. destruct (next_outcome w) as [o rest].
  destruct o; [destruct (body "") as [buf rb]| |]; intros [= <- E]; try discriminate.
  subst rb. simpl. split; [reflexivity|]. apply lookup_insert_eq.
Qed.

(** ** Lines of the documents *)

Lemma lines_aux_line (a rest cur : string) :
  one_line a = true ->
  lines_aux (a ++ nl ++ rest) cur = (cur ++ a) :: lines_aux rest "".
Proof.
  revert cur. induction a as [|c a IH]; intros cur H; simpl in *.
  - now rewrite append_nil_r.
  - apply andb_prop in H as [H1 H2].
    destruct (Ascii.eqb c (ascii_of_nat 10)); [discriminate|].
    rewrite IH by exact H2. now rewrite append_assoc.
Qed.

Lemma lines_line (a rest : string) :
  one_line a = true -> lines (a ++ nl ++ rest) = a :: lines rest.
Proof. intros H. unfold lines. now rewrite lines_aux_line. Qed.

Lemma lines_vtt_blocks (ts : float -> result string) (segs : list Segment) :
  forallb (cue_one_line ts) segs = true ->
  lines (vtt_blocks ts segs) = flat_map (vtt_cue_lines ts) segs.
Proof.
  induction segs as [|seg r IH]; intros H; simpl; [reflexivity|].
  simpl in H. apply andb_prop in H as [H1 H2].
  unfold cue_one_line in H1. apply andb_prop in H1 as [Ht Hx].
  unfold vtt_block. rewrite !append_assoc.
  rewrite lines_line by exact Ht. rewrite lines_line by exact Hx.
  change (nl ++ vtt_blocks ts r) with ("" ++ nl ++ vtt_blocks ts r).
  rewrite lines_line by reflexivity. now rewrite IH.
Qed.

Lemma lines_vtt_document (ts : float -> result string) (segs : list Segment) :
  forallb (cue_one_line ts) segs = true ->
  lines (vtt_document ts segs)
  = "WEBVTT" :: "" :: flat_map (vtt_cue_lines ts) segs.
Proof.
  intros H. unfold vtt_document.
  rewrite lines_line by reflexivity.
  change (nl ++ vtt_blocks ts segs) with ("" ++ nl ++ vtt_blocks ts segs).
  rewrite lines_line by reflexivity. now rewrite lines_vtt_blocks.
Qed.

(** ** What a successful write leaves in the file *)

Lemma write_txt_ok (path : string) (segs : list Segment) (w : world)
    (rest : list io_outcome) :
  next_outcome w = (IoOk, rest) ->
  Writers.write_txt path segs w
  = (mkWorld (<[path := txt_document segs]> (files w)) (dirs w) rest
             (opens w ++ [path])%list, Ok tt).
Proof.
  intros Ho. unfold Writers.write_txt.
  apply with_open_w_ok; [exact Ho | apply for_each_txt].
Qed.

Lemma write_srt_ok (ts : float -> result string) (path : string)
    (segs : list Segment) (w : world) (rest : list io_outcome) :
  next_outcome w = (IoOk, rest) ->
  forallb (formats ts) segs = true ->
  Writers.write_srt ts path segs w
  = (mkWorld (<[path := srt_document ts 1 segs]> (files w)) (dirs w) rest
             (opens w ++ [path])%list, Ok tt).
Proof.
  intros Ho Hf. unfold Writers.write_srt.
  apply with_open_w_ok; [exact Ho | now apply for_each_srt].
Qed.

Lemma write_vtt_ok (ts : float -> result string) (path : string)
    (segs : list Segment) (w : world) (rest : list io_outcome) :
  next_outcome w = (IoOk, rest) ->
  forallb (formats ts) segs = true ->
  Writers.write_vtt ts path segs w
  = (mkWorld (<[path := vtt_document ts segs]> (files w)) (dirs w) rest
             (opens w ++ [path])%list, Ok tt).
Proof.
  intros Ho Hf. unfold Writers.write_vtt.
  apply with_open_w_ok; [exact Ho|].
  unfold mbind at 1. unfold f_write at 1. cbv beta iota.
  rewrite for_each_vtt by exact Hf. reflexivity.
Qed.

(** A loop of the SRT or VTT writer that returns has formatted every
    timestamp. *)
Lemma for_each_srt_returns (ts : float -> result string) (segs : list Segment)
    (i : Z) (buf buf' : string) :
  for_each (enumerate segs i) (fun '(i, seg) =>
    a <- lift (ts (start seg)) ;;
    b <- lift (ts (end_ seg)) ;;
    f_write (str_int i ++ nl ++ a ++ " --> " ++ b ++ nl
             ++ strip (text seg) ++ nl ++ nl)) buf = (buf', Ok tt) ->
  forallb (formats ts) segs = true.
Proof.
  revert i buf. induction segs as [|seg r IH]; intros i buf;
    cbn [for_each enumerate forallb]; [reflexivity|].
  unfold formats at 1.
  unfold mbind at 1. unfold mbind at 1. unfold lift at 1.
  destruct (ts (start seg)) as [a|e]; [|discriminate].
  unfold mbind at 1. unfold lift at 1.
  destruct (ts (end_ seg)) as [b|e]; [|discriminate].
  unfold f_write at 1. intros H. apply IH in H. exact H.
Qed.

Lemma for_each_vtt_returns (ts : float -> result string) (segs : list Segment)
    (buf buf' : string) :
  for_each segs (fun seg =>
    a <- lift (ts (start seg)) ;;
    b <- lift (ts (end_ seg)) ;;
    f_write (a ++ " --> " ++ b ++ nl ++ strip (text seg) ++ nl ++ nl)) buf
  = (buf', Ok tt) ->
  forallb (formats ts) segs = true.
Proof.
  revert buf. induction segs as [|seg r IH]; intros buf;
    cbn [for_each forallb]; [reflexivity|].
  unfold formats at 1.
  unfold mbind at 1. unfold mbind at 1. unfold lift at 1.
  destruct (ts (start seg)) as [a|e]; [|discriminate].
  unfold mbind at 1. unfold lift at 1.
  destruct (ts (end_ seg)) as [b|e]; [|discriminate].
  unfold f_write at 1. intros H. apply IH in H. exact H.
Qed.

(** A writer that returns has left its whole document in the file. *)
Lemma write_txt_returns (path : string) (segs : list Segment) (w w' : world) :
  Writers.write_txt path segs w = (w', Ok tt) ->
  files w' !! path = Some (txt_document segs).
Proof.
  intros H. apply with_open_w_returns in H as [_ H].
  rewrite for_each_txt in H. exact H.
Qed.

Lemma write_srt_returns (ts : float -> result string) (path : string)
    (segs : list Segment) (w w' : world) :
  Writers.write_srt ts path segs w = (w', Ok tt) ->
  forallb (formats ts) segs = true
  /\ files w' !! path = Some (srt_document ts 1 segs).
Proof.
  intros H. apply with_open_w_returns in H as [Hb H].
  apply for_each_srt_returns in Hb.
  rewrite (for_each_srt ts segs 1 "" Hb) in H. auto.
Qed.

Lemma write_vtt_returns (ts : float -> result string) (path : string)
    (segs : list Segment) (w w' : world) :
  Writers.write_vtt ts path segs w = (w', Ok tt) ->
  forallb (formats ts) segs = true
  /\ files w' !! path = Some (vtt_document ts segs).
Proof.
  intros H. apply with_open_w_returns in H as [Hb H].
  unfold mbind at 1 in Hb. unfold f_write at 1 in Hb. cbv beta iota in Hb.
  apply for_each_vtt_returns in Hb.
  unfold mbind at 1 in H. unfold f_write at 1 in H. cbv beta iota in H.
  rewrite (for_each_vtt ts segs _ Hb) in H. auto.
Qed.

(** When [open] succeeds and the timestamps of the segments can be
    formatted, the VTT writer of either front-end returns and leaves in
    the file the header [WEBVTT], a blank line, and then one block per
    segment in order: timing line as the formatter of the front-end gives
    it, trimmed text, blank line. When cues hold no newline, the lines of
    such a document are the header, a blank line and three lines per
    segment; none is an index line. The trimmed text is the text without
    the whitespace at its two ends. *)
Lemma write_vtt_blocks
    (path : string) (segs : list Segment) (w : world) :
  fst (next_outcome w) = IoOk ->
  (forallb (formats Cli.vtt_ts) segs = true ->
     snd (Cli.write_vtt path segs w) = Ok tt
     /\ files (fst (Cli.write_vtt path segs w)) !! path
        = Some ("WEBVTT" ++ nl ++ nl ++ vtt_blocks Cli.vtt_ts segs))
  /\ (forallb (formats Gui.vtt_ts) segs = true ->
        snd (Gui.write_vtt path segs w) = Ok tt
        /\ files (fst (Gui.write_vtt path segs w)) !! path
           = Some ("WEBVTT" ++ nl ++ nl ++ vtt_blocks Gui.vtt_ts segs))
  /\ (forall ts : float -> result string,
        forallb (cue_one_line ts) segs = true ->
        lines ("WEBVTT" ++ nl ++ nl ++ vtt_blocks ts segs)
        = "WEBVTT" :: "" :: flat_map (vtt_cue_lines ts) segs)
  /\ (forall (ts : float -> result string) (seg : Segment),
        vtt_block ts seg
        = value (ts (start seg)) ++ " --> " ++ value (ts (end_ seg)) ++ nl
          ++ strip (text seg) ++ nl ++ nl
        /\ trimmed (text seg) (strip (text seg))).
Proof.
  intros Ho.
  destruct (next_outcome w) as [o rest] eqn:E. simpl in Ho. subst o.
  split; [|split; [|split]].
  - intros Hf. unfold Cli.write_vtt.
    rewrite (write_vtt_ok _ _ _ _ _ E Hf). simpl.
    split; [reflexivity | apply lookup_insert_eq].
  - intros Hf. unfold Gui.write_vtt.
    rewrite (write_vtt_ok _ _ _ _ _ E Hf). simpl.
    split; [reflexivity | apply lookup_insert_eq].
  - intros ts H. apply (lines_vtt_document ts segs H).
  - intros ts seg. split; [|apply strip_trimmed].
    unfold vtt_block, timing_line. now rewrite !append_assoc.
Qed.

(** The VTT file of the command-line tool for the two segments of the
    specification. *)
Lemma cli_write_vtt_example :
  snd (Cli.write_vtt "a.vtt" [seg_hello; seg_world] empty_world) = Ok tt
  /\ files (fst (Cli.write_vtt "a.vtt" [seg_hello; seg_world] empty_world))
       !! "a.vtt"
     = Some vtt_expected.
Proof. split; vm_compute; reflexivity. Qed.

(** C5. For the two segments of the specification the VTT writer of the
    GUI returns and leaves the header, the blank line and two blocks
    without index lines, but their timing lines are [0:00 --> 0:00] and
    [0:00 --> 0:00:02.500]: the first holds no period and has the same
    text for its start and its end, neither is in the period style, and
    the file is not the one the command-line writer leaves for the same
    segments. *)
Theorem gui_write_vtt_example :
  snd (Gui.write_vtt "a.vtt" [seg_hello; seg_world] empty_world) = Ok tt
  /\ files (fst (Gui.write_vtt "a.vtt" [seg_hello; seg_world] empty_world))
       !! "a.vtt"
     = Some ("WEBVTT" ++ nl ++ nl
             ++ "0:00 --> 0:00" ++ nl ++ "Hello" ++ nl ++ nl
             ++ "0:00 --> 0:00:02.500" ++ nl ++ "world" ++ nl ++ nl)
  /\ files (fst (Gui.write_vtt "a.vtt" [seg_hello; seg_world] empty_world))
       !! "a.vtt"
     <> Some vtt_expected
  /\ Gui.vtt_ts (start seg_hello) = Ok "0:00"
  /\ Gui.vtt_ts (end_ seg_hello) = Ok "0:00"
  /\ no_dot "0:00" = true
  /\ ~ hhmmss_shape "." "0:00"
  /\ Gui.vtt_ts (end_ seg_world) = Ok "0:00:02.500"
  /\ ~ hhmmss_shape "." "0:00:02.500"
  /\ files (fst (Cli.write_vtt "a.vtt" [seg_hello; seg_world] empty_world))
       !! "a.vtt"
     = Some vtt_expected.
Proof.
  assert (Hshort : forall out : string,
            (String.length out < 12)%nat -> ~ hhmmss_shape "." out).
  { intros out Hl Hs. apply hhmmss_shape_length in Hs. simpl in Hs. lia. }
  split; [vm_compute; reflexivity|].
  split; [vm_compute; reflexivity|].
  split; [vm_compute; discriminate|].
  split; [vm_compute; reflexivity|].
  split; [vm_compute; reflexivity|].
  split; [reflexivity|].
  split; [apply Hshort; simpl; lia|].
  split; [vm_compute; reflexivity|].
  split; [apply Hshort; simpl; lia|].
  vm_compute. reflexivity.
Qed.

(** The SRT writer of either front-end leaves one block per segment, in
    order and numbered from 1: index line, timing line in the comma style,
    trimmed text, blank line. *)
Lemma write_srt_blocks (path : string) (segs : list Segment) (w : world) :
  fst (next_outcome w) = IoOk ->
  (forallb (formats Cli.srt_ts) segs = true ->
     snd (Cli.write_srt path segs w) = Ok tt
     /\ files (fst (Cli.write_srt path segs w)) !! path
        = Some (srt_document Cli.srt_ts 1 segs))
  /\ (forallb (formats Gui.srt_ts) segs = true ->
        snd (Gui.write_srt path segs w) = Ok tt
        /\ files (fst (Gui.write_srt path segs w)) !! path
           = Some (srt_document Gui.srt_ts 1 segs)).
Proof.
  intros Ho.
  destruct (next_outcome w) as [o rest] eqn:E. simpl in Ho. subst o.
  split.
  - intros Hf. unfold Cli.write_srt.
    rewrite (write_srt_ok _ _ _ _ _ E Hf). simpl.
    split; [reflexivity | apply lookup_insert_eq].
  - intros Hf. unfold Gui.write_srt.
    rewrite (write_srt_ok _ _ _ _ _ E Hf). simpl.
    split; [reflexivity | apply lookup_insert_eq].
Qed.

(** The command-line tool writes exactly that text. *)
Lemma cli_write_srt_example :
  snd (Cli.write_srt "a.srt" [seg_hello; seg_world] empty_world) = Ok tt
  /\ files (fst (Cli.write_srt "a.srt" [seg_hello; seg_world] empty_world))
       !! "a.srt"
     = Some srt_expected.
Proof. split; vm_compute; reflexivity. Qed.

(** C1. For the two segments of the specification the SRT writer of the
    GUI returns and leaves timing lines [0:00 --> 0:00] and
    [0:00 --> 0:00:02,500] in the file, which is not the expected text. *)
Theorem gui_write_srt_example :
  snd (Gui.write_srt "a.srt" [seg_hello; seg_world] empty_world) = Ok tt
  /\ files (fst (Gui.write_srt "a.srt" [seg_hello; seg_world] empty_world))
       !! "a.srt"
     = Some ("1" ++ nl ++ "0:00 --> 0:00" ++ nl ++ "Hello" ++ nl ++ nl
             ++ "2" ++ nl ++ "0:00 --> 0:00:02,500" ++ nl ++ "world" ++ nl ++ nl)
  /\ files (fst (Gui.write_srt "a.srt" [seg_hello; seg_world] empty_world))
       !! "a.srt"
     <> Some srt_expected.
Proof. repeat split; try (vm_compute; reflexivity). vm_compute. discriminate. Qed.

(* ===================================================================== *)
(** * Paths: the extension of a target *)
(* ===================================================================== *)

(** Strings that end with suffixes of one length end with the same one. *)
Lemma append_suffix_inj (x y e1 e2 : string) :
  String.length e1 = String.length e2 ->
  x ++ e1 = y ++ e2 -> e1 = e2.
Proof.
  revert y. induction x as [|c x IH]; intros y Hl H.
  - destruct y as [|d y]; [exact H|].
    apply (f_equal String.length) in H. simpl in H.
    rewrite length_append in H. lia.
  - destruct y as [|d y].
    + apply (f_equal String.length) in H. simpl in H.
      rewrite length_append in H. lia.
    + simpl in H. injection H as _ H. now apply (IH y).
Qed.

Lemma split_slash_aux_free (s cur : string) :
  slash_free s = true -> split_slash_aux s cur = [cur ++ s].
Proof.
  revert cur. induction s as [|c s IH]; intros cur H; simpl in *.
  - now rewrite append_nil_r.
  - apply andb_prop in H as [H1 H2].
    destruct (Ascii.eqb c "/"); [discriminate|].
    rewrite IH by exact H2. now rewrite append_assoc.
Qed.

(** The last component of [b ++ ext] ends with [ext]. *)
Lemma split_slash_aux_suffix (b ext cur : string) :
  slash_free ext = true ->
  exists (init : list string) (l : string),
    split_slash_aux (b ++ ext) cur = (init ++ [(l ++ ext)%string])%list.
Proof.
  intros He. revert cur. induction b as [|c b IH]; intros cur; simpl.
  - exists [], cur. now rewrite split_slash_aux_free.
  - destruct (Ascii.eqb c "/").
    + destruct (IH "") as (init & l & E). exists (cur :: init), l.
      now rewrite E.
    + apply IH.
Qed.

Lemma keep_part_long (s : string) :
  (2 <= String.length s)%nat -> keep_part s = true.
Proof.
  destruct s as [|c [|d s]]; simpl; try lia. intros _.
  unfold keep_part. simpl. destruct (Ascii.eqb c "."); reflexivity.
Qed.

Lemma join_snoc (qs : list string) (n : string) :
  exists X : string, join "/" (qs ++ [n]) = X ++ n.
Proof.
  induction qs as [|q qs [X IH]]; simpl.
  - exists "". reflexivity.
  - rewrite IH. destruct (qs ++ [n])%list eqn:E.
    + now destruct qs.
    + exists (q ++ "/" ++ X). now rewrite !append_assoc.
Qed.

Lemma str_path_snoc (r : string) (qs : list string) (n : string) :
  exists X : string, str_path (mkPath r (qs ++ [n])) = X ++ n.
Proof.
  destruct (join_snoc qs n) as [X E]. unfold str_path. cbn [root parts].
  rewrite E. destruct (qs ++ [n])%list eqn:El; [now destruct qs|].
  exists (r ++ X). destruct r; now rewrite ?append_assoc.
Qed.

(** The text of [dir / (base ++ ext)] ends with [ext]. *)
Lemma str_path_joinpath_suffix (dir : path) (base ext : string) :
  slash_free ext = true -> (2 <= String.length ext)%nat ->
  exists X : string, str_path (joinpath dir (base ++ ext)) = X ++ ext.
Proof.
  intros He Hl.
  destruct (split_slash_aux_suffix base ext "" He) as (init & l & E).
  assert (P : parts (Path (base ++ ext))
              = (List.filter keep_part init ++ [(l ++ ext)%string])%list).
  { unfold Path. cbn [parts]. unfold split_slash. rewrite E.
    rewrite List.filter_app. cbn [List.filter].
    rewrite keep_part_long; [reflexivity|]. rewrite length_append. lia. }
  unfold joinpath.
  destruct (root (Path (base ++ ext))) eqn:R.
  - rewrite P, app_assoc.
    destruct (str_path_snoc (root dir)
                (parts dir ++ List.filter keep_part init)%list
                (l ++ ext)) as [X EX].
    exists (X ++ l). now rewrite EX, append_assoc.
  - destruct (Path (base ++ ext)) as [r ps] eqn:EP. cbn [root parts] in *.
    subst ps.
    destruct (str_path_snoc r (List.filter keep_part init) (l ++ ext)) as [X EX].
    exists (X ++ l). now rewrite EX, append_assoc.
Qed.

(** Files of different extensions are different files, in any directories. *)
Lemma targets_distinct (d1 d2 : path) (b1 b2 e1 e2 : string) :
  slash_free e1 = true -> slash_free e2 = true ->
  String.length e1 = String.length e2 -> (2 <= String.length e1)%nat ->
  e1 <> e2 ->
  str_path (joinpath d1 (b1 ++ e1)) <> str_path (joinpath d2 (b2 ++ e2)).
Proof.
  intros H1 H2 Hl Hn Hne E.
  destruct (str_path_joinpath_suffix d1 b1 e1 H1 Hn) as [X1 E1].
  destruct (str_path_joinpath_suffix d2 b2 e2 H2 ltac:(lia)) as [X2 E2].
  rewrite E1, E2 in E. apply Hne. now apply (append_suffix_inj X1 X2).
Qed.

(* ===================================================================== *)
(** * Sequences of writes *)
(* ===================================================================== *)

Lemma write_txt_writes_to (path : string) (segs : list Segment) :
  writes_to path (Writers.write_txt path segs).
Proof. intros w w' r H. exact (with_open_w_frame _ _ _ _ _ H). Qed.

Lemma write_srt_writes_to (ts : float -> result string) (path : string)
    (segs : list Segment) :
  writes_to path (Writers.write_srt ts path segs).
Proof. intros w w' r H. exact (with_open_w_frame _ _ _ _ _ H). Qed.

Lemma write_vtt_writes_to (ts : float -> result string) (path : string)
    (segs : list Segment) :
  writes_to path (Writers.write_vtt ts path segs).
Proof. intros w w' r H. exact (with_open_w_frame _ _ _ _ _ H). Qed.

Lemma disjoint_paths_spec (l1 l2 : list string) (p : string) :
  disjoint_paths l1 l2 = true -> In p l1 -> ~ In p l2.
Proof.
  unfold disjoint_paths. rewrite forallb_forall. intros H H1 H2.
  specialize (H p H1). apply negb_true_iff in H.
  assert (existsb (String.eqb p) l2 = true); [|congruence].
  apply existsb_exists. exists p. split; [exact H2 | apply String.eqb_refl].
Qed.

Section ThreeWrites.

Variables (p1 p2 p3 : string) (c1 c2 c3 : M world unit).
Hypothesis H1 : writes_to p1 c1.
Hypothesis H2 : writes_to p2 c2.
Hypothesis H3 : writes_to p3 c3.

(** The three writes open a non-empty prefix of the targets, in order and
    each at most once, all of them when they return; they leave the
    directories and every other file alone. *)
Lemma three_writes_spec (srt vtt : bool) (w w' : world) (r : result unit) :
  three_writes c1 c2 c3 srt vtt w = (w', r) ->
  dirs w' = dirs w
  /\ (forall p, ~ In p (targets p1 p2 p3 srt vtt) -> files w' !! p = files w !! p)
  /\ exists k : nat,
       (1 <= k <= length (targets p1 p2 p3 srt vtt))%nat
       /\ opens w' = (opens w ++ firstn k (targets p1 p2 p3 srt vtt))%list
       /\ (r = Ok tt -> k = length (targets p1 p2 p3 srt vtt)).
Proof.
  unfold three_writes, mbind, ret, targets.
  destruct srt, vtt; cbn [app];
    repeat match goal with
      | |- context [c1 ?x] =>
          let E := fresh "E" in
          destruct (c1 x) as [? [[]|?]] eqn:E;
          destruct (H1 _ _ _ E) as (? & ? & ?); clear E
      | |- context [c2 ?x] =>
          let E := fresh "E" in
          destruct (c2 x) as [? [[]|?]] eqn:E;
          destruct (H2 _ _ _ E) as (? & ? & ?); clear E
      | |- context [c3 ?x] =>
          let E := fresh "E" in
          destruct (c3 x) as [? [[]|?]] eqn:E;
          destruct (H3 _ _ _ E) as (? & ? & ?); clear E
      end;
    intros [= <- <-];
    (split; [congruence|]);
    (split;
     [intros p Hp;
      repeat match goal with
        | F : forall q : string, q <> _ -> files _ !! q = files _ !! q |- _ =>
            rewrite F; [clear F | intros ->; apply Hp; simpl; tauto]
        end; reflexivity|]).
  all: match goal with
       | O1 : opens _ = _, O2 : opens _ = _, O3 : opens _ = _ |- _ =>
           exists 3%nat; rewrite O3, O2, O1, <- !app_assoc
       | O1 : opens _ = _, O2 : opens _ = _ |- _ =>
           exists 2%nat; rewrite O2, O1, <- !app_assoc
       | O1 : opens _ = _ |- _ => exists 1%nat; rewrite O1
       end; simpl;
       (split; [lia|]); (split; [reflexivity|]);
       first [discriminate | intros _; reflexivity | intros; discriminate].
Qed.

End ThreeWrites.

(** ** The three write sequences of the sources, as [three_writes] *)

Ltac split_runs :=
  repeat match goal with
    | |- context [match ?c ?x with _ => _ end] =>
        destruct (c x) as [? [[]|?]]
    end.

Lemma cli_main_three (base : string) (srt vtt : bool) (segs : list Segment)
    (w : world) :
  Cli.main base srt vtt segs w
  = match three_writes (Cli.write_txt (base ++ ".txt") segs)
            (Cli.write_srt (base ++ ".srt") segs)
            (Cli.write_vtt (base ++ ".vtt") segs) srt vtt w with
    | (w', Ok _) => (w', Ok (cli_targets base srt vtt))
    | (w', Raise e) => (w', Raise e)
    end.
Proof.
  unfold Cli.main, three_writes, mbind, ret, cli_targets, targets.
  destruct srt, vtt; split_runs; reflexivity.
Qed.

Lemma gui_primary_three (out : path) (base : string) (srt vtt : bool)
    (segs : list Segment) (w : world) :
  Gui.write_primary out base srt vtt segs w
  = match three_writes
            (Gui.write_txt (str_path (joinpath out (base ++ ".txt"))) segs)
            (Gui.write_srt (str_path (joinpath out (base ++ ".srt"))) segs)
            (Gui.write_vtt (str_path (joinpath out (base ++ ".vtt"))) segs)
            srt vtt w with
    | (w', Ok _) => (w', Ok ("Wrote: " ++ join ", " (gui_targets out base srt vtt)))
    | (w', Raise e) => (w', Raise e)
    end.
Proof.
  unfold Gui.write_primary, three_writes, mbind, ret, gui_targets, targets.
  destruct srt, vtt; split_runs; reflexivity.
Qed.

Lemma gui_fallback_three (home : path) (base : string) (srt vtt : bool)
    (segs : list Segment) (w : world) :
  Gui.write_fallback home base srt vtt segs w
  = match mkdir (Gui.DEFAULT_OUT home) w with
    | (w1, Ok _) =>
        let fb := Gui.DEFAULT_OUT home in
        match three_writes
                (Gui.write_txt (str_path (joinpath fb (base ++ ".txt"))) segs)
                (Gui.write_srt (str_path (joinpath fb (base ++ ".srt"))) segs)
                (Gui.write_vtt (str_path (joinpath fb (base ++ ".vtt"))) segs)
                srt vtt w1 with
        | (w', Ok _) =>
            (w', Ok ("Wrote (fallback): "
                     ++ join ", " (gui_targets fb base srt vtt)))
        | (w', Raise e) => (w', Raise e)
        end
    | (w1, Raise e) => (w1, Raise e)
    end.
Proof.
  unfold Gui.write_fallback, three_writes, mbind, ret, gui_targets, targets.
  cbv zeta.
  destruct (mkdir (Gui.DEFAULT_OUT home) w) as [w1 [[]|e]]; [|reflexivity].
  destruct srt, vtt; split_runs; cbn [app join]; rewrite ?append_assoc;
    reflexivity.
Qed.

(** ** [mkdir] *)

Lemma mkdir_frame (p : path) (w w' : world) (r : result unit) :
  mkdir p w = (w', r) ->
  files w' = files w /\ opens w' = opens w /\ dirs w ⊆ dirs w'
  /\ (r = Ok tt -> str_path p ∈ dirs w').
Proof.
  unfold mkdir.
  destruct (decide (str_path p ∈ dirs w)) as [Hin|Hnot].
  { intros [= <- <-]. auto. }
  destruct (decide (is_Some (files w !! str_path p))).
  { intros [= <- <-]. repeat split; auto. discriminate. }
  destruct (next_outcome w) as [o rest].
  destruct o; intros [= <- <-]; simpl; repeat split; auto;
    try discriminate; set_solver.
Qed.

(** No error, and nothing changes, when the directory is there. *)
Lemma mkdir_exists (p : path) (w : world) :
  str_path p ∈ dirs w -> mkdir p w = (w, Ok tt).
Proof.
  intros H. unfold mkdir.
  destruct (decide (str_path p ∈ dirs w)); [reflexivity | contradiction].
Qed.

(** A directory that [mkdir] made is there with its parents, and a second
    call does nothing. *)
Lemma mkdir_creates_with_parents (p : path) (w w' : world) :
  mkdir p w = (w', Ok tt) ->
  str_path p ∈ dirs w'
  /\ (str_path p ∉ dirs w -> forall d, In d (with_parents p) -> d ∈ dirs w')
  /\ mkdir p w' = (w', Ok tt).
Proof.
  intros H. pose proof (mkdir_frame _ _ _ _ H) as (_ & _ & _ & Hin).
  specialize (Hin eq_refl). split; [exact Hin|]. split.
  - intros Hnot d Hd. unfold mkdir in H.
    destruct (decide (str_path p ∈ dirs w)); [contradiction|].
    destruct (decide (is_Some (files w !! str_path p))); [discriminate|].
    destruct (next_outcome w) as [o rest].
    destruct o; simplify_eq. cbn [dirs].
    apply list_elem_of_In in Hd.
    apply elem_of_union_r, elem_of_list_to_set, elem_of_cons. now right.
  - now apply mkdir_exists.
Qed.

Lemma cli_three_spec (base : string) (srt vtt : bool) (segs : list Segment)
    (w w' : world) (r : result unit) :
  three_writes (Cli.write_txt (base ++ ".txt") segs)
    (Cli.write_srt (base ++ ".srt") segs)
    (Cli.write_vtt (base ++ ".vtt") segs) srt vtt w = (w', r) ->
  dirs w' = dirs w
  /\ (forall p, ~ In p (cli_targets base srt vtt) -> files w' !! p = files w !! p)
  /\ exists k : nat,
       (1 <= k <= length (cli_targets base srt vtt))%nat
       /\ opens w' = (opens w ++ firstn k (cli_targets base srt vtt))%list
       /\ (r = Ok tt -> k = length (cli_targets base srt vtt)).
Proof.
  apply three_writes_spec.
  - apply write_txt_writes_to.
  - apply write_srt_writes_to.
  - apply write_vtt_writes_to.
Qed.

Lemma gui_three_spec (dir : path) (base : string) (srt vtt : bool)
    (segs : list Segment) (w w' : world) (r : result unit) :
  three_writes
    (Gui.write_txt (str_path (joinpath dir (base ++ ".txt"))) segs)
    (Gui.write_srt (str_path (joinpath dir (base ++ ".srt"))) segs)
    (Gui.write_vtt (str_path (joinpath dir (base ++ ".vtt"))) segs)
    srt vtt w = (w', r) ->
  dirs w' = dirs w
  /\ (forall p, ~ In p (gui_targets dir base srt vtt) ->
        files w' !! p = files w !! p)
  /\ exists k : nat,
       (1 <= k <= length (gui_targets dir base srt vtt))%nat
       /\ opens w' = (opens w ++ firstn k (gui_targets dir base srt vtt))%list
       /\ (r = Ok tt -> k = length (gui_targets dir base srt vtt)).
Proof.
  apply three_writes_spec.
  - apply write_txt_writes_to.
  - apply write_srt_writes_to.
  - apply write_vtt_writes_to.
Qed.

Section ThreeWritesReturn.

Variables (p1 p2 p3 d1 d2 d3 : string) (c1 c2 c3 : M world unit).
Hypothesis H1 : writes_to p1 c1.
Hypothesis H2 : writes_to p2 c2.
Hypothesis H3 : writes_to p3 c3.
Hypothesis D1 : writes_doc p1 d1 c1.
Hypothesis D2 : writes_doc p2 d2 c2.
Hypothesis D3 : writes_doc p3 d3 c3.
Hypothesis N12 : p1 <> p2.
Hypothesis N13 : p1 <> p3.
Hypothesis N23 : p2 <> p3.

Lemma three_writes_returns (srt vtt : bool) (w w' : world) :
  three_writes c1 c2 c3 srt vtt w = (w', Ok tt) ->
  holds_documents (files w') srt vtt p1 p2 p3 d1 d2 d3.
Proof.
  unfold three_writes, mbind, ret, holds_documents.
  destruct (c1 w) as [w1 [[]|e1]] eqn:E1; [|discriminate].
  pose proof (D1 _ _ E1) as F1.
  destruct srt.
  - destruct (c2 w1) as [w2 [[]|e2]] eqn:E2; [|discriminate].
    pose proof (D2 _ _ E2) as F2.
    destruct (H2 _ _ _ E2) as (_ & _ & K2).
    destruct vtt.
    + destruct (c3 w2) as [w3 [[]|e3]] eqn:E3; [|discriminate].
      pose proof (D3 _ _ E3) as F3.
      destruct (H3 _ _ _ E3) as (_ & _ & K3).
      intros [= <-]. repeat split; auto.
      * rewrite K3, K2; auto.
      * intros _. rewrite K3; auto.
    + intros [= <-]. repeat split; auto; try discriminate.
      rewrite K2; auto.
  - destruct vtt.
    + destruct (c3 w1) as [w3 [[]|e3]] eqn:E3; [|discriminate].
      pose proof (D3 _ _ E3) as F3.
      destruct (H3 _ _ _ E3) as (_ & _ & K3).
      intros [= <-]. repeat split; auto; try discriminate.
      rewrite K3; auto.
    + intros [= <-]. repeat split; auto; discriminate.
Qed.

End ThreeWritesReturn.


Lemma gui_three_returns (dir : path) (base : string) (srt vtt : bool)
    (segs : list Segment) (w w' : world) :
  three_writes
    (Gui.write_txt (str_path (joinpath dir (base ++ ".txt"))) segs)
    (Gui.write_srt (str_path (joinpath dir (base ++ ".srt"))) segs)
    (Gui.write_vtt (str_path (joinpath dir (base ++ ".vtt"))) segs)
    srt vtt w = (w', Ok tt) ->
  holds_documents (files w') srt vtt
    (str_path (joinpath dir (base ++ ".txt")))
    (str_path (joinpath dir (base ++ ".srt")))
    (str_path (joinpath dir (base ++ ".vtt")))
    (txt_document segs) (srt_document Gui.srt_ts 1 segs)
    (vtt_document Gui.vtt_ts segs).
Proof.
  apply three_writes_returns.
  - apply write_srt_writes_to.
  - apply write_vtt_writes_to.
  - intros x y. apply write_txt_returns.
  - intros x y H. now apply write_srt_returns in H.
  - intros x y H. now apply write_vtt_returns in H.
  - apply targets_distinct; try reflexivity; [simpl; lia | discriminate].
  - apply targets_distinct; try reflexivity; [simpl; lia | discriminate].
  - apply targets_distinct; try reflexivity; [simpl; lia | discriminate].
Qed.

Lemma target_docs_paths (p1 p2 p3 d1 d2 d3 : string) (srt vtt : bool) :
  map fst (target_docs p1 p2 p3 d1 d2 d3 srt vtt) = targets p1 p2 p3 srt vtt.
Proof. destruct srt, vtt; reflexivity. Qed.

Section ThreeWritesRaise.

Variables (p1 p2 p3 d1 d2 d3 : string) (c1 c2 c3 : M world unit).
Hypothesis H1 : writes_to p1 c1.
Hypothesis H2 : writes_to p2 c2.
Hypothesis H3 : writes_to p3 c3.
Hypothesis D1 : writes_doc p1 d1 c1.
Hypothesis D2 : writes_doc p2 d2 c2.
Hypothesis N12 : p1 <> p2.
Hypothesis N13 : p1 <> p3.
Hypothesis N23 : p2 <> p3.

(** When the sequence raises at its [k]-th file, the [k - 1] files before
    it hold their documents. *)
Lemma three_writes_raises (srt vtt : bool) (w w' : world) (e : exn) :
  three_writes c1 c2 c3 srt vtt w = (w', Raise e) ->
  exists k : nat,
    (1 <= k)%nat
    /\ opens w' = (opens w ++ firstn k (targets p1 p2 p3 srt vtt))%list
    /\ forall p d : string,
         In (p, d) (firstn (k - 1) (target_docs p1 p2 p3 d1 d2 d3 srt vtt)) ->
         files w' !! p = Some d.
Proof.
  unfold three_writes, mbind, ret, targets, target_docs.
  destruct (c1 w) as [w1 [[]|e1]] eqn:E1.
  2:{ intros [= <- <-]. destruct (H1 _ _ _ E1) as (O1 & _ & _).
      exists 1%nat. split; [lia|]. split; [exact O1|]. intros p d []. }
  pose proof (D1 _ _ E1) as F1. destruct (H1 _ _ _ E1) as (O1 & _ & _).
  destruct srt.
  - destruct (c2 w1) as [w2 [[]|e2]] eqn:E2;
      destruct (H2 _ _ _ E2) as (O2 & _ & K2).
    2:{ intros [= <- <-]. exists 2%nat. split; [lia|]. split.
        - cbn [app firstn]. rewrite O2, O1, <- app_assoc. reflexivity.
        - cbn [app firstn Nat.sub]. intros p d [[= <- <-]|[]].
          rewrite K2; auto. }
    pose proof (D2 _ _ E2) as F2.
    destruct vtt; [|discriminate].
    destruct (c3 w2) as [w3 [[]|e3]] eqn:E3; [discriminate|].
    destruct (H3 _ _ _ E3) as (O3 & _ & K3).
    intros [= <- <-]. exists 3%nat. split; [lia|]. split.
    + cbn [app firstn]. rewrite O3, O2, O1, <- !app_assoc. reflexivity.
    + cbn [app firstn Nat.sub]. intros p d [[= <- <-]|[[= <- <-]|[]]].
      * rewrite K3, K2; auto.
      * rewrite K3; auto.
  - destruct vtt; [|discriminate].
    destruct (c3 w1) as [w3 [[]|e3]] eqn:E3; [discriminate|].
    destruct (H3 _ _ _ E3) as (O3 & _ & K3).
    intros [= <- <-]. exists 2%nat. split; [lia|]. split.
    + cbn [app firstn]. rewrite O3, O1, <- app_assoc. reflexivity.
    + cbn [app firstn Nat.sub]. intros p d [[= <- <-]|[]].
      rewrite K3; auto.
Qed.

End ThreeWritesRaise.

Lemma gui_primary_raises (out : path) (base : string) (srt vtt : bool)
    (segs : list Segment) (w w' : world) (e : exn) :
  Gui.write_primary out base srt vtt segs w = (w', Raise e) ->
  exists k : nat,
    (1 <= k)%nat
    /\ opens w' = (opens w ++ firstn k (gui_targets out base srt vtt))%list
    /\ forall p d : string,
         In (p, d) (firstn (k - 1) (gui_target_docs out base srt vtt segs)) ->
         files w' !! p = Some d.
Proof.
  rewrite gui_primary_three.
  destruct (three_writes _ _ _ srt vtt w) as [w1 [[]|e1]] eqn:E;
    [discriminate|].
  intros H. inversion H; subst; clear H. revert E.
  apply three_writes_raises.
  - apply write_txt_writes_to.
  - apply write_srt_writes_to.
  - apply write_vtt_writes_to.
  - intros x y. apply write_txt_returns.
  - intros x y H. now apply write_srt_returns in H.
  - apply targets_distinct; try reflexivity; [simpl; lia | discriminate].
  - apply targets_distinct; try reflexivity; [simpl; lia | discriminate].
  - apply targets_distinct; try reflexivity; [simpl; lia | discriminate].
Qed.

Lemma in_firstn_fst (A B : Type) (l : list (A * B)) (k : nat) (p : A) (d : B) :
  In (p, d) (firstn k l) -> In p (map fst l).
Proof.
  intros H. apply (in_map fst) in H. simpl in H.
  revert k H. induction l as [|x l IH]; intros [|k]; simpl; try tauto.
  intros [H|H]; [now left | right; eauto].
Qed.

(** What the primary attempt of the GUI does to the file system. *)
Lemma gui_primary_spec (out : path) (base : string) (srt vtt : bool)
    (segs : list Segment) (w w' : world) (r : result string) :
  Gui.write_primary out base srt vtt segs w = (w', r) ->
  dirs w' = dirs w
  /\ (forall p, ~ In p (gui_targets out base srt vtt) ->
        files w' !! p = files w !! p)
  /\ exists k : nat,
       (1 <= k <= length (gui_targets out base srt vtt))%nat
       /\ opens w' = (opens w ++ firstn k (gui_targets out base srt vtt))%list
       /\ (is_ok r = true ->
           k = length (gui_targets out base srt vtt)
           /\ r = Ok ("Wrote: " ++ join ", " (gui_targets out base srt vtt))
           /\ gui_holds (files w') out base srt vtt segs).
Proof.
  rewrite gui_primary_three.
  destruct (three_writes _ _ _ srt vtt w) as [w1 r1] eqn:E.
  destruct (gui_three_spec _ _ _ _ _ _ _ _ E) as (D & F & k & Hk & O & A).
  destruct r1 as [[]|e]; intros [= <- <-]; (split; [exact D|]);
    (split; [exact F|]); exists k; (split; [exact Hk|]); (split; [exact O|]);
    [|discriminate].
  intros _. split; [now apply A|]. split; [reflexivity|].
  now apply gui_three_returns in E.
Qed.

(** What the fallback of the GUI does to the file system. *)
Lemma gui_fallback_spec (home : path) (base : string) (srt vtt : bool)
    (segs : list Segment) (w w' : world) (r : result string) :
  Gui.write_fallback home base srt vtt segs w = (w', r) ->
  let fb := Gui.DEFAULT_OUT home in
  (forall p, ~ In p (gui_targets fb base srt vtt) -> files w' !! p = files w !! p)
  /\ exists k : nat,
       (k <= length (gui_targets fb base srt vtt))%nat
       /\ opens w' = (opens w ++ firstn k (gui_targets fb base srt vtt))%list
       /\ (is_ok r = true ->
           k = length (gui_targets fb base srt vtt)
           /\ str_path fb ∈ dirs w'
           /\ r = Ok ("Wrote (fallback): "
                      ++ join ", " (gui_targets fb base srt vtt))
           /\ gui_holds (files w') fb base srt vtt segs).
Proof.
  rewrite gui_fallback_three. cbv zeta.
  destruct (mkdir (Gui.DEFAULT_OUT home) w) as [w1 r1] eqn:Em.
  destruct (mkdir_frame _ _ _ _ Em) as (Fm & Om & Dm & Im).
  destruct r1 as [[]|e].
  2:{ intros [= <- <-]. split; [intros; now rewrite Fm|].
      exists 0%nat. simpl. rewrite app_nil_r. repeat split; try lia; auto;
        discriminate. }
  destruct (three_writes _ _ _ srt vtt w1) as [w2 r2] eqn:E.
  destruct (gui_three_spec _ _ _ _ _ _ _ _ E) as (D & F & k & Hk & O & A).
  destruct r2 as [[]|e]; intros [= <- <-].
  - split; [intros p Hp; now rewrite F, Fm|].
    exists k. rewrite O, Om. split; [lia|]. split; [reflexivity|].
    intros _. split; [now apply A|]. split; [rewrite D; now apply Im|].
    split; [reflexivity|]. now apply gui_three_returns in E.
  - split; [intros p Hp; now rewrite F, Fm|].
    exists k. rewrite O, Om. repeat split; try lia; discriminate.
Qed.

(** [run] once the output directory is there and the segments have come:
    the primary attempt, the fallback on [OSError], and the signal. *)
Lemma gui_run_cases (home : path) (audio_path out_dir : string)
    (srt vtt : bool) (segs : list Segment) (w w0 : world) :
  mkdir (Gui.resolve_out home out_dir) w = (w0, Ok tt) ->
  Gui.run home audio_path out_dir srt vtt (Ok segs) w
  = match Gui.write_primary (Gui.resolve_out home out_dir)
            (stem (Path audio_path)) srt vtt segs w0 with
    | (w1, Ok msg) => (w1, Gui.done msg)
    | (w1, Raise OSError) =>
        match Gui.write_fallback home (stem (Path audio_path)) srt vtt
                segs w1 with
        | (w3, Ok msg) => (w3, Gui.done msg)
        | (w3, Raise e) => (w3, Gui.failed e)
        end
    | (w1, Raise e) => (w1, Gui.failed e)
    end.
Proof.
  intros Hm. unfold Gui.run, Gui.run_body, mbind, lift,
    try_except_OSError.
  rewrite Hm.
  destruct (Gui.write_primary _ _ srt vtt segs w0) as [w1 [msg|e]];
    [reflexivity|].
  destruct e; reflexivity.
Qed.

(* ===================================================================== *)
(** * The claims on writing, fallback and the manifest *)
(* ===================================================================== *)


(** C3, as stated, fails on the command-line tool: a failing [open] of the
    text file ends [main] with the [OSError]; nothing was written, and
    nothing was tried a second time or elsewhere. *)
Lemma cli_write_failure_propagates :
  Cli.main "a" true true two_segments (mkWorld ∅ ∅ [IoFail] [])
  = (mkWorld ∅ ∅ [] ["a.txt"], Raise OSError).
Proof. vm_compute. reflexivity. Qed.

(** The same run, evaluated: the fallback succeeds and the message lists
    the three files under the default directory. *)
Lemma gui_fallback_example :
  snd (Gui.run home_u "/m/a.wav" "/m" true true (Ok two_segments)
         (mkWorld ∅ ∅ [IoOk; IoOk; IoFail] []))
  = Gui.done ("Wrote (fallback): /home/u/WhisperLite/a.txt, "
                 ++ "/home/u/WhisperLite/a.srt, /home/u/WhisperLite/a.vtt").
Proof. vm_compute. reflexivity. Qed.

(** When the fallback fails too, the worker reports the failure. *)
Lemma gui_fallback_fails_example :
  snd (Gui.run home_u "/m/a.wav" "/m" true true (Ok two_segments)
         (mkWorld ∅ ∅ [IoOk; IoFail; IoOk; IoOk; IoFail] []))
  = Gui.failed OSError
  /\ opens (fst (Gui.run home_u "/m/a.wav" "/m" true true (Ok two_segments)
                   (mkWorld ∅ ∅ [IoOk; IoFail; IoOk; IoOk; IoFail] [])))
     = ["/m/a.txt"; "/home/u/WhisperLite/a.txt"; "/home/u/WhisperLite/a.srt"].
Proof. split; vm_compute; reflexivity. Qed.

(** C9, as stated, fails when the resolved directory is the default
    directory itself (here through [out_dir = "/"]): the text file is
    written, the SRT file fails, the fallback opens the same text file
    again, which empties it, and fails under the write. The file that had
    been written is no longer what it was. *)
Lemma gui_fallback_same_directory_truncates :
  let w := mkWorld ∅ ∅ [IoOk; IoOk; IoFail; IoWriteFail 0] [] in
  let out := Gui.resolve_out home_u "/" in
  let w0 := fst (mkdir out w) in
  let w1 := fst (Gui.write_primary out "a" true false two_segments w0) in
  let res := Gui.run home_u "/a.wav" "/" true false (Ok two_segments) w in
  out = Gui.DEFAULT_OUT home_u
  /\ snd (Gui.write_primary out "a" true false two_segments w0)
     = Raise OSError
  /\ opens w1 = ["/home/u/WhisperLite/a.txt"; "/home/u/WhisperLite/a.srt"]
  /\ files w1 !! "/home/u/WhisperLite/a.txt"
     = Some ("Hello" ++ nl ++ "world" ++ nl)
  /\ snd res = Gui.failed OSError
  /\ files (fst res) !! "/home/u/WhisperLite/a.txt" = Some "".
Proof. cbv zeta. repeat split; vm_compute; reflexivity. Qed.

(** C9, amended. In the GUI worker the writes are made one file after the
    other and stop at the first failure, which leaves the files written
    before it holding their documents. When no primary target is a
    fallback target, then whatever the fallback does, and wherever it
    fails, those files still hold their documents after it, and every
    primary target holds what it held when the primary attempt failed; the
    fallback opens fallback targets only, in order and at most once each,
    so no primary file is written again. *)
Theorem gui_fallback_leaves_primary_files
    (home out : path) (base : string) (srt vtt : bool) (segs : list Segment)
    (w0 w1 w3 : world) (r : result string) :
  disjoint_paths (gui_targets out base srt vtt)
                 (gui_targets (Gui.DEFAULT_OUT home) base srt vtt) = true ->
  Gui.write_primary out base srt vtt segs w0 = (w1, Raise OSError) ->
  Gui.write_fallback home base srt vtt segs w1 = (w3, r) ->
  (exists k : nat,
     (1 <= k)%nat
     /\ opens w1 = (opens w0 ++ firstn k (gui_targets out base srt vtt))%list
     /\ forall p d : string,
          In (p, d) (firstn (k - 1) (gui_target_docs out base srt vtt segs)) ->
          files w1 !! p = Some d /\ files w3 !! p = Some d)
  /\ (forall p : string,
        In p (gui_targets out base srt vtt) -> files w3 !! p = files w1 !! p)
  /\ (exists k : nat,
        opens w3
        = (opens w1
           ++ firstn k (gui_targets (Gui.DEFAULT_OUT home) base srt vtt))%list)
  /\ (forall p : string,
        In p (gui_targets out base srt vtt) ->
        forall k : nat,
          ~ In p (firstn k (gui_targets (Gui.DEFAULT_OUT home) base srt vtt))).
Proof.
  intros Hd Hp Hf.
  destruct (gui_primary_raises _ _ _ _ _ _ _ _ Hp) as (k & Hk & O & C).
  destruct (gui_fallback_spec _ _ _ _ _ _ _ _ Hf) as (F & k' & _ & O' & _).
  assert (U : forall p, In p (gui_targets out base srt vtt) ->
                files w3 !! p = files w1 !! p).
  { intros p Hin. apply F. now apply (disjoint_paths_spec _ _ _ Hd). }
  split; [|split; [exact U|split]].
  - exists k. split; [exact Hk|]. split; [exact O|].
    intros p d Hin. split; [now apply C|].
    rewrite U; [now apply C|].
    apply in_firstn_fst in Hin. unfold gui_target_docs in Hin.
    now rewrite target_docs_paths in Hin.
  - exists k'. exact O'.
  - intros p Hin j Hj. apply (disjoint_paths_spec _ _ _ Hd Hin).
    revert Hj. generalize (gui_targets (Gui.DEFAULT_OUT home) base srt vtt).
    intros l. revert j. induction l as [|x l IH]; intros [|j]; simpl; try tauto.
    intros [->|H]; [now left | right; eauto].
Qed.

Lemma gui_fallback_leaves_primary_files_witness :
  let w0 := fst (mkdir (Path "/m") (mkWorld ∅ ∅ [IoOk; IoOk; IoFail; IoOk; IoFail] [])) in
  let w1 := fst (Gui.write_primary (Path "/m") "a" true true two_segments w0) in
  let w3 := fst (Gui.write_fallback home_u "a" true true two_segments w1) in
  files w1 !! "/m/a.txt" = Some ("Hello" ++ nl ++ "world" ++ nl)
  /\ forall p : string,
       In p (gui_targets (Path "/m") "a" true true) ->
       files w3 !! p = files w1 !! p.
Proof.
  cbv zeta. split; [vm_compute; reflexivity|].
  refine (proj1 (proj2 (gui_fallback_leaves_primary_files home_u (Path "/m")
            "a" true true two_segments
            (fst (mkdir (Path "/m")
                    (mkWorld ∅ ∅ [IoOk; IoOk; IoFail; IoOk; IoFail] [])))
            _ _
            (snd (Gui.write_fallback home_u "a" true true two_segments
                    (fst (Gui.write_primary (Path "/m") "a" true true
                            two_segments
                            (fst (mkdir (Path "/m")
                                    (mkWorld ∅ ∅
                                       [IoOk; IoOk; IoFail; IoOk; IoFail] [])))))))
            _ _ _)));
    vm_compute; reflexivity.
Defined.

(** Both front-ends on the two segments with both flags set, every call
    succeeding. *)
Lemma all_three_written_example :
  snd (Cli.main "a" true true two_segments empty_world)
  = Ok ["a.txt"; "a.srt"; "a.vtt"]
  /\ Cli.summary ["a.txt"; "a.srt"; "a.vtt"] = "Wrote: a.txt, a.srt, a.vtt"
  /\ snd (Gui.run home_u "/m/a.wav" "/m" true true (Ok two_segments)
            empty_world)
     = Gui.done "Wrote: /m/a.txt, /m/a.srt, /m/a.vtt"
  /\ snd (Gui.run home_u "/m/a.wav" "/m" false false (Ok two_segments)
            empty_world)
     = Gui.done "Wrote: /m/a.txt"
  /\ files (fst (Cli.main "a" false false two_segments empty_world))
       !! "a.txt"
     = Some ("Hello" ++ nl ++ "world" ++ nl).
Proof. repeat split; vm_compute; reflexivity. Qed.

(** C6. [Path("")] is the path [.], whose text is not empty: with an empty
    [out_dir] the worker keeps the working directory and does not take the
    default directory, for any home directory; with [/] it takes the
    default. The run below writes [a.txt] beside the process and nothing
    under the home directory. *)
Theorem gui_empty_out_dir_is_not_default (home : path) :
  str_path (Path "") = "."
  /\ Gui.resolve_out home "" = Path ""
  /\ Gui.resolve_out home "" <> Gui.DEFAULT_OUT home
  /\ Gui.resolve_out home "/" = Gui.DEFAULT_OUT home
  /\ snd (Gui.run home_u "/m/a.wav" "" false false (Ok two_segments)
            empty_world)
     = Gui.done "Wrote: a.txt"
  /\ dirs (fst (Gui.run home_u "/m/a.wav" "" false false (Ok two_segments)
                  empty_world))
     = {["."]}
  /\ files (fst (Gui.run home_u "/m/a.wav" "" false false (Ok two_segments)
                   empty_world))
       !! "/home/u/WhisperLite/a.txt"
     = None.
Proof.
  split; [reflexivity|]. split; [reflexivity|]. split.
  - change (Gui.resolve_out home "") with (mkPath "" []).
    unfold Gui.DEFAULT_OUT, joinpath.
    change (Path "WhisperLite") with (mkPath "" ["WhisperLite"]).
    cbn [root parts]. intros [= _ H]. now destruct (parts home).
  - split; [reflexivity|]. repeat split; vm_compute; reflexivity.
Qed.

Lemma all_digits_one_line (s : string) : all_digits s = true -> one_line s = true.
Proof.
  induction s as [|c s IH]; simpl; [reflexivity|].
  intros H. apply andb_prop in H as [H1 H2]. rewrite IH by exact H2.
  destruct (Ascii.eqb c (ascii_of_nat 10)) eqn:E; [|reflexivity].
  apply Ascii.eqb_eq in E. subst c. discriminate H1.
Qed.

Lemma one_line_str_int (n : Z) : one_line (str_int n) = true.
Proof.
  destruct n as [|p|p].
  - reflexivity.
  - apply all_digits_one_line, all_digits_str_int. lia.
  - unfold str_int. cbn [Z.to_int NilZero.string_of_int one_line].
    change (NilZero.string_of_uint (Pos.to_uint p)) with (str_int (Z.pos p)).
    rewrite (all_digits_one_line _ (all_digits_str_int (Z.pos p) ltac:(lia))).
    reflexivity.
Qed.

(** The lines of an SRT document: four per segment, the first the index. *)
Lemma lines_srt_document (ts : float -> result string) (segs : list Segment)
    (i : Z) :
  forallb (cue_one_line ts) segs = true ->
  lines (srt_document ts i segs)
  = concat (map (fun '(n, seg) => srt_cue_lines ts n seg) (enumerate segs i)).
Proof.
  intros H. pose proof one_line_str_int as Hn. revert i. induction segs as [|seg r IH]; intros i;
    cbn [srt_document enumerate map concat]; [reflexivity|].
  simpl in H. apply andb_prop in H as [H1 H2].
  unfold cue_one_line in H1. apply andb_prop in H1 as [Ht Hx].
  unfold srt_block. rewrite !append_assoc.
  rewrite lines_line by apply Hn.
  rewrite lines_line by exact Ht. rewrite lines_line by exact Hx.
  change (nl ++ srt_document ts (i + 1) r)
    with ("" ++ nl ++ srt_document ts (i + 1) r).
  rewrite lines_line by reflexivity. now rewrite IH.
Qed.

(* ===================================================================== *)
(** * More of the two programs *)
(* ===================================================================== *)

(* ===================================================================== *)
(** * transcribe.py: device and precision *)
(* ===================================================================== *)

(** X1. Whatever the platform and the arguments, after lines 63 to 70 the
    device is not [auto]; it is the given device unless that was [auto];
    when it is [cpu] the precision does not start with [float16] in any
    letter case; and the precision is the given one unless the device is
    [cpu]. *)
Theorem resolve_device_post (sys_platform machine device compute_type : string) :
  let r := CliShell.resolve_device sys_platform machine device compute_type in
  fst r <> "auto"
  /\ (device <> "auto" -> fst r = device)
  /\ (device = "auto" -> fst r = "metal" \/ fst r = "cpu")
  /\ (fst r = "cpu" -> startswith (lower (snd r)) "float16" = false)
  /\ (fst r <> "cpu" -> snd r = compute_type).
Proof.
  unfold CliShell.resolve_device. cbv zeta.
  destruct (String.eqb device "auto") eqn:Ea.
  - apply String.eqb_eq in Ea. subst device.
    destruct (String.eqb sys_platform "darwin"
              && (String.eqb (lower machine) "arm64"
                  || String.eqb (lower machine) "aarch64")); cbn [fst snd].
    + change (String.eqb "metal" "cpu") with false. cbn [andb fst snd].
      repeat split; try discriminate; auto; congruence.
    + change (String.eqb "cpu" "cpu") with true. cbn [andb].
      destruct (startswith (lower compute_type) "float16") eqn:Ef;
        cbn [fst snd]; repeat split; try discriminate; auto; congruence.
  - apply String.eqb_neq in Ea.
    destruct (String.eqb device "cpu") eqn:Ec; cbn [andb].
    + destruct (startswith (lower compute_type) "float16") eqn:Ef;
        cbn [fst snd]; repeat split; auto; try congruence.
      apply String.eqb_eq in Ec. congruence.
    + apply String.eqb_neq in Ec. cbn [fst snd].
      repeat split; auto; congruence.
Qed.

(** X2. Resolving again changes nothing. *)
Theorem resolve_device_idempotent
    (sys_platform machine device compute_type : string) :
  let r := CliShell.resolve_device sys_platform machine device compute_type in
  CliShell.resolve_device sys_platform machine (fst r) (snd r) = r.
Proof.
  unfold CliShell.resolve_device. cbv zeta.
  destruct (String.eqb device "auto") eqn:Ea.
  - destruct (String.eqb sys_platform "darwin"
              && (String.eqb (lower machine) "arm64"
                  || String.eqb (lower machine) "aarch64")); cbn [fst snd].
    + reflexivity.
    + change (String.eqb "cpu" "cpu") with true. cbn [andb].
      destruct (startswith (lower compute_type) "float16") eqn:Ef;
        cbn [fst snd].
      * reflexivity.
      * change (String.eqb "cpu" "auto") with false. cbv iota.
        change (String.eqb "cpu" "cpu") with true. cbn [andb].
        now rewrite Ef.
  - destruct (String.eqb device "cpu") eqn:Ec; cbn [andb].
    + destruct (startswith (lower compute_type) "float16") eqn:Ef;
        cbn [fst snd]; rewrite Ea, Ec; cbn [andb].
      * reflexivity.
      * now rewrite Ef.
    + cbn [fst snd]. rewrite Ea, Ec. reflexivity.
Qed.

(* ===================================================================== *)
(** * gui_transcribe.py: the worker's device and the bundled model *)
(* ===================================================================== *)

(** X3. Whatever device is given to the constructor, the model is loaded
    with [cpu], [cuda] or [auto], the given one if it is one of these and
    [auto] otherwise, and with the precision [float16] exactly when the
    device is [cuda], [int8] otherwise. The model is loaded unless the
    bundle directory cannot be listed. *)
Theorem worker_device_and_precision
    (app_root : path) (audio_path out_dir model_size language : string)
    (srt vtt vad : bool) (device : string)
    (local_dir : GuiShell.dir_state) (environ : gmap string string) :
  let self := GuiShell.init audio_path out_dir model_size language srt vtt vad
                device in
  let r := snd (GuiShell._load_model app_root self local_dir environ) in
  (local_dir <> GuiShell.Unlistable ->
     exists call : GuiShell.model_call, r = Ok call)
  /\ forall call : GuiShell.model_call,
       r = Ok call ->
       In (GuiShell.call_device call) ["cpu"; "cuda"; "auto"]
       /\ (In device ["cpu"; "cuda"; "auto"] ->
           GuiShell.call_device call = device)
       /\ (~ In device ["cpu"; "cuda"; "auto"] ->
           GuiShell.call_device call = "auto")
       /\ (GuiShell.call_device call = "cuda"
           -> GuiShell.call_compute_type call = "float16")
       /\ (GuiShell.call_device call <> "cuda"
           -> GuiShell.call_compute_type call = "int8").
Proof.
  cbv zeta. unfold GuiShell._load_model, GuiShell.load_args, GuiShell.init.
  cbn [GuiShell.device GuiShell.model_size].
  set (d := if String.eqb device "cpu" || String.eqb device "cuda"
               || String.eqb device "auto" then device else "auto").
  assert (Hd : In d ["cpu"; "cuda"; "auto"]).
  { unfold d.
    destruct (String.eqb device "cpu") eqn:E1;
      [apply String.eqb_eq in E1; subst; simpl; auto|].
    destruct (String.eqb device "cuda") eqn:E2;
      [apply String.eqb_eq in E2; subst; simpl; auto|].
    destruct (String.eqb device "auto") eqn:E3;
      [apply String.eqb_eq in E3; subst; simpl; auto|].
    simpl. auto. }
  assert (Hin : In device ["cpu"; "cuda"; "auto"] -> d = device).
  { unfold d. intros [<-|[<-|[<-|[]]]]; reflexivity. }
  assert (Hout : ~ In device ["cpu"; "cuda"; "auto"] -> d = "auto").
  { unfold d. intros H.
    destruct (String.eqb device "cpu") eqn:E1;
      [apply String.eqb_eq in E1; subst; exfalso; apply H; simpl; auto|].
    destruct (String.eqb device "cuda") eqn:E2;
      [apply String.eqb_eq in E2; subst; exfalso; apply H; simpl; auto|].
    destruct (String.eqb device "auto") eqn:E3;
      [apply String.eqb_eq in E3; subst; exfalso; apply H; simpl; auto|].
    reflexivity. }
  assert (Hne : (if String.eqb d "" then "auto" else d) = d).
  { destruct Hd as [<-|[<-|[<-|[]]]]; reflexivity. }
  rewrite Hne. clearbody d.
  assert (Hc : (d = "cuda" -> (if String.eqb d "cuda" then "float16" else "int8")
                              = "float16")
               /\ (d <> "cuda" -> (if String.eqb d "cuda" then "float16" else "int8")
                                  = "int8")).
  { destruct (String.eqb d "cuda") eqn:Ec.
    - apply String.eqb_eq in Ec. split; [reflexivity | congruence].
    - apply String.eqb_neq in Ec. split; [congruence | reflexivity]. }
  destruct local_dir as [| |[|x l]]; cbn [snd]; split;
    try (intros _; eexists; reflexivity); try congruence;
    try (intros call [= <-];
         cbn [GuiShell.call_device GuiShell.call_compute_type]; tauto);
    intros call; discriminate.
Qed.

(** X4. [_load_model] takes the bundled model, and sets [HF_HUB_OFFLINE] to
    [1], exactly when the bundle directory exists and is not empty. When
    it is missing or empty the model is loaded by the name chosen and the
    environment is left as it is. When the directory cannot be listed the
    test itself raises: no model is loaded, nothing is announced and the
    environment is left as it is. No other variable is ever changed. *)
Theorem load_model_offline_iff_bundled
    (app_root : path) (self : GuiShell.worker)
    (local_dir : GuiShell.dir_state) (environ : gmap string string) :
  let r := GuiShell._load_model app_root self local_dir environ in
  let bundled := exists x l, local_dir = GuiShell.Listing (x :: l) in
  (bundled ->
     snd (fst r) !! "HF_HUB_OFFLINE" = Some "1"
     /\ exists call : GuiShell.model_call,
          snd r = Ok call
          /\ GuiShell.model_id call
             = str_path (GuiShell.LOCAL_MODEL_DIR app_root))
  /\ (local_dir = GuiShell.Missing \/ local_dir = GuiShell.Listing [] ->
        snd (fst r) = environ
        /\ exists call : GuiShell.model_call,
             snd r = Ok call
             /\ GuiShell.model_id call = GuiShell.model_size self)
  /\ (local_dir = GuiShell.Unlistable ->
        snd r = Raise OSError /\ snd (fst r) = environ /\ fst (fst r) = [])
  /\ (forall call : GuiShell.model_call,
        snd r = Ok call ->
        (GuiShell.model_id call = str_path (GuiShell.LOCAL_MODEL_DIR app_root)
         /\ bundled)
        \/ (GuiShell.model_id call = GuiShell.model_size self
            /\ snd (fst r) = environ))
  /\ (forall k : string,
        k <> "HF_HUB_OFFLINE" -> snd (fst r) !! k = environ !! k).
Proof.
  cbv zeta. unfold GuiShell._load_model.
  destruct (GuiShell.load_args self) as [d c].
  destruct local_dir as [| |[|x l]]; cbn [fst snd].
  - split; [intros (x & l & H); discriminate|].
    split; [intros _; split; [reflexivity | eexists; split; reflexivity]|].
    split; [discriminate|].
    split; [intros call [= <-]; right; now split | reflexivity].
  - split; [intros (x & l & H); discriminate|].
    split; [intros [H|H]; discriminate|].
    split; [auto|]. split; [intros call; discriminate | reflexivity].
  - split; [intros (x & l & H); discriminate|].
    split; [intros _; split; [reflexivity | eexists; split; reflexivity]|].
    split; [discriminate|].
    split; [intros call [= <-]; right; now split | reflexivity].
  - split; [intros _; split; [apply lookup_insert_eq
                             | eexists; split; reflexivity]|].
    split; [intros [H|H]; discriminate|].
    split; [discriminate|].
    split; [intros call [= <-]; left; split; [reflexivity | eauto]|].
    intros k Hk. now rewrite lookup_insert_ne.
Qed.

(* ===================================================================== *)
(** * The text file *)
(* ===================================================================== *)

Lemma txt_document_texts (segs segs' : list Segment) :
  map text segs = map text segs' -> txt_document segs = txt_document segs'.
Proof.
  revert segs'. induction segs as [|s r IH]; intros [|s' r'] H; try discriminate.
  - reflexivity.
  - simpl in H. injection H as H1 H2. cbn [txt_document].
    now rewrite H1, (IH r' H2).
Qed.

Lemma lines_txt_document (segs : list Segment) :
  forallb (fun seg => one_line (strip (text seg))) segs = true ->
  lines (txt_document segs) = map (fun seg => strip (text seg)) segs.
Proof.
  induction segs as [|s r IH]; intros H; [reflexivity|].
  simpl in H. apply andb_prop in H as [H1 H2].
  cbn [txt_document map]. rewrite lines_line by exact H1. now rewrite IH.
Qed.

(** X5. The text file depends on the texts of the segments only: two
    transcripts with the same texts, whatever their times, make [write_txt]
    do the same on every file system. *)
Theorem write_txt_only_texts (path : string) (segs segs' : list Segment)
    (w : world) :
  map text segs = map text segs' ->
  Writers.write_txt path segs w = Writers.write_txt path segs' w.
Proof.
  intros H. unfold Writers.write_txt, with_open_w.
  rewrite !for_each_txt. now rewrite (txt_document_texts _ _ H).
Qed.

Lemma write_txt_only_texts_witness :
  Writers.write_txt "a.txt" [seg_hello; seg_nan] empty_world
  = Writers.write_txt "a.txt"
      [mkSegment S754_nan (S754_infinity true) "Hello";
       mkSegment (float_of_Z 0) (float_of_Z 0) "lost"] empty_world.
Proof.
  refine (write_txt_only_texts "a.txt" _ _ empty_world _). reflexivity.
Defined.

(** X6. Once the file is open, [write_txt] returns whatever the times of
    the segments are, and the file holds one line per segment, in order,
    each the trimmed text (for texts that hold no newline once trimmed);
    an empty transcript leaves an empty file. *)
Theorem write_txt_one_line_per_segment (path : string) (segs : list Segment)
    (w : world) :
  fst (next_outcome w) = IoOk ->
  forallb (fun seg => one_line (strip (text seg))) segs = true ->
  let res := Writers.write_txt path segs w in
  snd res = Ok tt
  /\ exists doc : string,
       files (fst res) !! path = Some doc
       /\ lines doc = map (fun seg => strip (text seg)) segs
       /\ (segs = [] -> doc = "").
Proof.
  intros Ho Hl. cbv zeta.
  destruct (next_outcome w) as [o rest] eqn:E. simpl in Ho. subst o.
  rewrite (write_txt_ok path segs w rest E). cbn [fst snd files].
  split; [reflexivity|]. exists (txt_document segs).
  split; [apply lookup_insert_eq|].
  split; [now apply lines_txt_document|]. now intros ->.
Qed.

Lemma write_txt_one_line_per_segment_witness :
  let res := Writers.write_txt "a.txt" [seg_hello; seg_nan] empty_world in
  snd res = Ok tt
  /\ exists doc : string,
       files (fst res) !! "a.txt" = Some doc
       /\ lines doc = ["Hello"; "lost"]
       /\ ([seg_hello; seg_nan] = [] -> doc = "").
Proof.
  refine (write_txt_one_line_per_segment "a.txt" [seg_hello; seg_nan]
            empty_world _ _); reflexivity.
Defined.

(* ===================================================================== *)
(** * Subtitle files and times that cannot be formatted *)
(* ===================================================================== *)

Section StopAtBadCue.

Variable ts : float -> result string.

Lemma for_each_srt_stops (pre : list Segment) (bad : Segment)
    (post : list Segment) (e : exn) (i : Z) (buf : string) :
  forallb (formats ts) pre = true ->
  cue_error ts bad = Some e ->
  for_each (enumerate (pre ++ bad :: post)%list i) (fun '(i, seg) =>
    a <- lift (ts (start seg)) ;;
    b <- lift (ts (end_ seg)) ;;
    f_write (str_int i ++ nl ++ a ++ " --> " ++ b ++ nl
             ++ strip (text seg) ++ nl ++ nl)) buf
  = (buf ++ srt_document ts i pre, Raise e).
Proof.
  intros Hp Hb. revert i buf. induction pre as [|s r IH]; intros i buf.
  - cbn [app enumerate for_each srt_document]. rewrite append_nil_r.
    unfold cue_error in Hb. unfold mbind, lift.
    destruct (ts (start bad)) as [a|e1]; [|now inversion Hb].
    destruct (ts (end_ bad)) as [b|e2]; [discriminate|now inversion Hb].
  - simpl in Hp. apply andb_prop in Hp as [H1 H2].
    destruct (formats_values ts s H1) as [Ea Eb].
    cbn [app enumerate for_each srt_document].
    unfold mbind at 1. unfold mbind at 1. unfold mbind at 1.
    unfold lift at 1. unfold lift at 1. rewrite Ea, Eb. unfold f_write at 1.
    cbv beta iota. rewrite (IH H2). unfold srt_block, timing_line.
    now rewrite !append_assoc.
Qed.

Lemma for_each_vtt_stops (pre : list Segment) (bad : Segment)
    (post : list Segment) (e : exn) (buf : string) :
  forallb (formats ts) pre = true ->
  cue_error ts bad = Some e ->
  for_each (pre ++ bad :: post)%list (fun seg =>
    a <- lift (ts (start seg)) ;;
    b <- lift (ts (end_ seg)) ;;
    f_write (a ++ " --> " ++ b ++ nl ++ strip (text seg) ++ nl ++ nl)) buf
  = (buf ++ vtt_blocks ts pre, Raise e).
Proof.
  intros Hp Hb. revert buf. induction pre as [|s r IH]; intros buf.
  - cbn [app for_each vtt_blocks]. rewrite append_nil_r.
    unfold cue_error in Hb. unfold mbind, lift.
    destruct (ts (start bad)) as [a|e1]; [|now inversion Hb].
    destruct (ts (end_ bad)) as [b|e2]; [discriminate|now inversion Hb].
  - simpl in Hp. apply andb_prop in Hp as [H1 H2].
    destruct (formats_values ts s H1) as [Ea Eb].
    cbn [app for_each vtt_blocks].
    unfold mbind at 1. unfold mbind at 1. unfold mbind at 1.
    unfold lift at 1. unfold lift at 1. rewrite Ea, Eb. unfold f_write at 1.
    cbv beta iota. rewrite (IH H2). unfold vtt_block, timing_line.
    now rewrite !append_assoc.
Qed.

Lemma write_srt_stops (path : string) (pre : list Segment) (bad : Segment)
    (post : list Segment) (e : exn) (w : world) (rest : list io_outcome) :
  next_outcome w = (IoOk, rest) ->
  forallb (formats ts) pre = true ->
  cue_error ts bad = Some e ->
  Writers.write_srt ts path (pre ++ bad :: post)%list w
  = (mkWorld (<[path := srt_document ts 1 pre]> (files w)) (dirs w) rest
             (opens w ++ [path])%list, Raise e).
Proof.
  intros Ho Hp Hb. unfold Writers.write_srt.
  apply with_open_w_ok; [exact Ho|].
  now rewrite (for_each_srt_stops pre bad post e 1 "" Hp Hb).
Qed.

Lemma write_vtt_stops (path : string) (pre : list Segment) (bad : Segment)
    (post : list Segment) (e : exn) (w : world) (rest : list io_outcome) :
  next_outcome w = (IoOk, rest) ->
  forallb (formats ts) pre = true ->
  cue_error ts bad = Some e ->
  Writers.write_vtt ts path (pre ++ bad :: post)%list w
  = (mkWorld (<[path := vtt_document ts pre]> (files w)) (dirs w) rest
             (opens w ++ [path])%list, Raise e).
Proof.
  intros Ho Hp Hb. unfold Writers.write_vtt.
  apply with_open_w_ok; [exact Ho|].
  unfold mbind at 1. unfold f_write at 1. cbv beta iota.
  rewrite (for_each_vtt_stops pre bad post e _ Hp Hb).
  unfold vtt_document. now rewrite !append_assoc.
Qed.

End StopAtBadCue.

(** X7. A time that cannot be formatted stops a subtitle writer in the
    middle of the file: with the file open, [write_srt] and [write_vtt]
    raise the exception of the first such cue (that of its start time if
    that one fails, else that of its end time), and the file is left
    holding the header, if any, and the blocks of the cues before it. *)
Theorem subtitle_writers_stop_at_bad_cue
    (srt_ts vtt_ts : float -> result string) (path : string)
    (pre : list Segment) (bad : Segment) (post : list Segment)
    (e1 e2 : exn) (w : world) :
  fst (next_outcome w) = IoOk ->
  forallb (formats srt_ts) pre = true ->
  forallb (formats vtt_ts) pre = true ->
  cue_error srt_ts bad = Some e1 ->
  cue_error vtt_ts bad = Some e2 ->
  let srt := Writers.write_srt srt_ts path (pre ++ bad :: post)%list w in
  let vtt := Writers.write_vtt vtt_ts path (pre ++ bad :: post)%list w in
  snd srt = Raise e1
  /\ files (fst srt) !! path = Some (srt_document srt_ts 1 pre)
  /\ snd vtt = Raise e2
  /\ files (fst vtt) !! path
     = Some ("WEBVTT" ++ nl ++ nl ++ vtt_blocks vtt_ts pre).
Proof.
  intros Ho Hp1 Hp2 Hb1 Hb2. cbv zeta.
  destruct (next_outcome w) as [o rest] eqn:E. simpl in Ho. subst o.
  rewrite (write_srt_stops srt_ts path pre bad post e1 w rest E Hp1 Hb1).
  rewrite (write_vtt_stops vtt_ts path pre bad post e2 w rest E Hp2 Hb2).
  cbn [fst snd files]. rewrite !lookup_insert_eq. auto.
Qed.

Lemma subtitle_writers_stop_at_bad_cue_witness :
  let srt := Writers.write_srt Cli.srt_ts "a.sub"
               ([seg_hello] ++ seg_nan :: [seg_world])%list empty_world in
  let vtt := Writers.write_vtt Cli.vtt_ts "a.sub"
               ([seg_hello] ++ seg_nan :: [seg_world])%list empty_world in
  snd srt = Raise ValueError
  /\ files (fst srt) !! "a.sub" = Some (srt_document Cli.srt_ts 1 [seg_hello])
  /\ snd vtt = Raise ValueError
  /\ files (fst vtt) !! "a.sub"
     = Some ("WEBVTT" ++ nl ++ nl ++ vtt_blocks Cli.vtt_ts [seg_hello]).
Proof.
  refine (subtitle_writers_stop_at_bad_cue Cli.srt_ts Cli.vtt_ts "a.sub"
            [seg_hello] seg_nan [seg_world] ValueError ValueError
            empty_world _ _ _ _ _); vm_compute; reflexivity.
Defined.

(* ===================================================================== *)
(** * gui_transcribe.py: runs that fail *)
(* ===================================================================== *)

Lemma round_raises (x : float) (e : exn) :
  round x = Raise e -> e = OverflowError \/ e = ValueError.
Proof. destruct x; simpl; try discriminate; intros [= <-]; auto. Qed.

Lemma modf_raises (x : float) (e : exn) :
  modf x = Raise e -> e = OverflowError \/ e = ValueError.
Proof.
  destruct x as [sg|sg| |sg m [|p|p]]; simpl; try discriminate;
    intros [= <-]; auto.
Qed.

Lemma gui_timedelta_raises (s : float) (e : exn) :
  Gui.timedelta s = Raise e -> e = OverflowError \/ e = ValueError.
Proof.
  unfold Gui.timedelta.
  destruct (modf s) as [[f n]|e'] eqn:Em; cbn [bind].
  - destruct (round _) as [u|e''] eqn:Er; cbn [bind].
    + destruct (999999999 <? _)%Z; [intros [= <-]; auto | discriminate].
    + intros [= <-]. exact (round_raises _ _ Er).
  - intros [= <-]. exact (modf_raises _ _ Em).
Qed.

Lemma gui_vtt_ts_raises (s : float) (e : exn) :
  Gui.vtt_ts s = Raise e -> e = OverflowError \/ e = ValueError.
Proof.
  unfold Gui.vtt_ts. destruct (Gui.timedelta s) eqn:Et; cbn [bind];
    [discriminate|]. intros [= <-]. exact (gui_timedelta_raises _ _ Et).
Qed.

Lemma gui_srt_ts_raises (s : float) (e : exn) :
  Gui.srt_ts s = Raise e -> e = OverflowError \/ e = ValueError.
Proof.
  rewrite gui_srt_ts_replace. intros H. apply (gui_vtt_ts_raises s).
  destruct (Gui.vtt_ts s); [discriminate | exact H].
Qed.

Lemma cli_ts_raises (s : float) (sep : string) (e : exn) :
  Cli._format_hhmmss_ms s sep = Raise e -> e = OverflowError \/ e = ValueError.
Proof.
  unfold Cli._format_hhmmss_ms, Cli.total_ms, bind, round.
  destruct (fmul s (float_of_Z 1000)); try discriminate; intros [= <-]; auto.
Qed.

Lemma cue_error_raises (ts : float -> result string) (seg : Segment) (e : exn) :
  (forall s e', ts s = Raise e' -> e' = OverflowError \/ e' = ValueError) ->
  cue_error ts seg = Some e -> e <> OSError.
Proof.
  intros H. unfold cue_error.
  destruct (ts (start seg)) eqn:E1.
  - destruct (ts (end_ seg)) eqn:E2; [discriminate|].
    intros [= <-]. destruct (H _ _ E2) as [-> | ->]; discriminate.
  - intros [= <-]. destruct (H _ _ E1) as [-> | ->]; discriminate.
Qed.

Lemma next_outcome_unscripted (w : world) :
  script w = [] -> next_outcome w = (IoOk, []).
Proof. intros H. unfold next_outcome. now rewrite H. Qed.

(** X8. When the output directory cannot be created, or the model library
    raises, the worker reports the failure and has opened no file and
    changed none; the default directory is not tried in its place. *)
Theorem gui_run_fails_without_writing
    (home : path) (audio_path out_dir : string) (srt vtt : bool)
    (transcribed : result (list Segment)) (w w0 : world) (r : result unit)
    (e : exn) :
  mkdir (Gui.resolve_out home out_dir) w = (w0, r) ->
  r = Raise e \/ (r = Ok tt /\ transcribed = Raise e) ->
  Gui.run home audio_path out_dir srt vtt transcribed w = (w0, Gui.failed e)
  /\ files w0 = files w
  /\ opens w0 = opens w.
Proof.
  intros Hm Hr. destruct (mkdir_frame _ _ _ _ Hm) as (Hf & Ho & _).
  split; [|now split].
  unfold Gui.run, Gui.run_body. unfold mbind at 1. rewrite Hm.
  destruct Hr as [-> | [-> ->]]; reflexivity.
Qed.

Lemma gui_run_fails_without_writing_witness :
  Gui.run home_u "/m/a.wav" "/m" true true (Ok two_segments)
    (mkWorld ∅ ∅ [IoFail] [])
  = (mkWorld ∅ ∅ [] [], Gui.failed OSError)
  /\ files (mkWorld ∅ ∅ [] []) = files (mkWorld ∅ ∅ [IoFail] [])
  /\ opens (mkWorld ∅ ∅ [] []) = opens (mkWorld ∅ ∅ [IoFail] []).
Proof.
  refine (gui_run_fails_without_writing home_u "/m/a.wav" "/m" true true
            (Ok two_segments) (mkWorld ∅ ∅ [IoFail] []) (mkWorld ∅ ∅ [] [])
            (Raise OSError) OSError _ _).
  - vm_compute. reflexivity.
  - left. reflexivity.
Defined.

(** X9. A time that [timedelta] refuses makes the worker report a failure,
    not fall back: with every [open] succeeding and the SRT file asked
    for, the run ends in [failed] with the formatter's exception, which is
    not an [OSError]; the text file is complete, the SRT file holds the
    blocks before the bad cue, and no other file was opened. *)
Theorem gui_run_bad_time_fails
    (home : path) (audio_path out_dir : string) (vtt : bool)
    (pre : list Segment) (bad : Segment) (post : list Segment) (e : exn)
    (w w0 : world) :
  mkdir (Gui.resolve_out home out_dir) w = (w0, Ok tt) ->
  script w0 = [] ->
  forallb (formats Gui.srt_ts) pre = true ->
  cue_error Gui.srt_ts bad = Some e ->
  let segs := (pre ++ bad :: post)%list in
  let out := Gui.resolve_out home out_dir in
  let txt := str_path (joinpath out (stem (Path audio_path) ++ ".txt")) in
  let srt := str_path (joinpath out (stem (Path audio_path) ++ ".srt")) in
  let res := Gui.run home audio_path out_dir true vtt (Ok segs) w in
  snd res = Gui.failed e
  /\ e <> OSError
  /\ opens (fst res) = (opens w ++ [txt; srt])%list
  /\ files (fst res) !! txt = Some (txt_document segs)
  /\ files (fst res) !! srt = Some (srt_document Gui.srt_ts 1 pre).
Proof.
  intros Hm Hs Hp Hb. cbv zeta.
  pose proof (cue_error_raises _ _ _ gui_srt_ts_raises Hb) as He.
  destruct (mkdir_frame _ _ _ _ Hm) as (_ & Ho & _).
  assert (Hne : str_path (joinpath (Gui.resolve_out home out_dir)
                            (stem (Path audio_path) ++ ".txt"))
                <> str_path (joinpath (Gui.resolve_out home out_dir)
                               (stem (Path audio_path) ++ ".srt"))).
  { apply targets_distinct; try reflexivity; [simpl; lia | discriminate]. }
  set (txt := str_path (joinpath (Gui.resolve_out home out_dir)
                          (stem (Path audio_path) ++ ".txt"))) in *.
  set (srt := str_path (joinpath (Gui.resolve_out home out_dir)
                          (stem (Path audio_path) ++ ".srt"))) in *.
  assert (Hrun :
    Gui.run home audio_path out_dir true vtt (Ok (pre ++ bad :: post)%list) w
    = (mkWorld (<[srt := srt_document Gui.srt_ts 1 pre]>
                  (<[txt := txt_document (pre ++ bad :: post)]> (files w0)))
               (dirs w0) [] ((opens w0 ++ [txt]) ++ [srt])%list,
       Gui.failed e)).
  { unfold Gui.run, Gui.run_body. unfold mbind at 1. rewrite Hm.
    unfold mbind at 1. unfold lift at 1. unfold try_except_OSError.
    unfold Gui.write_primary. unfold mbind at 1. unfold Gui.write_txt.
    fold txt. fold srt.
    rewrite (write_txt_ok _ _ w0 [] (next_outcome_unscripted w0 Hs)).
    unfold mbind at 1. unfold Gui.write_srt.
    rewrite (write_srt_stops Gui.srt_ts _ pre bad post e
               (mkWorld _ _ [] _) [] eq_refl Hp Hb).
    cbn [files dirs opens].
    destruct e; try reflexivity. exfalso; apply He; reflexivity. }
  rewrite Hrun. cbn [fst snd opens files]. rewrite Ho, <- app_assoc.
  split; [reflexivity|]. split; [exact He|]. split; [reflexivity|].
  split; [|apply lookup_insert_eq].
  rewrite lookup_insert_ne by (intros H; apply Hne; now symmetry).
  apply lookup_insert_eq.
Qed.

Lemma gui_run_bad_time_fails_witness :
  let segs := ([seg_hello] ++ seg_nan :: [seg_world])%list in
  let res := Gui.run home_u "/m/a.wav" "/m" true true (Ok segs) empty_world in
  snd res = Gui.failed ValueError
  /\ ValueError <> OSError
  /\ opens (fst res) = ([] ++ ["/m/a.txt"; "/m/a.srt"])%list
  /\ files (fst res) !! "/m/a.txt" = Some (txt_document segs)
  /\ files (fst res) !! "/m/a.srt" = Some (srt_document Gui.srt_ts 1 [seg_hello]).
Proof.
  refine (gui_run_bad_time_fails home_u "/m/a.wav" "/m" true [seg_hello]
            seg_nan [seg_world] ValueError empty_world
            (mkWorld ∅ {["/m"]} [] []) _ _ _ _).
  - vm_compute. reflexivity.
  - reflexivity.
  - vm_compute. reflexivity.
  - vm_compute. reflexivity.
Defined.

(* ===================================================================== *)
(** * Runs on a file system that does not fail *)
(* ===================================================================== *)

Lemma formats_cli (sep : string) (segs : list Segment) :
  forallb (formats (fun s => Cli._format_hhmmss_ms s sep)) segs
  = forallb scales_to_ms segs.
Proof.
  induction segs as [|s r IH]; [reflexivity|]. cbn [forallb]. rewrite IH.
  unfold formats, scales_to_ms. now rewrite !cli_format_returns_iff.
Qed.

(** The VTT writer of the command-line tool, on every sequence of
    segments whose times scale to finite milliseconds: it returns, and
    the file is the header, a blank line and one block per segment whose
    timing line is two timestamps of the shape [HH:MM:SS.mmm] around
    the arrow. *)
Lemma cli_write_vtt_period_style (path : string) (segs : list Segment)
    (w : world) :
  fst (next_outcome w) = IoOk ->
  forallb scales_to_ms segs = true ->
  snd (Cli.write_vtt path segs w) = Ok tt
  /\ files (fst (Cli.write_vtt path segs w)) !! path
     = Some ("WEBVTT" ++ nl ++ nl ++ vtt_blocks Cli.vtt_ts segs)
  /\ Forall (fun seg =>
       exists a b : string,
         Cli.vtt_ts (start seg) = Ok a /\ Cli.vtt_ts (end_ seg) = Ok b
         /\ hhmmss_shape "." a /\ hhmmss_shape "." b
         /\ vtt_block Cli.vtt_ts seg
            = a ++ " --> " ++ b ++ nl ++ strip (text seg) ++ nl ++ nl) segs.
Proof.
  intros Ho Hs.
  destruct (next_outcome w) as [o rest] eqn:E. simpl in Ho. subst o.
  pose proof Hs as Hf. rewrite <- (formats_cli ".") in Hf.
  unfold Cli.write_vtt. rewrite (write_vtt_ok _ _ _ _ _ E Hf).
  cbn [fst snd files]. split; [reflexivity|].
  split; [apply lookup_insert_eq|].
  apply List.Forall_forall. intros seg Hin.
  rewrite forallb_forall in Hs. specialize (Hs seg Hin).
  unfold scales_to_ms in Hs. apply andb_prop in Hs as [H1 H2].
  destruct (cli_format_shape (start seg) "." H1) as (t1 & _ & E1 & S1).
  destruct (cli_format_shape (end_ seg) "." H2) as (t2 & _ & E2 & S2).
  exists (Cli.hhmmss_ms t1 "."), (Cli.hhmmss_ms t2 ".").
  unfold Cli.vtt_ts. split; [exact E1|]. split; [exact E2|].
  split; [exact S1|]. split; [exact S2|].
  unfold vtt_block, timing_line, Cli.vtt_ts. rewrite E1, E2. cbn [value].
  now rewrite !append_assoc.
Qed.

Lemma formats_gui_vtt (segs : list Segment) :
  forallb (formats Gui.vtt_ts) segs = forallb (formats Gui.srt_ts) segs.
Proof.
  induction segs as [|s r IH]; [reflexivity|]. cbn [forallb]. rewrite IH.
  unfold formats. rewrite !gui_srt_ts_replace.
  destruct (Gui.vtt_ts (start s)), (Gui.vtt_ts (end_ s)); reflexivity.
Qed.

(** A subtitle writer on a file system without scripted failures: it
    returns exactly when every cue can be formatted, and either way it
    leaves the script empty and the other files as they were. *)
Lemma sub_writer_unscripted (c : M world unit) (path : string) (ok : bool)
    (w : world) :
  writes_to path c ->
  (forall w', c w = (w', Ok tt) -> ok = true) ->
  (ok = true -> exists w', c w = (w', Ok tt) /\ script w' = []) ->
  exists w' r,
    c w = (w', r) /\ is_ok r = ok
    /\ (ok = true -> script w' = [])
    /\ forall p, p <> path -> files w' !! p = files w !! p.
Proof.
  intros Hw Hret Hok. destruct (c w) as [w' r] eqn:E.
  destruct (Hw _ _ _ E) as (_ & _ & Hf).
  exists w', r. split; [reflexivity|].
  destruct ok.
  - destruct (Hok eq_refl) as (w'' & [= <- ->] & Hs). auto.
  - split; [|split; [discriminate | exact Hf]].
    destruct r as [[]|e]; [|reflexivity]. symmetry. now apply (Hret w').
Qed.

Lemma cli_write_srt_unscripted (path : string) (segs : list Segment) (w : world) :
  script w = [] ->
  exists w' r,
    Cli.write_srt path segs w = (w', r)
    /\ is_ok r = forallb scales_to_ms segs
    /\ (forallb scales_to_ms segs = true -> script w' = [])
    /\ forall p, p <> path -> files w' !! p = files w !! p.
Proof.
  intros Hs. apply sub_writer_unscripted.
  - apply write_srt_writes_to.
  - intros w' H. apply write_srt_returns in H as [H _].
    unfold Cli.srt_ts in H. now rewrite <- (formats_cli ",").
  - intros H. rewrite <- (formats_cli ",") in H. eexists. split.
    + apply write_srt_ok; [now apply next_outcome_unscripted | exact H].
    + reflexivity.
Qed.

Lemma cli_write_vtt_unscripted (path : string) (segs : list Segment) (w : world) :
  script w = [] ->
  exists w' r,
    Cli.write_vtt path segs w = (w', r)
    /\ is_ok r = forallb scales_to_ms segs
    /\ (forallb scales_to_ms segs = true -> script w' = [])
    /\ forall p, p <> path -> files w' !! p = files w !! p.
Proof.
  intros Hs. apply sub_writer_unscripted.
  - apply write_vtt_writes_to.
  - intros w' H. apply write_vtt_returns in H as [H _].
    unfold Cli.vtt_ts in H. now rewrite <- (formats_cli ".").
  - intros H. rewrite <- (formats_cli ".") in H. eexists. split.
    + apply write_vtt_ok; [now apply next_outcome_unscripted | exact H].
    + reflexivity.
Qed.

Lemma ext_differs (b e1 e2 : string) :
  String.length e1 = String.length e2 -> e1 <> e2 -> b ++ e1 <> b ++ e2.
Proof. intros Hl Hn H. apply Hn. exact (append_suffix_inj b b e1 e2 Hl H). Qed.

Lemma cli_main_unscripted (base : string) (srt vtt : bool)
    (segs : list Segment) (w : world) :
  script w = [] ->
  exists w' r,
    Cli.main base srt vtt segs w = (w', r)
    /\ is_ok r = negb (srt || vtt) || forallb scales_to_ms segs
    /\ files w' !! (base ++ ".txt") = Some (txt_document segs).
Proof.
  intros Hs. rewrite cli_main_three. unfold three_writes.
  unfold mbind at 1. unfold Cli.write_txt.
  rewrite (write_txt_ok _ segs w [] (next_outcome_unscripted w Hs)).
  set (w1 := mkWorld _ _ _ _).
  assert (Hs1 : script w1 = []) by reflexivity.
  assert (Ht1 : files w1 !! (base ++ ".txt") = Some (txt_document segs))
    by apply lookup_insert_eq.
  assert (N12 : base ++ ".txt" <> base ++ ".srt")
    by (apply ext_differs; [reflexivity | discriminate]).
  assert (N13 : base ++ ".txt" <> base ++ ".vtt")
    by (apply ext_differs; [reflexivity | discriminate]).
  clearbody w1.
  destruct (cli_write_srt_unscripted (base ++ ".srt") segs w1 Hs1)
    as (w2 & r2 & E2 & K2 & S2 & F2).
  destruct srt; unfold mbind at 1.
  - rewrite E2. destruct r2 as [[]|e2]; simpl in K2.
    + rewrite <- K2. rewrite orb_true_r.
      destruct (cli_write_vtt_unscripted (base ++ ".vtt") segs w2 (S2 (eq_sym K2)))
        as (w3 & r3 & E3 & K3 & S3 & F3).
      destruct vtt.
      * rewrite E3. destruct r3 as [[]|e3]; [|simpl in K3; congruence].
        eexists _, _. split; [reflexivity|]. split; [reflexivity|].
        rewrite F3, F2 by assumption. exact Ht1.
      * cbn [ret]. eexists _, _. split; [reflexivity|]. split; [reflexivity|].
        rewrite F2 by assumption. exact Ht1.
    + rewrite <- K2. eexists _, _. split; [reflexivity|]. split; [reflexivity|].
      rewrite F2 by assumption. exact Ht1.
  - cbn [ret].
    destruct (cli_write_vtt_unscripted (base ++ ".vtt") segs w1 Hs1)
      as (w3 & r3 & E3 & K3 & S3 & F3).
    destruct vtt.
    + rewrite E3. rewrite <- K3.
      destruct r3 as [[]|e3]; (eexists _, _; split; [reflexivity|]);
        (split; [reflexivity|]); rewrite F3 by assumption; exact Ht1.
    + eexists _, _. split; [reflexivity|]. split; [reflexivity | exact Ht1].
Qed.

(** X10. On a file system where every [open] succeeds, the end of [main]
    returns exactly when no subtitle file is asked for or the times of all
    segments, scaled to milliseconds, are finite; and whether it returns
    or raises, the text file holds the whole transcript. *)
Theorem cli_main_returns_iff (base : string) (srt vtt : bool)
    (segs : list Segment) (w : world) :
  script w = [] ->
  let res := Cli.main base srt vtt segs w in
  is_ok (snd res) = negb (srt || vtt) || forallb scales_to_ms segs
  /\ files (fst res) !! (base ++ ".txt") = Some (txt_document segs).
Proof.
  intros Hs. cbv zeta.
  destruct (cli_main_unscripted base srt vtt segs w Hs) as (w' & r & -> & H).
  exact H.
Qed.

Lemma cli_main_returns_iff_witness :
  let res := Cli.main "a" true false [seg_hello; seg_nan] empty_world in
  is_ok (snd res)
  = negb (true || false) || forallb scales_to_ms [seg_hello; seg_nan]
  /\ files (fst res) !! ("a" ++ ".txt") = Some (txt_document [seg_hello; seg_nan]).
Proof.
  refine (cli_main_returns_iff "a" true false [seg_hello; seg_nan]
            empty_world _). reflexivity.
Defined.

Lemma three_writes_unscripted (c1 c2 c3 : M world unit) (srt vtt : bool) :
  returns_unscripted c1 ->
  (srt = true -> returns_unscripted c2) ->
  (vtt = true -> returns_unscripted c3) ->
  returns_unscripted (three_writes c1 c2 c3 srt vtt).
Proof.
  intros H1 H2 H3 w Hs. unfold three_writes.
  destruct (H1 w Hs) as (w1 & E1 & S1).
  unfold mbind at 1. rewrite E1.
  assert (K2 : exists w2, (if srt then c2 else ret tt) w1 = (w2, Ok tt)
                          /\ script w2 = []).
  { destruct srt; [apply (H2 eq_refl), S1 | now exists w1]. }
  destruct K2 as (w2 & E2 & S2). unfold mbind. rewrite E2.
  destruct vtt; [apply (H3 eq_refl), S2 | now exists w2].
Qed.

Lemma write_txt_unscripted (path : string) (segs : list Segment) :
  returns_unscripted (Writers.write_txt path segs).
Proof.
  intros w Hs. eexists. split.
  - apply write_txt_ok. now apply next_outcome_unscripted.
  - reflexivity.
Qed.

Lemma write_srt_unscripted (ts : float -> result string) (path : string)
    (segs : list Segment) :
  forallb (formats ts) segs = true ->
  returns_unscripted (Writers.write_srt ts path segs).
Proof.
  intros H w Hs. eexists. split.
  - apply write_srt_ok; [now apply next_outcome_unscripted | exact H].
  - reflexivity.
Qed.

Lemma write_vtt_unscripted (ts : float -> result string) (path : string)
    (segs : list Segment) :
  forallb (formats ts) segs = true ->
  returns_unscripted (Writers.write_vtt ts path segs).
Proof.
  intros H w Hs. eexists. split.
  - apply write_vtt_ok; [now apply next_outcome_unscripted | exact H].
  - reflexivity.
Qed.

(** The three writes of the GUI under a directory return on a file system
    without scripted failures, when every subtitle file asked for can be
    formatted. *)
Lemma gui_three_unscripted (dir : path) (base : string) (srt vtt : bool)
    (segs : list Segment) :
  negb (srt || vtt) || forallb (formats Gui.srt_ts) segs = true ->
  returns_unscripted
    (three_writes
       (Gui.write_txt (str_path (joinpath dir (base ++ ".txt"))) segs)
       (Gui.write_srt (str_path (joinpath dir (base ++ ".srt"))) segs)
       (Gui.write_vtt (str_path (joinpath dir (base ++ ".vtt"))) segs)
       srt vtt).
Proof.
  intros H. apply three_writes_unscripted.
  - apply write_txt_unscripted.
  - intros ->. apply write_srt_unscripted. exact H.
  - intros ->. apply write_vtt_unscripted. rewrite formats_gui_vtt.
    rewrite orb_true_r in H. exact H.
Qed.

(** X11. When the output directory can be created, every [open] succeeds
    and [timedelta] accepts every time, the worker ends with [done] and
    the manifest of the resolved directory: the fallback is not used, the
    files opened are exactly the requested ones, in order, and each holds
    its document. *)
Theorem gui_run_succeeds
    (home : path) (audio_path out_dir : string) (srt vtt : bool)
    (segs : list Segment) (w w0 : world) :
  mkdir (Gui.resolve_out home out_dir) w = (w0, Ok tt) ->
  script w0 = [] ->
  forallb (formats Gui.srt_ts) segs = true ->
  let out := Gui.resolve_out home out_dir in
  let base := stem (Path audio_path) in
  let res := Gui.run home audio_path out_dir srt vtt (Ok segs) w in
  snd res = Gui.done ("Wrote: " ++ join ", " (gui_targets out base srt vtt))
  /\ opens (fst res) = (opens w ++ gui_targets out base srt vtt)%list
  /\ gui_holds (files (fst res)) out base srt vtt segs.
Proof.
  intros Hm Hs Hf. cbv zeta.
  destruct (mkdir_frame _ _ _ _ Hm) as (_ & Ho & _).
  rewrite (gui_run_cases home audio_path out_dir srt vtt segs w w0 Hm).
  destruct (three_writes_unscripted _ _ _ srt vtt
              (write_txt_unscripted
                 (str_path (joinpath (Gui.resolve_out home out_dir)
                              (stem (Path audio_path) ++ ".txt"))) segs)
              (fun _ => write_srt_unscripted Gui.srt_ts
                 (str_path (joinpath (Gui.resolve_out home out_dir)
                              (stem (Path audio_path) ++ ".srt"))) segs Hf)
              (fun _ => write_vtt_unscripted Gui.vtt_ts
                 (str_path (joinpath (Gui.resolve_out home out_dir)
                              (stem (Path audio_path) ++ ".vtt"))) segs
                 (eq_trans (formats_gui_vtt segs) Hf))
              w0 Hs) as (w1 & E1 & _).
  pose proof (gui_primary_three (Gui.resolve_out home out_dir)
                (stem (Path audio_path)) srt vtt segs w0) as Hp.
  unfold Gui.write_txt, Gui.write_srt, Gui.write_vtt in Hp.
  rewrite E1 in Hp.
  destruct (gui_primary_spec _ _ _ _ _ _ _ _ Hp) as (_ & _ & k & _ & Hop & Hk).
  destruct (Hk eq_refl) as (-> & _ & Hh).
  rewrite Hp. cbn [fst snd]. rewrite firstn_all in Hop.
  split; [reflexivity|]. split; [now rewrite Hop, Ho | exact Hh].
Qed.

Lemma gui_run_succeeds_witness :
  let res := Gui.run home_u "/m/a.wav" "/m" true true (Ok two_segments)
               empty_world in
  snd res = Gui.done ("Wrote: " ++ join ", " (gui_targets (Gui.resolve_out home_u "/m") (stem (Path "/m/a.wav")) true true))
  /\ opens (fst res)
     = ([] ++ gui_targets (Gui.resolve_out home_u "/m") (stem (Path "/m/a.wav")) true true)%list
  /\ gui_holds (files (fst res)) (Gui.resolve_out home_u "/m")
       (stem (Path "/m/a.wav")) true true two_segments.
Proof.
  refine (gui_run_succeeds home_u "/m/a.wav" "/m" true true two_segments
            empty_world (mkWorld ∅ {["/m"]} [] []) _ _ _).
  - vm_compute. reflexivity.
  - reflexivity.
  - vm_compute. reflexivity.
Defined.

(* ===================================================================== *)
(** * transcribe.py: what [main] prints *)
(* ===================================================================== *)

Lemma for_each_listing (segs : list Segment) (out : list string) (w : world) :
  forallb (formats Cli.srt_ts) segs = true ->
  for_each segs (fun seg =>
    a <- lift (Cli.srt_ts (start seg)) ;;
    b <- lift (Cli.srt_ts (end_ seg)) ;;
    CliShell.print ("[" ++ a ++ " -> " ++ b ++ "] " ++ strip (text seg)))
    (out, w)
  = ((out ++ map listing_line segs)%list, w, Ok tt).
Proof.
  revert out. induction segs as [|s r IH]; intros out H.
  - cbn [for_each map]. now rewrite app_nil_r.
  - simpl in H. apply andb_prop in H as [H1 H2].
    destruct (formats_values _ s H1) as [Ea Eb].
    cbn [for_each map]. unfold mbind at 1. unfold mbind at 1.
    unfold mbind at 1. unfold lift at 1. unfold lift at 1.
    rewrite Ea, Eb. unfold CliShell.print at 1. cbv beta iota.
    rewrite (IH _ H2). now rewrite <- app_assoc.
Qed.

Lemma for_each_listing_stops (pre : list Segment) (bad : Segment)
    (post : list Segment) (e : exn) (out : list string) (w : world) :
  forallb (formats Cli.srt_ts) pre = true ->
  cue_error Cli.srt_ts bad = Some e ->
  for_each (pre ++ bad :: post)%list (fun seg =>
    a <- lift (Cli.srt_ts (start seg)) ;;
    b <- lift (Cli.srt_ts (end_ seg)) ;;
    CliShell.print ("[" ++ a ++ " -> " ++ b ++ "] " ++ strip (text seg)))
    (out, w)
  = ((out ++ map listing_line pre)%list, w, Raise e).
Proof.
  revert out. induction pre as [|s r IH]; intros out H Hb.
  - cbn [app for_each map]. rewrite app_nil_r.
    unfold cue_error in Hb. unfold mbind, lift.
    destruct (Cli.srt_ts (start bad)) as [a|e1]; [|now inversion Hb].
    destruct (Cli.srt_ts (end_ bad)) as [b|e2]; [discriminate|now inversion Hb].
  - simpl in H. apply andb_prop in H as [H1 H2].
    destruct (formats_values _ s H1) as [Ea Eb].
    cbn [app for_each map]. unfold mbind at 1. unfold mbind at 1.
    unfold mbind at 1. unfold lift at 1. unfold lift at 1.
    rewrite Ea, Eb. unfold CliShell.print at 1. cbv beta iota.
    rewrite (IH _ H2 Hb). now rewrite <- app_assoc.
Qed.

Lemma for_each_print (ls out : list string) (w : world) :
  for_each ls CliShell.print (out, w) = ((out ++ ls)%list, w, Ok tt).
Proof.
  revert out. induction ls as [|l r IH]; intros out.
  - cbn [for_each]. now rewrite app_nil_r.
  - cbn [for_each]. unfold mbind at 1. unfold CliShell.print at 1.
    cbv beta iota. rewrite IH. now rewrite <- app_assoc.
Qed.

(** X12. With [--timestamps], a segment whose time cannot be formatted
    ends [main] while the segments are listed: the lines of the segments
    before it are printed, the exception of that segment is raised, and
    the file system is untouched; not even the text file is opened. *)
Theorem cli_listing_fails_before_writing
    (base : string) (srt vtt : bool) (info_lines : list string)
    (pre : list Segment) (bad : Segment) (post : list Segment) (e : exn)
    (out : list string) (w : world) :
  forallb scales_to_ms pre = true ->
  cue_error Cli.srt_ts bad = Some e ->
  CliShell.main_tail true base srt vtt info_lines (pre ++ bad :: post)%list
    (out, w)
  = ((out ++ map listing_line pre)%list, w, Raise e).
Proof.
  intros Hp Hb. rewrite <- (formats_cli ",") in Hp.
  unfold CliShell.main_tail. unfold mbind at 1.
  now rewrite (for_each_listing_stops pre bad post e out w Hp Hb).
Qed.

Lemma cli_listing_fails_before_writing_witness :
  CliShell.main_tail true "a" false false []
    ([seg_hello] ++ seg_nan :: [seg_world])%list ([], empty_world)
  = (([] ++ map listing_line [seg_hello])%list, empty_world, Raise ValueError).
Proof.
  refine (cli_listing_fails_before_writing "a" false false [] [seg_hello]
            seg_nan [seg_world] ValueError [] empty_world _ _);
    vm_compute; reflexivity.
Defined.

(** X13. On a file system where every [open] succeeds and with times that
    scale to finite milliseconds, the end of [main] returns and has
    printed, in this order: with [--timestamps] one line
    [[start -> end] text] per segment, formatted as in the SRT file; the
    lines on language and duration; and last the line [Wrote: ] with the
    files written, separated by a comma and a space. *)
Theorem cli_main_prints (timestamps : bool) (base : string) (srt vtt : bool)
    (info_lines : list string) (segs : list Segment) (out : list string)
    (w : world) :
  script w = [] ->
  forallb scales_to_ms segs = true ->
  let res := CliShell.main_tail timestamps base srt vtt info_lines segs
               (out, w) in
  snd res = Ok tt
  /\ fst (fst res)
     = (out ++ (if timestamps then map listing_line segs else [])
            ++ info_lines
            ++ [("Wrote: " ++ join ", " (cli_targets base srt vtt))%string])%list.
Proof.
  intros Hs Hf. cbv zeta.
  assert (Hl : (if timestamps then
                  for_each segs (fun seg =>
                    a <- lift (Cli.srt_ts (start seg)) ;;
                    b <- lift (Cli.srt_ts (end_ seg)) ;;
                    CliShell.print ("[" ++ a ++ " -> " ++ b ++ "] "
                                    ++ strip (text seg)))
                else ret tt) (out, w)
               = ((out ++ (if timestamps then map listing_line segs else []))%list,
                  w, Ok tt)).
  { destruct timestamps.
    - apply for_each_listing. now rewrite (formats_cli ",").
    - unfold ret. now rewrite app_nil_r. }
  destruct (cli_main_unscripted base srt vtt segs w Hs) as (w' & r & Em & Hr & _).
  rewrite Hf, orb_true_r in Hr. destruct r as [wrote|e]; [|discriminate].
  assert (Hw : wrote = cli_targets base srt vtt).
  { rewrite cli_main_three in Em.
    destruct (three_writes _ _ _ _ _ _) as [w'' [[]|e]]; congruence. }
  subst wrote.
  assert (Hrun : CliShell.main_tail timestamps base srt vtt info_lines segs
                   (out, w)
                 = ((((out ++ (if timestamps then map listing_line segs else []))
                      ++ info_lines)
                     ++ [Cli.summary (cli_targets base srt vtt)])%list,
                    w', Ok tt)).
  { unfold CliShell.main_tail. unfold mbind at 1. rewrite Hl.
    unfold mbind at 1. unfold CliShell.in_world at 1. rewrite Em.
    unfold mbind at 1. rewrite for_each_print. reflexivity. }
  rewrite Hrun. cbn [fst snd]. split; [reflexivity|].
  unfold Cli.summary. now rewrite <- !app_assoc.
Qed.

Lemma cli_main_prints_witness :
  let res := CliShell.main_tail true "a" true false
               ["Language: en | Prob: 0.998"] two_segments ([], empty_world) in
  snd res = Ok tt
  /\ fst (fst res)
     = ([] ++ (if true then map listing_line two_segments else [])
           ++ ["Language: en | Prob: 0.998"]
           ++ [("Wrote: " ++ join ", " (cli_targets "a" true false))%string])%list.
Proof.
  refine (cli_main_prints true "a" true false ["Language: en | Prob: 0.998"]
            two_segments [] empty_world _ _); vm_compute; reflexivity.
Defined.

(* ===================================================================== *)
(** * transcribe.py: the base name *)
(* ===================================================================== *)

Lemma rfind_bounds (c : ascii) (s : string) :
  -1 <= rfind c s < Z.of_nat (String.length s).
Proof.
  induction s as [|x r IH]; cbn [rfind String.length]; [lia|].
  destruct (rfind c r <? 0)%Z eqn:E.
  - destruct (Ascii.eqb x c); lia.
  - apply Z.ltb_ge in E. lia.
Qed.

Lemma rfind_slash_free (s : string) :
  slash_free s = true -> rfind "/" s = -1.
Proof.
  induction s as [|x r IH]; cbn [rfind slash_free]; [reflexivity|].
  intros H. apply andb_prop in H as [H1 H2]. rewrite (IH H2).
  apply negb_true_iff in H1. now rewrite H1.
Qed.

Lemma rfind_last_slash (d x : string) :
  slash_free x = true ->
  rfind "/" (d ++ "/" ++ x) = Z.of_nat (String.length d).
Proof.
  intros H. induction d as [|c d' IH].
  - cbn [String.append rfind String.length].
    change ("/" ++ x) with (String "/" x). cbn [rfind].
    rewrite (rfind_slash_free x H). reflexivity.
  - change (String c d' ++ "/" ++ x) with (String c (d' ++ "/" ++ x)).
    cbn [rfind String.length]. rewrite IH.
    destruct (Z.of_nat (String.length d') <? 0)%Z eqn:E;
      [apply Z.ltb_lt in E; lia | lia].
Qed.

Lemma substring_all (s : string) : substring 0 (String.length s) s = s.
Proof. induction s as [|c r IH]; cbn; [reflexivity | now rewrite IH]. Qed.

Lemma substring_skip (a b : string) :
  substring (String.length a) (String.length b) (a ++ b) = b.
Proof.
  induction a as [|c r IH]; cbn [String.append String.length].
  - apply substring_all.
  - change (String c r ++ b) with (String c (r ++ b)). cbn [substring]. exact IH.
Qed.

Lemma split_last_slash (p : string) :
  slash_free p = true
  \/ exists d x : string, p = d ++ "/" ++ x /\ slash_free x = true.
Proof.
  induction p as [|c r [IH | (d & x & -> & Hx)]].
  - now left.
  - cbn [slash_free]. destruct (Ascii.eqb c "/") eqn:E.
    + right. apply Ascii.eqb_eq in E. subst c. now exists "", r.
    + left. now rewrite IH.
  - right. exists (String c d), x. now split.
Qed.

Lemma basename_free (x : string) : slash_free x = true -> basename x = x.
Proof.
  intros H. unfold basename, slice_from. rewrite (rfind_slash_free x H).
  cbn [Z.add Z.to_nat]. rewrite Nat.sub_0_r. apply substring_all.
Qed.

Lemma basename_last (d x : string) :
  slash_free x = true -> basename (d ++ "/" ++ x) = x.
Proof.
  intros H. unfold basename, slice_from. rewrite (rfind_last_slash d x H).
  replace (Z.to_nat (Z.of_nat (String.length d) + 1))
    with (String.length (d ++ "/")) by (rewrite length_append; simpl; lia).
  rewrite <- append_assoc.
  replace (String.length ((d ++ "/") ++ x) - String.length (d ++ "/"))%nat
    with (String.length x) by (rewrite (length_append (d ++ "/")); lia).
  apply substring_skip.
Qed.

Lemma slash_free_substring (n : nat) (s : string) :
  slash_free s = true -> slash_free (substring 0 n s) = true.
Proof.
  revert n. induction s as [|c r IH]; intros [|n] H; try reflexivity.
  cbn [substring slash_free] in *. apply andb_prop in H as [H1 H2].
  now rewrite H1, IH.
Qed.

Lemma substring_prefix (n : nat) (s : string) :
  exists t : string, s = substring 0 n s ++ t.
Proof.
  revert n. induction s as [|c r IH]; intros [|n].
  - now exists "".
  - now exists "".
  - now exists (String c r).
  - destruct (IH n) as [t Ht]. exists t. cbn [substring].
    change (String c (substring 0 n r) ++ t)
      with (String c (substring 0 n r ++ t)). now rewrite <- Ht.
Qed.

Lemma splitext_prefix (x : string) :
  exists ext : string, x = fst (splitext x) ++ ext.
Proof.
  unfold splitext. destruct (_ && _).
  - cbn [fst]. apply substring_prefix.
  - exists "". cbn [fst]. now rewrite append_nil_r.
Qed.

Lemma slash_free_splitext (x : string) :
  slash_free x = true -> slash_free (fst (splitext x)) = true.
Proof.
  intros H. unfold splitext. destruct (_ && _); cbn [fst]; [|exact H].
  now apply slash_free_substring.
Qed.

(** X14. Without [--output], or with an empty one, the base name of line
    72 holds no slash, so the files are written in the working directory,
    wherever the audio file is: the audio path is a directory prefix that
    is empty or ends with a slash, then the base name, then the rest of
    the file name. A non-empty [--output] is taken as it is. *)
Theorem cli_base_name_in_cwd (output : option string) (audio : string) :
  (output = None \/ output = Some "" ->
     slash_free (CliShell.base_name output audio) = true
     /\ exists dir ext : string,
          audio = dir ++ CliShell.base_name output audio ++ ext
          /\ slash_free ext = true
          /\ (dir = "" \/ exists d : string, dir = d ++ "/"))
  /\ (forall o : string, o <> "" -> CliShell.base_name (Some o) audio = o).
Proof.
  split.
  - intros Ho.
    assert (Hb : CliShell.base_name output audio = fst (splitext (basename audio)))
      by (destruct Ho as [-> | ->]; reflexivity).
    rewrite Hb.
    destruct (split_last_slash audio) as [Hf | (d & x & -> & Hx)].
    + rewrite (basename_free audio Hf). split; [now apply slash_free_splitext|].
      destruct (splitext_prefix audio) as [ext He].
      exists "", ext. split; [exact He|]. split; [|now left].
      rewrite He in Hf. clear He. revert Hf.
      generalize (fst (splitext audio)). intros b.
      induction b as [|c b IH]; cbn; [auto|].
      intros H. apply andb_prop in H as [_ H]. now apply IH.
    + rewrite (basename_last d x Hx). split; [now apply slash_free_splitext|].
      destruct (splitext_prefix x) as [ext He].
      exists (d ++ "/"), ext. split; [|split; [|right; now exists d]].
      * rewrite append_assoc. now rewrite <- He.
      * rewrite He in Hx. clear He. revert Hx.
        generalize (fst (splitext x)). intros b.
        induction b as [|c b IH]; cbn; [auto|].
        intros H. apply andb_prop in H as [_ H]. now apply IH.
  - intros o Ho. unfold CliShell.base_name.
    apply String.eqb_neq in Ho. now rewrite Ho.
Qed.

Lemma rfind_dot_rfind (s : string) :
  rfind "." s = match rfind_dot s with Some i => Z.of_nat i | None => -1 end.
Proof.
  induction s as [|c r IH]; cbn [rfind rfind_dot]; [reflexivity|].
  rewrite IH. destruct (rfind_dot r) as [i|].
  - destruct (Z.of_nat i <? 0)%Z eqn:E; [apply Z.ltb_lt in E; lia | lia].
  - cbn. destruct (Ascii.eqb c "."); reflexivity.
Qed.

Lemma rfind_dot_get (s : string) (i : nat) :
  rfind_dot s = Some i -> get i s = Some "."%char.
Proof.
  revert i. induction s as [|c r IH]; intros i; cbn [rfind_dot]; [discriminate|].
  destruct (rfind_dot r) as [j|].
  - intros [= <-]. cbn [get]. now apply IH.
  - destruct (Ascii.eqb c ".") eqn:E; [|discriminate].
    intros [= <-]. apply Ascii.eqb_eq in E. now subst c.
Qed.

Lemma get_length (s : string) (i : nat) (c : ascii) :
  get i s = Some c -> (i < String.length s)%nat.
Proof.
  revert i. induction s as [|x r IH]; intros [|i]; cbn; try discriminate; try lia.
  intros H. apply IH in H. lia.
Qed.

Lemma split_slash_aux_last (d x cur : string) :
  slash_free x = true ->
  exists init : list string,
    split_slash_aux (d ++ "/" ++ x) cur = (init ++ [x])%list.
Proof.
  intros H. revert cur. induction d as [|c d' IH]; intros cur.
  - cbn [String.append]. change ("/" ++ x) with (String "/" x).
    cbn [split_slash_aux]. change (Ascii.eqb "/" "/") with true. cbv iota.
    rewrite (split_slash_aux_free x "" H). now exists [cur].
  - change (String c d' ++ "/" ++ x) with (String c (d' ++ "/" ++ x)).
    cbn [split_slash_aux]. destruct (Ascii.eqb c "/").
    + destruct (IH "") as [init Hi]. rewrite Hi. now exists (cur :: init).
    + apply IH.
Qed.

Lemma name_of_path (audio x : string) :
  slash_free x = true -> keep_part x = true ->
  audio = x \/ (exists d : string, audio = d ++ "/" ++ x) ->
  last (parts (Path audio)) = Some x.
Proof.
  intros Hx Hk Ha. unfold Path. cbn [parts]. unfold split_slash.
  destruct Ha as [-> | (d & ->)].
  - rewrite (split_slash_aux_free x "" Hx). cbn [String.append List.filter].
    now rewrite Hk.
  - destruct (split_slash_aux_last d x "" Hx) as [init ->].
    rewrite List.filter_app. cbn [List.filter]. rewrite Hk.
    apply last_snoc.
Qed.

(** X15. For an ordinary file name the two programs name their files
    alike: when the last component of the audio path neither starts nor
    ends with a period, the base name of the command-line tool (without
    [--output]) is the stem the GUI worker takes. *)
Theorem cli_and_gui_base_agree (audio x : string) :
  audio = x \/ (exists d : string, audio = d ++ "/" ++ x) ->
  slash_free x = true ->
  x <> "" ->
  get 0 x <> Some "."%char ->
  get (String.length x - 1) x <> Some "."%char ->
  CliShell.base_name None audio = stem (Path audio).
Proof.
  intros Ha Hx Hne H0 Hl.
  assert (Hk : keep_part x = true).
  { unfold keep_part. apply negb_true_iff, orb_false_iff. split.
    - now apply String.eqb_neq.
    - apply String.eqb_neq. intros ->. now apply H0. }
  unfold stem. rewrite (name_of_path audio x Hx Hk Ha).
  change (default "" (Some x)) with x.
  unfold CliShell.base_name.
  assert (Hb : basename audio = x).
  { destruct Ha as [-> | (d & ->)];
      [now apply basename_free | now apply basename_last]. }
  rewrite Hb. unfold splitext. rewrite (rfind_slash_free x Hx).
  rewrite rfind_dot_rfind.
  destruct (rfind_dot x) as [i|] eqn:Ei; [|reflexivity].
  pose proof (rfind_dot_get x i Ei) as Hg.
  pose proof (get_length x i _ Hg) as Hlen.
  assert (Hi : (0 < i)%nat).
  { destruct i; [congruence | lia]. }
  assert (Hi2 : (i < String.length x - 1)%nat).
  { destruct (Nat.eq_dec i (String.length x - 1)%nat) as [-> | ?];
      [congruence | lia]. }
  replace (-1 <? Z.of_nat i)%Z with true by (symmetry; apply Z.ltb_lt; lia).
  replace (Z.to_nat (Z.of_nat i - (-1 + 1))) with i by lia.
  change (Z.to_nat (-1 + 1)) with 0%nat.
  assert (Hbd : before_dot x 0 i = true).
  { destruct i as [|i']; [lia|]. cbn [before_dot].
    destruct (get 0 x) as [c|] eqn:E0; [|reflexivity].
    destruct (Ascii.eqb c ".") eqn:Ec; [|reflexivity].
    apply Ascii.eqb_eq in Ec. subst c. now exfalso. }
  rewrite Hbd. cbn [andb fst]. unfold slice_to. rewrite Nat2Z.id.
  apply Nat.ltb_lt in Hi, Hi2. now rewrite Hi, Hi2.
Qed.

Lemma cli_and_gui_base_agree_witness :
  CliShell.base_name None "/m/talk.part1.wav" = stem (Path "/m/talk.part1.wav").
Proof.
  refine (cli_and_gui_base_agree "/m/talk.part1.wav" "talk.part1.wav" _ _ _ _ _).
  - right. exists "/m". reflexivity.
  - reflexivity.
  - discriminate.
  - discriminate.
  - discriminate.
Defined.

(* ===================================================================== *)
(** * Paths: text and back *)
(* ===================================================================== *)

Lemma slash_free_append (a b : string) :
  slash_free (a ++ b) = slash_free a && slash_free b.
Proof.
  induction a as [|c r IH]; [reflexivity|].
  change (String c r ++ b) with (String c (r ++ b)). cbn [slash_free].
  now rewrite IH, andb_assoc.
Qed.

Lemma split_slash_aux_parts (s cur : string) :
  slash_free cur = true ->
  forallb slash_free (split_slash_aux s cur) = true.
Proof.
  revert cur. induction s as [|c r IH]; intros cur Hc; cbn [split_slash_aux].
  - cbn. now rewrite Hc.
  - destruct (Ascii.eqb c "/") eqn:E.
    + cbn [forallb]. rewrite Hc. now apply IH.
    + apply IH. rewrite slash_free_append, Hc. cbn. now rewrite E.
Qed.

Lemma forallb_filter_ok (l : list string) :
  forallb slash_free l = true ->
  forallb part_ok (List.filter keep_part l) = true.
Proof.
  induction l as [|x r IH]; [reflexivity|]. cbn [forallb List.filter].
  intros H. apply andb_prop in H as [H1 H2].
  destruct (keep_part x) eqn:K; [|now apply IH].
  cbn [forallb]. unfold part_ok at 1. now rewrite K, H1, IH.
Qed.

Lemma Path_wf (s : string) : wf_path (Path s).
Proof.
  split.
  - unfold Path. cbn [root].
    destruct (leading_slashes s) as [|[|[|n]]]; auto.
  - unfold Path. cbn [parts]. apply forallb_filter_ok.
    now apply split_slash_aux_parts.
Qed.

Lemma split_slash_aux_app_slash (x rest cur : string) :
  slash_free x = true ->
  split_slash_aux (x ++ "/" ++ rest) cur
  = (cur ++ x) :: split_slash_aux rest "".
Proof.
  revert cur. induction x as [|c r IH]; intros cur H.
  - cbn [String.append]. change ("/" ++ rest) with (String "/" rest).
    cbn [split_slash_aux]. change (Ascii.eqb "/" "/") with true.
    now rewrite append_nil_r.
  - cbn [slash_free] in H. apply andb_prop in H as [H1 H2].
    apply negb_true_iff in H1.
    change (String c r ++ "/" ++ rest) with (String c (r ++ "/" ++ rest)).
    cbn [split_slash_aux]. rewrite H1, (IH _ H2).
    now rewrite append_assoc.
Qed.

Lemma split_slash_join (x : string) (ps : list string) (cur : string) :
  forallb slash_free (x :: ps) = true ->
  split_slash_aux (join "/" (x :: ps)) cur = (cur ++ x) :: ps.
Proof.
  revert x cur. induction ps as [|y r IH]; intros x cur H;
    cbn [forallb] in H; apply andb_prop in H as [Hx Hr].
  - cbn [join]. now apply split_slash_aux_free.
  - change (join "/" (x :: y :: r)) with (x ++ "/" ++ join "/" (y :: r)).
    rewrite (split_slash_aux_app_slash _ _ _ Hx). now rewrite (IH y "" Hr).
Qed.

Lemma part_ok_all (ps : list string) :
  forallb part_ok ps = true ->
  forallb slash_free ps = true /\ List.filter keep_part ps = ps.
Proof.
  induction ps as [|x r IH]; [now split|]. cbn [forallb List.filter].
  intros H. apply andb_prop in H as [H1 H2]. unfold part_ok in H1.
  apply andb_prop in H1 as [K F]. destruct (IH H2) as [A B].
  now rewrite K, F, A, B.
Qed.

Lemma part_ok_head (x : string) :
  part_ok x = true ->
  exists c r, x = String c r /\ Ascii.eqb c "/" = false.
Proof.
  unfold part_ok, keep_part. destruct x as [|c r]; [discriminate|].
  intros H. apply andb_prop in H as [_ H]. cbn [slash_free] in H.
  apply andb_prop in H as [H _]. apply negb_true_iff in H. now exists c, r.
Qed.

(** [Path(str(p))] is [p] for a path as [Path] builds them. *)
Lemma Path_str_path (p : path) : wf_path p -> Path (str_path p) = p.
Proof.
  destruct p as [r ps]. intros [Hr Hp]. cbn [root parts] in Hr, Hp.
  destruct (part_ok_all ps Hp) as [Hf Hk].
  destruct ps as [|x ps'].
  - destruct Hr as [-> | [-> | ->]]; reflexivity.
  - cbn [forallb] in Hp. apply andb_prop in Hp as [Hx _].
    destruct (part_ok_head x Hx) as (c & t & -> & Hc).
    assert (Hs : split_slash_aux (join "/" (String c t :: ps')) ""
                 = String c t :: ps') by now apply split_slash_join.
    assert (Hj : exists u, join "/" (String c t :: ps') = String c u).
    { destruct ps'; [now exists t|]. eexists. reflexivity. }
    destruct Hj as [u Hj].
    destruct Hr as [-> | [-> | ->]]; unfold str_path; cbn [root parts];
      unfold Path, split_slash.
    + cbn [String.append]. rewrite Hs. rewrite Hj. cbn [leading_slashes].
      rewrite Hc. f_equal. exact Hk.
    + change ("/" ++ join "/" (String c t :: ps'))
        with (String "/" (join "/" (String c t :: ps'))).
      cbn [split_slash_aux leading_slashes].
      change (Ascii.eqb "/" "/") with true. cbv iota. rewrite Hs.
      rewrite Hj. cbn [leading_slashes]. rewrite Hc. f_equal. exact Hk.
    + change ("//" ++ join "/" (String c t :: ps'))
        with (String "/" (String "/" (join "/" (String c t :: ps')))).
      cbn [split_slash_aux leading_slashes].
      change (Ascii.eqb "/" "/") with true. cbv iota. rewrite Hs.
      rewrite Hj. cbn [leading_slashes]. rewrite Hc. f_equal. exact Hk.
Qed.

Lemma forallb_removelast {A : Type} (f : A -> bool) (l : list A) :
  forallb f l = true -> forallb f (removelast l) = true.
Proof.
  induction l as [|x r IH]; [reflexivity|]. cbn [forallb removelast].
  intros H. apply andb_prop in H as [H1 H2].
  destruct r; [reflexivity|]. cbn [forallb]. rewrite H1. now apply IH.
Qed.

Lemma parent_wf (p : path) : wf_path p -> wf_path (parent p).
Proof.
  intros [Hr Hp]. unfold parent. destruct (parts p) eqn:E; [split; congruence|].
  split; [exact Hr|]. cbn [parts]. rewrite <- E in *.
  now apply forallb_removelast.
Qed.

Lemma join_nonempty (x : string) (ps : list string) :
  x <> "" -> join "/" (x :: ps) <> "".
Proof.
  intros Hx. destruct ps; cbn [join]; [exact Hx|].
  destruct x; [congruence | discriminate].
Qed.

Lemma str_path_nonempty (p : path) : wf_path p -> str_path p <> "".
Proof.
  destruct p as [r ps]. intros [Hr Hp]. cbn [root parts] in Hr, Hp.
  destruct ps as [|x ps'].
  - destruct Hr as [-> | [-> | ->]]; discriminate.
  - cbn [forallb] in Hp. apply andb_prop in Hp as [Hx _].
    destruct (part_ok_head x Hx) as (c & t & -> & _).
    pose proof (join_nonempty (String c t) ps' ltac:(discriminate)) as Hj.
    unfold str_path. cbn [root parts].
    destruct Hr as [-> | [-> | ->]]; [exact Hj | discriminate | discriminate].
Qed.

Lemma str_default_out (home : path) :
  str_path (Gui.DEFAULT_OUT home) <> "/" /\ str_path (Gui.DEFAULT_OUT home) <> "".
Proof.
  unfold Gui.DEFAULT_OUT.
  change (joinpath home "WhisperLite")
    with (mkPath (root home) (parts home ++ ["WhisperLite"])).
  destruct (str_path_snoc (root home) (parts home) "WhisperLite") as [X ->].
  split; intros H; apply (f_equal String.length) in H;
    rewrite length_append in H; simpl in H; lia.
Qed.

(** X16. The guard of line 91 replaces the output directory by the
    default one exactly when the text of [Path(out_dir)] is [/]; its test
    for the empty text never fires, since the text of a path is never
    empty, and the text of the directory it resolves to is neither [/]
    nor empty. The guard looks at the text only: other spellings of the
    root directory, such as [//] and [/..], are kept as they are. *)
Theorem gui_resolve_out_guard (home : path) (out_dir : string) :
  str_path (Path out_dir) <> ""
  /\ (str_path (Path out_dir) = "/" <->
      root (Path out_dir) = "/" /\ parts (Path out_dir) = [])
  /\ (str_path (Path out_dir) = "/" ->
      Gui.resolve_out home out_dir = Gui.DEFAULT_OUT home)
  /\ (str_path (Path out_dir) <> "/" ->
      Gui.resolve_out home out_dir = Path out_dir)
  /\ str_path (Gui.resolve_out home out_dir) <> "/"
  /\ str_path (Gui.resolve_out home out_dir) <> ""
  /\ Gui.resolve_out home "//" = mkPath "//" []
  /\ str_path (Gui.resolve_out home "//") = "//"
  /\ Gui.resolve_out home "/.." = mkPath "/" [".."]
  /\ str_path (Gui.resolve_out home "/..") = "/..".
Proof.
  pose proof (str_path_nonempty (Path out_dir) (Path_wf out_dir)) as Hn.
  destruct (str_default_out home) as [D1 D2].
  split; [exact Hn|]. split.
  { split.
    - destruct (Path_wf out_dir) as [Hr Hp].
      destruct (Path out_dir) as [r ps]. cbn [root parts] in *.
      destruct ps as [|x ps'].
      + destruct Hr as [-> | [-> | ->]]; cbn; [discriminate | auto | discriminate].
      + cbn [forallb] in Hp. apply andb_prop in Hp as [Hx _].
        destruct (part_ok_head x Hx) as (c & t & -> & Hc).
        assert (Hj : exists u, join "/" (String c t :: ps') = String c u).
        { destruct ps'; [now exists t|]. eexists. reflexivity. }
        destruct Hj as [u Hj]. unfold str_path. cbn [root parts].
        rewrite Hj.
        destruct Hr as [-> | [-> | ->]]; cbn; intros [= E]; subst;
          discriminate.
    - destruct (Path out_dir) as [r ps]. cbn [root parts].
      now intros [-> ->]. }
  unfold Gui.resolve_out. cbv zeta.
  apply String.eqb_neq in Hn. rewrite Hn, orb_false_r.
  apply String.eqb_neq in Hn.
  destruct (String.eqb (str_path (Path out_dir)) "/") eqn:E.
  - apply String.eqb_eq in E.
    repeat split; auto; try reflexivity; congruence.
  - apply String.eqb_neq in E.
    repeat split; auto; try reflexivity; congruence.
Qed.

(* ===================================================================== *)
(** * gui_transcribe.py: the window *)
(* ===================================================================== *)

Lemma app_init_state (home : path) (w w' : world) (st0 : GuiShell.app) :
  GuiShell.app_init home w = (w', Ok st0) ->
  st0 = GuiShell.mkApp None false (str_path (Gui.DEFAULT_OUT home))
          "No file selected" ("Output: " ++ str_path (Gui.DEFAULT_OUT home))
          [] true "tiny" "" true false true None.
Proof.
  unfold GuiShell.app_init, mbind.
  destruct (mkdir _ w) as [w1 [[]|e]]; [|discriminate].
  unfold ret. now intros [= _ <-].
Qed.

Lemma app_inv_steps (home : path) (st0 : GuiShell.app) (es : list GuiShell.event) :
  app_inv home [] st0 -> app_inv home es (GuiShell.steps st0 es).
Proof.
  intros H0. induction es as [|e es IH] using rev_ind; [exact H0|].
  unfold GuiShell.steps. rewrite fold_left_app. cbn [fold_left].
  fold (GuiShell.steps st0 es). set (st := GuiShell.steps st0 es) in *.
  destruct IH as (Hu & Ha & Ho & Hl).
  unfold app_inv, expected_out_dir, chosen_dir, chosen_file.
  rewrite !fold_left_app. cbn [fold_left].
  fold (chosen_dir es). fold (chosen_file es).
  unfold expected_out_dir in Ho.
  destruct e as [fn|d|m l s v a| | |]; cbn [GuiShell.step].
  - unfold GuiShell.choose_file. destruct (String.eqb fn "") eqn:E.
    + now repeat split.
    + cbn [GuiShell.user_chose_out_dir GuiShell.app_audio_path
           GuiShell.app_out_dir GuiShell.out_label].
      rewrite Hu. destruct (chosen_dir es); now repeat split.
  - unfold GuiShell.choose_out. destruct (String.eqb d "") eqn:E.
    + now repeat split.
    + cbn [GuiShell.user_chose_out_dir GuiShell.app_audio_path
           GuiShell.app_out_dir GuiShell.out_label]. now repeat split.
  - unfold GuiShell.set_inputs. now repeat split.
  - unfold GuiShell.click_run, GuiShell.start_run.
    destruct (GuiShell.btn_run_enabled st); [|now repeat split].
    destruct (GuiShell.app_audio_path st) as [audio|] eqn:Ea.
    + destruct (String.eqb audio ""); now repeat split.
    + now repeat split.
  - unfold GuiShell.finish_ok. now repeat split.
  - unfold GuiShell.finish_fail. now repeat split.
Qed.

Lemma chosen_dir_nonempty (es : list GuiShell.event) (d : string) :
  chosen_dir es = Some d -> d <> "".
Proof.
  induction es as [|e es IH] using rev_ind; [discriminate|].
  unfold chosen_dir. rewrite fold_left_app. cbn [fold_left].
  fold (chosen_dir es). destruct e as [fn|d'|m l s v a| | |]; auto.
  destruct (String.eqb d' "") eqn:E; auto.
  intros [= <-]. now apply String.eqb_neq.
Qed.

(** X17. The output folder of the window is decided by what the user chose
    so far: the folder of the last folder dialog that was not cancelled;
    if there was none, the parent directory of the file of the last file
    dialog that was not cancelled; and the default directory if there was
    none either. The label shows that folder, the folder is never the
    empty text, and the audio path is the file chosen last. *)
Theorem app_out_dir_history (home : path) (w w' : world)
    (st0 : GuiShell.app) (es : list GuiShell.event) :
  GuiShell.app_init home w = (w', Ok st0) ->
  let st := GuiShell.steps st0 es in
  GuiShell.app_out_dir st
  = match chosen_dir es with
    | Some d => d
    | None =>
        match chosen_file es with
        | Some fn => str_path (parent (Path fn))
        | None => str_path (Gui.DEFAULT_OUT home)
        end
    end
  /\ GuiShell.out_label st = "Output: " ++ GuiShell.app_out_dir st
  /\ GuiShell.app_out_dir st <> ""
  /\ GuiShell.app_audio_path st = chosen_file es.
Proof.
  intros Hi. apply app_init_state in Hi. cbv zeta.
  assert (H0 : app_inv home [] st0) by (subst st0; now repeat split).
  destruct (app_inv_steps home st0 es H0) as (_ & Ha & Ho & Hl).
  unfold expected_out_dir in Ho.
  split; [exact Ho|]. split; [exact Hl|]. split; [|exact Ha].
  rewrite Ho. destruct (chosen_dir es) as [d|] eqn:Ed.
  - now apply (chosen_dir_nonempty es).
  - destruct (chosen_file es) as [fn|].
    + apply str_path_nonempty, parent_wf, Path_wf.
    + apply str_default_out.
Qed.

Lemma app_out_dir_history_witness :
  let es := [GuiShell.ChooseFile "/m/a.wav"; GuiShell.ChooseOut "/out";
             GuiShell.ChooseFile "/n/b.wav"; GuiShell.ChooseOut ""] in
  let st := GuiShell.steps (GuiShell.mkApp None false "/home/u/WhisperLite"
               "No file selected" "Output: /home/u/WhisperLite"
               [] true "tiny" "" true false true None) es in
  GuiShell.app_out_dir st = "/out"
  /\ GuiShell.out_label st = "Output: " ++ GuiShell.app_out_dir st
  /\ GuiShell.app_out_dir st <> ""
  /\ GuiShell.app_audio_path st = Some "/n/b.wav".
Proof.
  refine (app_out_dir_history home_u empty_world
            (mkWorld ∅ {["/home/u/WhisperLite"; "/home/u"; "/home"]} [] []) _
            [GuiShell.ChooseFile "/m/a.wav"; GuiShell.ChooseOut "/out";
             GuiShell.ChooseFile "/n/b.wav"; GuiShell.ChooseOut ""] _).
  vm_compute. reflexivity.
Defined.

Lemma init_worker_ok (audio out_dir model lang : string) (srt vtt vad : bool) :
  audio <> "" ->
  worker_ok (GuiShell.init audio out_dir model (strip lang) srt vtt vad "auto").
Proof.
  intros Ha. unfold worker_ok, GuiShell.init.
  cbn [GuiShell.audio_path GuiShell.device GuiShell.language].
  split; [exact Ha|]. split; [reflexivity|].
  destruct (String.eqb (strip lang) "") eqn:E.
  - split; [discriminate|]. intros l [=].
  - apply String.eqb_neq in E. split; [congruence|].
    intros l [= <-]. destruct (strip_trimmed lang) as (_ & A & B). now split.
Qed.

Lemma chosen_file_in (es : list GuiShell.event) (fn : string) :
  chosen_file es = Some fn -> In (GuiShell.ChooseFile fn) es.
Proof.
  induction es as [|e es IH] using rev_ind; [discriminate|].
  unfold chosen_file. rewrite fold_left_app. cbn [fold_left].
  fold (chosen_file es). intros H. apply in_or_app.
  destruct e as [fn'|d|m l s v a| | |]; auto.
  destruct (String.eqb fn' ""); auto.
  injection H as ->. right. now left.
Qed.

Lemma workers_ok_steps (home : path) (st0 : GuiShell.app)
    (es : list GuiShell.event) (wk : GuiShell.worker) :
  app_inv home [] st0 ->
  GuiShell.started st0 = None ->
  GuiShell.started (GuiShell.steps st0 es) = Some wk ->
  worker_ok wk /\ In (GuiShell.ChooseFile (GuiShell.audio_path wk)) es.
Proof.
  intros Hinv H0. revert wk.
  induction es as [|e es IH] using rev_ind; intros wk.
  - cbn. congruence.
  - pose proof (app_inv_steps home st0 es Hinv) as (_ & Ha & _).
    unfold GuiShell.steps. rewrite fold_left_app. cbn [fold_left].
    fold (GuiShell.steps st0 es). set (st := GuiShell.steps st0 es) in *.
    assert (Hold : GuiShell.started st = Some wk ->
                   worker_ok wk
                   /\ In (GuiShell.ChooseFile (GuiShell.audio_path wk))
                        (es ++ [e])).
    { intros H. destruct (IH wk H) as [A B]. split; [exact A|].
      apply in_or_app. now left. }
    destruct e as [fn|d|m l s v a| | |]; cbn [GuiShell.step].
    + unfold GuiShell.choose_file. destruct (String.eqb fn ""); exact Hold.
    + unfold GuiShell.choose_out. destruct (String.eqb d ""); exact Hold.
    + exact Hold.
    + unfold GuiShell.click_run, GuiShell.start_run.
      destruct (GuiShell.btn_run_enabled st); [|exact Hold].
      destruct (GuiShell.app_audio_path st) as [audio|] eqn:Eau; [|exact Hold].
      destruct (String.eqb audio "") eqn:E; [exact Hold|].
      cbn [GuiShell.started]. intros [= <-]. split.
      * apply init_worker_ok. now apply String.eqb_neq.
      * cbn [GuiShell.init GuiShell.audio_path]. apply in_or_app. left.
        apply chosen_file_in. congruence.
    + exact Hold.
    + exact Hold.
Qed.

(** X18. Every worker the window starts, after any sequence of dialogs,
    inputs, clicks and signals, has as its audio path a non-empty path
    that a file dialog returned, and the device [auto]; its language is
    [None] or a non-empty text without whitespace at either end; and it
    loads the model, which it does unless the bundle directory cannot be
    listed, with the device [auto] and the precision [int8], so the
    [float16] branch of [_load_model] is never taken from the window. *)
Theorem app_workers_invariant (home : path) (w w' : world)
    (st0 : GuiShell.app) (es : list GuiShell.event) (wk : GuiShell.worker) :
  GuiShell.app_init home w = (w', Ok st0) ->
  GuiShell.started (GuiShell.steps st0 es) = Some wk ->
  GuiShell.audio_path wk <> ""
  /\ In (GuiShell.ChooseFile (GuiShell.audio_path wk)) es
  /\ GuiShell.device wk = "auto"
  /\ GuiShell.language wk <> Some ""
  /\ (forall l : string, GuiShell.language wk = Some l ->
        starts_with_space l = false /\ ends_with_space l = false)
  /\ (forall (app_root : path) (local_dir : GuiShell.dir_state)
             (environ : gmap string string),
        let r := snd (GuiShell._load_model app_root wk local_dir environ) in
        (local_dir <> GuiShell.Unlistable ->
           exists call : GuiShell.model_call, r = Ok call)
        /\ forall call : GuiShell.model_call,
             r = Ok call ->
             GuiShell.call_device call = "auto"
             /\ GuiShell.call_compute_type call = "int8").
Proof.
  intros Hi Hs. apply app_init_state in Hi.
  assert (Hinv : app_inv home [] st0) by (subst st0; now repeat split).
  assert (H0 : GuiShell.started st0 = None) by now subst st0.
  destruct (workers_ok_steps home st0 es wk Hinv H0 Hs)
    as ((A & B & C & D) & Hin).
  repeat (split; [assumption|]).
  intros app_root local_dir environ. cbv zeta.
  unfold GuiShell._load_model, GuiShell.load_args.
  rewrite B. change (String.eqb "auto" "") with false.
  change (String.eqb "auto" "cuda") with false. cbv iota.
  destruct local_dir as [| |[|x l]]; cbn [snd]; split;
    try (intros _; eexists; reflexivity); try congruence;
    try (intros call [= <-]; now split);
    intros call; discriminate.
Qed.

Lemma app_workers_invariant_witness :
  let es := [GuiShell.ChooseFile "/m/a.wav";
             GuiShell.SetInputs "base" " en " true true false;
             GuiShell.ClickRun; GuiShell.ClickRun] in
  let wk := GuiShell.init "/m/a.wav" "/m" "base" "en" true true false "auto" in
  GuiShell.audio_path wk <> ""
  /\ In (GuiShell.ChooseFile (GuiShell.audio_path wk)) es
  /\ GuiShell.device wk = "auto"
  /\ GuiShell.language wk <> Some ""
  /\ (forall l : string, GuiShell.language wk = Some l ->
        starts_with_space l = false /\ ends_with_space l = false)
  /\ (forall (app_root : path) (local_dir : GuiShell.dir_state)
             (environ : gmap string string),
        let r := snd (GuiShell._load_model app_root wk local_dir environ) in
        (local_dir <> GuiShell.Unlistable ->
           exists call : GuiShell.model_call, r = Ok call)
        /\ forall call : GuiShell.model_call,
             r = Ok call ->
             GuiShell.call_device call = "auto"
             /\ GuiShell.call_compute_type call = "int8").
Proof.
  refine (app_workers_invariant home_u empty_world
            (mkWorld ∅ {["/home/u/WhisperLite"; "/home/u"; "/home"]} [] []) _
            [GuiShell.ChooseFile "/m/a.wav";
             GuiShell.SetInputs "base" " en " true true false;
             GuiShell.ClickRun; GuiShell.ClickRun]
            _ _ _).
  - vm_compute. reflexivity.
  - vm_compute. reflexivity.
Defined.

Lemma resolve_out_str (home p : path) :
  wf_path p ->
  Gui.resolve_out home (str_path p)
  = if String.eqb (str_path p) "/" then Gui.DEFAULT_OUT home else p.
Proof.
  intros Hp. unfold Gui.resolve_out. cbv zeta. rewrite (Path_str_path p Hp).
  pose proof (str_path_nonempty p Hp) as Hn. apply String.eqb_neq in Hn.
  now rewrite Hn, orb_false_r.
Qed.

(** X19. Until a folder is chosen, the transcript goes beside the audio
    file: when no folder dialog was answered, a file is selected and the
    run button, enabled, is clicked, the worker started has that file as
    its audio path and the parent directory of the file as its output
    directory, and [run] resolves it to that directory, or to the default
    directory when the file lies directly under the root. *)
Theorem gui_default_output_beside_audio (home : path) (w w' : world)
    (st0 : GuiShell.app) (es : list GuiShell.event) (fn : string) :
  GuiShell.app_init home w = (w', Ok st0) ->
  chosen_dir es = None ->
  fn <> "" ->
  GuiShell.btn_run_enabled (GuiShell.steps st0 es) = true ->
  let st := GuiShell.steps st0
              (es ++ [GuiShell.ChooseFile fn; GuiShell.ClickRun]) in
  exists wk : GuiShell.worker,
    GuiShell.started st = Some wk
    /\ GuiShell.audio_path wk = fn
    /\ GuiShell.out_dir wk = parent (Path fn)
    /\ Gui.resolve_out home (GuiShell.app_out_dir st)
       = if String.eqb (str_path (parent (Path fn))) "/"
         then Gui.DEFAULT_OUT home else parent (Path fn).
Proof.
  intros Hi Hd Hf Hb. apply app_init_state in Hi. cbv zeta.
  assert (H0 : app_inv home [] st0) by (subst st0; now repeat split).
  destruct (app_inv_steps home st0 es H0) as (Hu & _).
  rewrite Hd in Hu.
  unfold GuiShell.steps. rewrite fold_left_app. cbn [fold_left].
  fold (GuiShell.steps st0 es). set (st1 := GuiShell.steps st0 es) in *.
  cbn [GuiShell.step]. unfold GuiShell.choose_file.
  apply String.eqb_neq in Hf. rewrite Hf, Hu.
  unfold GuiShell.click_run. cbn [GuiShell.btn_run_enabled]. rewrite Hb.
  unfold GuiShell.start_run. cbn [GuiShell.app_audio_path]. rewrite Hf.
  cbn [GuiShell.started GuiShell.app_out_dir].
  pose proof (parent_wf _ (Path_wf fn)) as Hw.
  eexists. split; [reflexivity|].
  unfold GuiShell.init. cbn [GuiShell.audio_path GuiShell.out_dir].
  split; [reflexivity|]. split; [now apply Path_str_path|].
  now apply resolve_out_str.
Qed.

Lemma gui_default_output_beside_audio_witness :
  let st := GuiShell.steps (GuiShell.mkApp None false "/home/u/WhisperLite"
               "No file selected" "Output: /home/u/WhisperLite"
               [] true "tiny" "" true false true None)
              ([GuiShell.ChooseFile "/a.wav"]
               ++ [GuiShell.ChooseFile "/m/a.wav"; GuiShell.ClickRun]) in
  exists wk : GuiShell.worker,
    GuiShell.started st = Some wk
    /\ GuiShell.audio_path wk = "/m/a.wav"
    /\ GuiShell.out_dir wk = parent (Path "/m/a.wav")
    /\ Gui.resolve_out home_u (GuiShell.app_out_dir st)
       = if String.eqb (str_path (parent (Path "/m/a.wav"))) "/"
         then Gui.DEFAULT_OUT home_u else parent (Path "/m/a.wav").
Proof.
  refine (gui_default_output_beside_audio home_u empty_world
            (mkWorld ∅ {["/home/u/WhisperLite"; "/home/u"; "/home"]} [] []) _
            [GuiShell.ChooseFile "/a.wav"] "/m/a.wav" _ _ _ _).
  - vm_compute. reflexivity.
  - reflexivity.
  - discriminate.
  - reflexivity.
Defined.

(* ===================================================================== *)
(** * transcribe.py: what a timestamp denotes *)
(* ===================================================================== *)

Lemma string_of_lead_zeros (k : nat) (d : Decimal.uint) :
  NilEmpty.string_of_uint (lead_zeros k d)
  = zeros k ++ NilEmpty.string_of_uint d.
Proof.
  induction k as [|k IH]; [reflexivity|].
  cbn [lead_zeros zeros NilEmpty.string_of_uint]. now rewrite IH.
Qed.

Lemma of_uint_lead_zeros (k : nat) (d : Decimal.uint) :
  Pos.of_uint (lead_zeros k d) = Pos.of_uint d.
Proof. induction k as [|k IH]; [reflexivity | exact IH]. Qed.

Lemma str_int_uint (n : Z) :
  0 <= n ->
  exists d : Decimal.uint,
    str_int n = NilEmpty.string_of_uint d /\ Z.of_N (Pos.of_uint d) = n.
Proof.
  intros H. destruct n as [|p|p]; [| |lia].
  - now exists (Decimal.D0 Decimal.Nil).
  - exists (Pos.to_uint p). split.
    + unfold str_int. cbn [Z.to_int NilZero.string_of_int].
      unfold NilZero.string_of_uint.
      pose proof (Unsigned.to_uint_nonnil p).
      destruct (Pos.to_uint p); [congruence | reflexivity ..].
    + now rewrite DecimalPos.Unsigned.of_to.
Qed.

Lemma digits_value_fmt_0d (w : nat) (n : Z) :
  0 <= n -> digits_value (fmt_0d w n) = Some n.
Proof.
  intros H. rewrite (fmt_0d_nonneg w n H). unfold zfill.
  destruct (str_int_uint n H) as (d & -> & Hv).
  rewrite <- string_of_lead_zeros. unfold digits_value.
  rewrite NilEmpty.usu. now rewrite of_uint_lead_zeros, Hv.
Qed.

Lemma append_inj_length (a1 b1 a2 b2 : string) :
  String.length a1 = String.length a2 ->
  a1 ++ b1 = a2 ++ b2 -> a1 = a2 /\ b1 = b2.
Proof.
  revert a2. induction a1 as [|c r IH]; intros [|c' r'] Hl H;
    try discriminate.
  - now split.
  - change (String c r ++ b1) with (String c (r ++ b1)) in H.
    change (String c' r' ++ b2) with (String c' (r' ++ b2)) in H.
    injection H as -> H. cbn in Hl.
    destruct (IH r' ltac:(lia) H) as [-> ->]. now split.
Qed.

(** The four fields of a time in milliseconds. *)
Lemma hhmmss_ms_fields (t : Z) (sep : string) :
  0 <= t ->
  exists h m s f : Z,
    Cli.hhmmss_ms t sep
    = fmt_0d 2 h ++ ":" ++ fmt_0d 2 m ++ ":" ++ fmt_0d 2 s ++ sep ++ fmt_0d 3 f
    /\ 0 <= h /\ 0 <= m < 60 /\ 0 <= s < 60 /\ 0 <= f < 1000
    /\ t = 3600000 * h + 60000 * m + 1000 * s + f.
Proof.
  intros H. unfold Cli.hhmmss_ms. cbv zeta.
  exists (t / 3600000), (t mod 3600000 / 60000),
         (t mod 3600000 mod 60000 / 1000), (t mod 3600000 mod 60000 mod 1000).
  split; [reflexivity|].
  pose proof (Z.div_mod t 3600000 ltac:(lia)).
  pose proof (Z.mod_pos_bound t 3600000 ltac:(lia)).
  pose proof (Z.div_mod (t mod 3600000) 60000 ltac:(lia)).
  pose proof (Z.mod_pos_bound (t mod 3600000) 60000 ltac:(lia)).
  pose proof (Z.div_mod (t mod 3600000 mod 60000) 1000 ltac:(lia)).
  pose proof (Z.mod_pos_bound (t mod 3600000 mod 60000) 1000 ltac:(lia)).
  pose proof (Z.div_pos t 3600000 H ltac:(lia)).
  assert (0 <= t mod 3600000 / 60000 < 60)
    by (split; [apply Z.div_pos; lia | apply Z.div_lt_upper_bound; lia]).
  assert (0 <= t mod 3600000 mod 60000 / 1000 < 60)
    by (split; [apply Z.div_pos; lia | apply Z.div_lt_upper_bound; lia]).
  repeat split; lia.
Qed.

(** X20. A timestamp of the command-line tool denotes its time exactly:
    read as decimal numbers, its four fields are hours, minutes below 60,
    seconds below 60 and milliseconds below 1000 that add up to the
    number of milliseconds formatted; the hours take what is left and so
    never wrap. *)
Theorem cli_timestamp_denotes (t : Z) (sep : string) :
  0 <= t ->
  exists hh mm ss ms : string,
    Cli.hhmmss_ms t sep = hh ++ ":" ++ mm ++ ":" ++ ss ++ sep ++ ms
    /\ (2 <= String.length hh)%nat /\ String.length mm = 2%nat
    /\ String.length ss = 2%nat /\ String.length ms = 3%nat
    /\ exists h m s f : Z,
         digits_value hh = Some h /\ digits_value mm = Some m
         /\ digits_value ss = Some s /\ digits_value ms = Some f
         /\ 0 <= m < 60 /\ 0 <= s < 60 /\ 0 <= f < 1000
         /\ t = 3600000 * h + 60000 * m + 1000 * s + f.
Proof.
  intros H.
  destruct (hhmmss_ms_fields t sep H) as (h & m & s & f & E & Hh & Hm & Hs & Hf & Ht).
  exists (fmt_0d 2 h), (fmt_0d 2 m), (fmt_0d 2 s), (fmt_0d 3 f).
  split; [exact E|].
  split; [now apply length_fmt_0d_min|].
  split; [apply length_fmt_0d_2; lia|].
  split; [apply length_fmt_0d_2; lia|].
  split; [apply length_fmt_0d_3; lia|].
  exists h, m, s, f.
  rewrite !digits_value_fmt_0d by lia. repeat split; lia.
Qed.

Lemma cli_timestamp_denotes_witness :
  exists hh mm ss ms : string,
    Cli.hhmmss_ms 90000500 "," = hh ++ ":" ++ mm ++ ":" ++ ss ++ "," ++ ms
    /\ (2 <= String.length hh)%nat /\ String.length mm = 2%nat
    /\ String.length ss = 2%nat /\ String.length ms = 3%nat
    /\ exists h m s f : Z,
         digits_value hh = Some h /\ digits_value mm = Some m
         /\ digits_value ss = Some s /\ digits_value ms = Some f
         /\ 0 <= m < 60 /\ 0 <= s < 60 /\ 0 <= f < 1000
         /\ 90000500 = 3600000 * h + 60000 * m + 1000 * s + f.
Proof.
  refine (cli_timestamp_denotes 90000500 "," _). lia.
Defined.

Lemma hhmmss_ms_inj (t1 t2 : Z) (sep : string) :
  0 <= t1 -> 0 <= t2 ->
  Cli.hhmmss_ms t1 sep = Cli.hhmmss_ms t2 sep -> t1 = t2.
Proof.
  intros H1 H2 E.
  destruct (hhmmss_ms_fields t1 sep H1)
    as (h1 & m1 & s1 & f1 & E1 & Hh1 & Hm1 & Hs1 & Hf1 & ->).
  destruct (hhmmss_ms_fields t2 sep H2)
    as (h2 & m2 & s2 & f2 & E2 & Hh2 & Hm2 & Hs2 & Hf2 & ->).
  rewrite E1, E2 in E. clear E1 E2.
  pose proof (f_equal String.length E) as Hl.
  rewrite !length_append in Hl.
  rewrite !(length_fmt_0d_2 m1), !(length_fmt_0d_2 s1), !(length_fmt_0d_3 f1),
    !(length_fmt_0d_2 m2), !(length_fmt_0d_2 s2), !(length_fmt_0d_3 f2)
    in Hl by lia.
  assert (Lh : String.length (fmt_0d 2 h1) = String.length (fmt_0d 2 h2)) by lia.
  assert (Lm : String.length (fmt_0d 2 m1) = String.length (fmt_0d 2 m2))
    by (rewrite !length_fmt_0d_2 by lia; reflexivity).
  assert (Ls : String.length (fmt_0d 2 s1) = String.length (fmt_0d 2 s2))
    by (rewrite !length_fmt_0d_2 by lia; reflexivity).
  destruct (append_inj_length _ _ _ _ Lh E) as [Eh E'].
  destruct (append_inj_length ":" _ ":" _ eq_refl E') as [_ E''].
  destruct (append_inj_length _ _ _ _ Lm E'') as [Em E3].
  destruct (append_inj_length ":" _ ":" _ eq_refl E3) as [_ E4].
  destruct (append_inj_length _ _ _ _ Ls E4) as [Es E5].
  destruct (append_inj_length sep _ sep _ eq_refl E5) as [_ Ef].
  apply (f_equal digits_value) in Eh, Em, Es, Ef.
  rewrite !digits_value_fmt_0d in Eh, Em, Es, Ef by lia.
  injection Eh as ->. injection Em as ->. injection Es as ->.
  injection Ef as ->. reflexivity.
Qed.

(** X21. Timestamps are unambiguous: two times are formatted alike only
    when they are the same number of milliseconds, whatever the
    separator. *)
Theorem cli_timestamps_distinct (t1 t2 : Z) (sep : string) :
  0 <= t1 -> 0 <= t2 ->
  Cli.hhmmss_ms t1 sep = Cli.hhmmss_ms t2 sep <-> t1 = t2.
Proof.
  intros H1 H2. split; [now apply hhmmss_ms_inj | now intros ->].
Qed.

Lemma cli_timestamps_distinct_witness :
  Cli.hhmmss_ms 86399999 "," = Cli.hhmmss_ms 86400000 ","
  <-> 86399999 = 86400000.
Proof.
  refine (cli_timestamps_distinct 86399999 86400000 "," _ _); lia.
Defined.

(* ===================================================================== *)
(** * transcribe.py: when [main] raises *)
(* ===================================================================== *)

(** X22. When the end of [main] raises, it has stopped at the file it was
    writing: the files opened are the first [k] of the requested ones, in
    order, the [k - 1] before the last hold their whole documents, the
    later ones were not opened, and no other file or directory changed. *)
Theorem cli_main_stops_at_first_failure (base : string) (srt vtt : bool)
    (segs : list Segment) (w w' : world) (e : exn) :
  Cli.main base srt vtt segs w = (w', Raise e) ->
  exists k : nat,
    (1 <= k)%nat
    /\ opens w' = (opens w ++ firstn k (cli_targets base srt vtt))%list
    /\ (forall p d : string,
          In (p, d) (firstn (k - 1) (cli_target_docs base srt vtt segs)) ->
          files w' !! p = Some d)
    /\ (forall p : string,
          ~ In p (cli_targets base srt vtt) -> files w' !! p = files w !! p)
    /\ dirs w' = dirs w.
Proof.
  rewrite cli_main_three.
  destruct (three_writes _ _ _ srt vtt w) as [w1 [[]|e1]] eqn:E;
    [discriminate|].
  intros H. inversion H; subst; clear H.
  destruct (cli_three_spec _ _ _ _ _ _ _ E) as (Hd & Hf & _).
  assert (N12 : base ++ ".txt" <> base ++ ".srt")
    by (apply ext_differs; [reflexivity | discriminate]).
  assert (N13 : base ++ ".txt" <> base ++ ".vtt")
    by (apply ext_differs; [reflexivity | discriminate]).
  assert (N23 : base ++ ".srt" <> base ++ ".vtt")
    by (apply ext_differs; [reflexivity | discriminate]).
  destruct (three_writes_raises
              (base ++ ".txt") (base ++ ".srt") (base ++ ".vtt")
              (txt_document segs) (srt_document Cli.srt_ts 1 segs)
              (vtt_document Cli.vtt_ts segs)
              (Cli.write_txt (base ++ ".txt") segs)
              (Cli.write_srt (base ++ ".srt") segs)
              (Cli.write_vtt (base ++ ".vtt") segs)
              (write_txt_writes_to _ _) (write_srt_writes_to _ _ _)
              (write_vtt_writes_to _ _ _)
              (fun x y => write_txt_returns _ _ x y)
              (fun x y H => proj2 (write_srt_returns _ _ _ x y H))
              N12 N13 N23
              srt vtt w w' e E) as (k & Hk & Ho & Hdoc).
  exists k. repeat split; assumption.
Qed.

Lemma cli_main_stops_at_first_failure_witness :
  let w := mkWorld ∅ ∅ [IoOk; IoWriteFail 0] [] in
  let w' := fst (Cli.main "a" true true two_segments w) in
  exists k : nat,
    (1 <= k)%nat
    /\ opens w' = (opens w ++ firstn k (cli_targets "a" true true))%list
    /\ (forall p d : string,
          In (p, d) (firstn (k - 1) (cli_target_docs "a" true true two_segments)) ->
          files w' !! p = Some d)
    /\ (forall p : string,
          ~ In p (cli_targets "a" true true) -> files w' !! p = files w !! p)
    /\ dirs w' = dirs w.
Proof.
  refine (cli_main_stops_at_first_failure "a" true true two_segments
            (mkWorld ∅ ∅ [IoOk; IoWriteFail 0] [])
            (fst (Cli.main "a" true true two_segments
                    (mkWorld ∅ ∅ [IoOk; IoWriteFail 0] []))) OSError _).
  vm_compute. reflexivity.
Defined.

(* ===================================================================== *)
(** * The fallback of the GUI worker and the manifest *)
(* ===================================================================== *)

(** C3, amended. In the GUI worker, once the output directory is there and
    the primary sequence of writes has raised [OSError], the outcome of
    [run] is that of the fallback: either the [done] signal, whose message
    lists the text file and every requested subtitle file under the
    default directory, each opened once, the directory present and the
    files holding their documents, or the [failed] signal with the
    exception the fallback raised. After the failure only fallback targets
    are opened, in order and at most once each. And the fallback does
    write: when the default directory is there or can be created, every
    [open] under it succeeds and every subtitle file asked for can be
    formatted, the outcome is the [done] signal. *)
Theorem gui_write_failure_falls_back_once
    (home : path) (audio_path out_dir : string) (srt vtt : bool)
    (segs : list Segment) (w w0 w1 : world) :
  mkdir (Gui.resolve_out home out_dir) w = (w0, Ok tt) ->
  Gui.write_primary (Gui.resolve_out home out_dir)
    (stem (Path audio_path)) srt vtt segs w0 = (w1, Raise OSError) ->
  exists (w3 : world) (k : nat),
    opens w3
    = (opens w1
       ++ firstn k (gui_targets (Gui.DEFAULT_OUT home)
                      (stem (Path audio_path)) srt vtt))%list
    /\ ((Gui.run home audio_path out_dir srt vtt (Ok segs) w
         = (w3, Gui.done
                  ("Wrote (fallback): "
                   ++ join ", " (gui_targets (Gui.DEFAULT_OUT home)
                                   (stem (Path audio_path)) srt vtt)))
         /\ k = length (gui_targets (Gui.DEFAULT_OUT home)
                          (stem (Path audio_path)) srt vtt)
         /\ str_path (Gui.DEFAULT_OUT home) ∈ dirs w3
         /\ gui_holds (files w3) (Gui.DEFAULT_OUT home)
              (stem (Path audio_path)) srt vtt segs)
        \/ (exists e : exn,
              Gui.run home audio_path out_dir srt vtt (Ok segs) w
              = (w3, Gui.failed e)
              /\ Gui.write_fallback home (stem (Path audio_path)) srt vtt
                   segs w1 = (w3, Raise e)))
    /\ (forall w2 : world,
          mkdir (Gui.DEFAULT_OUT home) w1 = (w2, Ok tt) ->
          script w2 = [] ->
          negb (srt || vtt) || forallb (formats Gui.srt_ts) segs = true ->
          Gui.run home audio_path out_dir srt vtt (Ok segs) w
          = (w3, Gui.done
                   ("Wrote (fallback): "
                    ++ join ", " (gui_targets (Gui.DEFAULT_OUT home)
                                    (stem (Path audio_path)) srt vtt)))
          /\ opens w3
             = (opens w1
                ++ gui_targets (Gui.DEFAULT_OUT home)
                     (stem (Path audio_path)) srt vtt)%list
          /\ str_path (Gui.DEFAULT_OUT home) ∈ dirs w3
          /\ gui_holds (files w3) (Gui.DEFAULT_OUT home)
               (stem (Path audio_path)) srt vtt segs).
Proof.
  intros Hm Hp. rewrite (gui_run_cases _ _ _ _ _ _ _ _ Hm), Hp.
  destruct (Gui.write_fallback home _ srt vtt segs w1) as [w3 r] eqn:Ef.
  destruct (gui_fallback_spec _ _ _ _ _ _ _ _ Ef) as (_ & k & _ & O & A).
  exists w3, k. split; [exact O|]. split.
  - destruct r as [msg|e].
    + left. destruct (A eq_refl) as (-> & Hd & [= ->] & Hh). auto.
    + right. exists e. auto.
  - intros w2 Hmk Hs Hf.
    assert (Hr : is_ok r = true).
    { rewrite gui_fallback_three, Hmk in Ef. cbv zeta in Ef.
      destruct (gui_three_unscripted (Gui.DEFAULT_OUT home)
                  (stem (Path audio_path)) srt vtt segs Hf w2 Hs)
        as (w' & E' & _).
      rewrite E' in Ef. now inversion Ef. }
    destruct r as [msg|e]; [|discriminate].
    destruct (A eq_refl) as (-> & Hd & [= ->] & Hh).
    rewrite firstn_all in O. auto.
Qed.

Lemma gui_write_failure_falls_back_once_witness :
  exists w3 : world,
    Gui.run home_u "/m/a.wav" "/m" true true (Ok two_segments)
      (mkWorld ∅ ∅ [IoOk; IoOk; IoFail] [])
    = (w3, Gui.done ("Wrote (fallback): /home/u/WhisperLite/a.txt, "
                      ++ "/home/u/WhisperLite/a.srt, "
                      ++ "/home/u/WhisperLite/a.vtt"))
    /\ opens w3
       = ["/m/a.txt"; "/m/a.srt"; "/home/u/WhisperLite/a.txt";
          "/home/u/WhisperLite/a.srt"; "/home/u/WhisperLite/a.vtt"]
    /\ str_path (Gui.DEFAULT_OUT home_u) ∈ dirs w3
    /\ gui_holds (files w3) (Gui.DEFAULT_OUT home_u) "a" true true
         two_segments.
Proof.
  pose (w := mkWorld ∅ ∅ [IoOk; IoOk; IoFail] []).
  pose (w0 := fst (mkdir (Path "/m") w)).
  pose (w1 := fst (Gui.write_primary (Path "/m") "a" true true two_segments w0)).
  pose (w2 := fst (mkdir (Gui.DEFAULT_OUT home_u) w1)).
  assert (H0 : mkdir (Gui.resolve_out home_u "/m") w = (w0, Ok tt))
    by (vm_compute; reflexivity).
  assert (H1 : Gui.write_primary (Gui.resolve_out home_u "/m")
                 (stem (Path "/m/a.wav")) true true two_segments w0
               = (w1, Raise OSError))
    by (vm_compute; reflexivity).
  assert (H2 : mkdir (Gui.DEFAULT_OUT home_u) w1 = (w2, Ok tt))
    by (vm_compute; reflexivity).
  assert (H3 : script w2 = []) by (vm_compute; reflexivity).
  assert (H4 : negb (true || true)
               || forallb (formats Gui.srt_ts) two_segments = true)
    by (vm_compute; reflexivity).
  assert (H5 : opens w1 = ["/m/a.txt"; "/m/a.srt"])
    by (vm_compute; reflexivity).
  destruct (gui_write_failure_falls_back_once home_u "/m/a.wav" "/m" true true
              two_segments w w0 w1 H0 H1) as (w3 & k & _ & _ & S).
  destruct (S w2 H2 H3 H4) as (R & O & D & H).
  exists w3. split; [exact R|]. split; [rewrite O, H5; reflexivity|].
  split; [exact D | exact H].
Defined.


